(** * Delegated authorization and token lifecycle (simplified OAuth manager)

    A shallow embedding of the OAuth module of the case-booking
    application: PKCE generation, authorization URL construction, code
    exchange, the (country, provider) token store, the token lifecycle
    manager, the Gmail MIME dispatcher and the popup flow controller.

    Conventions of the embedding.
    - JavaScript strings are [string]; a string handed to [btoa] is the
      sequence of its bytes (the code feeds [btoa] either raw digest bytes
      or the UTF-8 bytes produced by [unescape(encodeURIComponent(_))]).
    - Numbers that the code uses as integers (milliseconds, seconds,
      lengths) are [Z] or [nat].
    - [localStorage] is a finite map from keys to text.
    - Functions with effects run in a state-and-exception monad over the
      browser [World]; methods of the manager class run over the pair of
      the object's fields and the world.
    - Browser and language built-ins that the module calls but does not
      define (JSON, SHA-256, URLSearchParams, number printing) are the
      methods of the class [Builtins]. *)

From Stdlib Require Import ZArith NArith Ascii String List Lia Bool DecimalString.
From stdpp Require Import base gmap strings list.

Local Open Scope Z_scope.

(** ** JavaScript values used by the module *)

Inductive JsError : Type :=
| Error (message : string)
| TypeError (message : string)
| SyntaxError (message : string).

Definition error_message (e : JsError) : string :=
  match e with Error m | TypeError m | SyntaxError m => m end.

Inductive Completion (A : Type) : Type :=
| Normal (a : A)
| Throw (e : JsError).
Arguments Normal {A} a.
Arguments Throw {A} e.

(** The double quote character, for MIME parameters. *)
Definition dquote : string := String (ascii_of_nat 34) EmptyString.
(** Line feed, the separator of [join('\n')]. *)
Definition LF : string := String (ascii_of_nat 10) EmptyString.

(** [s.includes(sub)] *)
Fixpoint includes (s sub : string) : bool :=
  String.prefix sub s ||
  match s with
  | EmptyString => false
  | String _ s' => includes s' sub
  end.

(** A string in a boolean position: the empty string is falsy. *)
Definition truthy (s : string) : bool :=
  match s with EmptyString => false | _ => true end.

(** An optional property in a boolean position: [undefined] and the
    empty string are falsy. *)
Definition truthy_opt (o : option string) : bool :=
  match o with Some s => truthy s | None => false end.

(** [a || b] on optional string properties. *)
Definition or_else (a b : option string) : option string :=
  if truthy_opt a then a else b.

(** [parts.join(sep)] *)
Fixpoint join (sep : string) (parts : list string) : string :=
  match parts with
  | [] => ""
  | [p] => p
  | p :: rest => p +:+ sep +:+ join sep rest
  end.

(** The concatenation of a list of strings. *)
Definition flatten (parts : list string) : string :=
  fold_right String.append "" parts.

(** [s.substr(start, len)] for non-negative arguments. *)
Fixpoint drop_chars (n : nat) (s : string) : string :=
  match n, s with
  | O, _ => s
  | S n', String _ s' => drop_chars n' s'
  | S _, EmptyString => EmptyString
  end.

Fixpoint take_chars (n : nat) (s : string) : string :=
  match n, s with
  | S n', String c s' => String c (take_chars n' s')
  | _, _ => EmptyString
  end.

Definition substr (s : string) (start len : nat) : string :=
  take_chars len (drop_chars start s).

(** [s.substring(0, n)] *)
Definition substring0 (s : string) (n : nat) : string := take_chars n s.

(** [s.charAt(i)]: the empty string when [i] is out of range. *)
Definition charAt (s : string) (i : nat) : string :=
  match String.get i s with
  | Some c => String c EmptyString
  | None => EmptyString
  end.

(** [s.replace(/c/g, by)] for a single character pattern. *)
Fixpoint replace_char (c : ascii) (by_ : string) (s : string) : string :=
  match s with
  | EmptyString => EmptyString
  | String x s' =>
      if Ascii.eqb x c then by_ +:+ replace_char c by_ s'
      else String x (replace_char c by_ s')
  end.

(** [s.replace(/=+$/, '')]: the leftmost run of [=] that reaches the end of
    the string is removed. *)
Fixpoint only_equals (s : string) : bool :=
  match s with
  | EmptyString => true
  | String x s' => Ascii.eqb x "="%char && only_equals s'
  end.

Fixpoint strip_trailing_equals (s : string) : string :=
  match s with
  | EmptyString => EmptyString
  | String x s' =>
      if only_equals s then EmptyString
      else String x (strip_trailing_equals s')
  end.

(** ** Base64 *)

Definition b64_alphabet : string :=
  "ABCDEFGHIJKLMNOPQRSTUVWXYZabcdefghijklmnopqrstuvwxyz0123456789+/".

Definition b64url_alphabet : string :=
  "ABCDEFGHIJKLMNOPQRSTUVWXYZabcdefghijklmnopqrstuvwxyz0123456789-_".

Definition b64_char (n : N) : ascii :=
  match String.get (N.to_nat n) b64_alphabet with
  | Some c => c
  | None => "="%char
  end.

(** [btoa(s)]: three bytes become four characters; one or two trailing
    bytes are padded with [=]. *)
Fixpoint btoa (s : string) : string :=
  match s with
  | EmptyString => EmptyString
  | String a EmptyString =>
      let x := N_of_ascii a in
      String (b64_char (x / 4))
        (String (b64_char ((x mod 4) * 16)) "==")
  | String a (String b EmptyString) =>
      let x := N_of_ascii a in
      let y := N_of_ascii b in
      String (b64_char (x / 4))
        (String (b64_char ((x mod 4) * 16 + y / 16))
           (String (b64_char ((y mod 16) * 4)) "="))
  | String a (String b (String c rest)) =>
      let x := N_of_ascii a in
      let y := N_of_ascii b in
      let z := N_of_ascii c in
      String (b64_char (x / 4))
        (String (b64_char ((x mod 4) * 16 + y / 16))
           (String (b64_char ((y mod 16) * 4 + z / 64))
              (String (b64_char (z mod 64)) (btoa rest))))
  end%N.

(** The two chains of replacements that the module applies after [btoa]. *)
Definition base64url_strip_all (base64String : string) : string :=
  replace_char "="%char ""
    (replace_char "/"%char "_"
       (replace_char "+"%char "-" base64String)).

Definition base64url_strip_trailing (base64String : string) : string :=
  strip_trailing_equals
    (replace_char "/"%char "_"
       (replace_char "+"%char "-" base64String)).

(** Reading base64url back (RFC 4648, section 5, without padding); this is
    the decoder the specification refers to, not code of the module. *)
Fixpoint index_of (c : ascii) (s : string) : option N :=
  match s with
  | EmptyString => None
  | String x s' =>
      if Ascii.eqb x c then Some 0%N
      else option_map N.succ (index_of c s')
  end.

Definition b64url_value (c : ascii) : option N := index_of c b64url_alphabet.

Fixpoint base64url_decode (s : string) : option string :=
  match s with
  | EmptyString => Some EmptyString
  | String c1 (String c2 EmptyString) =>
      match b64url_value c1, b64url_value c2 with
      | Some v1, Some v2 =>
          Some (String (ascii_of_N (v1 * 4 + v2 / 16)) EmptyString)
      | _, _ => None
      end
  | String c1 (String c2 (String c3 EmptyString)) =>
      match b64url_value c1, b64url_value c2, b64url_value c3 with
      | Some v1, Some v2, Some v3 =>
          Some (String (ascii_of_N (v1 * 4 + v2 / 16))
                  (String (ascii_of_N ((v2 mod 16) * 16 + v3 / 4))
                     EmptyString))
      | _, _, _ => None
      end
  | String c1 (String c2 (String c3 (String c4 rest))) =>
      match b64url_value c1, b64url_value c2, b64url_value c3,
            b64url_value c4, base64url_decode rest with
      | Some v1, Some v2, Some v3, Some v4, Some tail =>
          Some (String (ascii_of_N (v1 * 4 + v2 / 16))
                  (String (ascii_of_N ((v2 mod 16) * 16 + v3 / 4))
                     (String (ascii_of_N ((v3 mod 4) * 64 + v4)) tail)))
      | _, _, _, _, _ => None
      end
  | String _ EmptyString => None
  end%N.

(** What the replacements of [+] and [/] do to one character. *)
Definition url_char (c : ascii) : ascii :=
  if Ascii.eqb c "+" then "-"%char
  else if Ascii.eqb c "/" then "_"%char
  else c.

Definition is_sextet (n : N) : Prop := (n < 64)%N.

(** Membership of every character of a string in a character set. *)
Fixpoint all_chars (P : ascii -> bool) (s : string) : bool :=
  match s with
  | EmptyString => true
  | String c s' => P c && all_chars P s'
  end.

Definition in_charset (set : string) (c : ascii) : bool :=
  match index_of c set with Some _ => true | None => false end.

(** The three characters that base64url must not contain. *)
Definition not_plus_slash_equals (c : ascii) : bool :=
  negb (Ascii.eqb c "+") && negb (Ascii.eqb c "/") && negb (Ascii.eqb c "=").

(** The unreserved characters of RFC 3986: letters, digits, [-], [.], [_]
    and [~]. *)
Definition unreserved (c : ascii) : bool :=
  let n := nat_of_ascii c in
  ((65 <=? n) && (n <=? 90) || (97 <=? n) && (n <=? 122) ||
   (48 <=? n) && (n <=? 57) ||
   Ascii.eqb c "-" || Ascii.eqb c "." || Ascii.eqb c "_" || Ascii.eqb c "~")%nat.

(** ** Data model

    Records follow the interfaces of the module. Values that come out of
    [JSON.parse] or [response.json()] are read at the types the code
    declares for them; a property that may be missing is an [option].
    Three fields are renamed because Rocq has one name space for record
    fields: [name] of [UserInfo] is [uname], [body] of the e-mail data is
    [ebody], and the [config] field of the manager is [mconfig]. *)

Inductive Provider : Type := google | microsoft.

Definition provider_key (p : Provider) : string :=
  match p with google => "google" | microsoft => "microsoft" end.

Global Instance Provider_eq_dec : EqDecision Provider.
Proof. solve_decision. Defined.

Record OAuthConfig : Type := {
  clientId : string;
  scopes : list string;
  redirectUri : string
}.

Record OAuthProvider : Type := {
  name : string;
  authUrl : string;
  tokenUrl : string;
  userInfoUrl : string;
  config : OAuthConfig
}.

Record AuthTokens : Type := {
  accessToken : string;
  refreshToken : option string;
  expiresIn : Z;
  expiresAt : Z
}.

Record PKCEChallenge : Type := {
  codeVerifier : string;
  codeChallenge : string
}.

Record UserInfo : Type := {
  id : option string;
  email : option string;
  uname : option string;
  picture : option string
}.

(** The body of a token endpoint response, as the code reads it. *)
Record TokenResponse : Type := {
  access_token : string;
  refresh_token : option string;
  expires_in : Z
}.

(** The body of a profile endpoint response: the union of the Google and
    Microsoft Graph properties that [getUserInfo] reads. *)
Record Profile : Type := {
  p_id : option string;
  p_email : option string;
  p_name : option string;
  p_picture : option string;
  p_mail : option string;
  p_userPrincipalName : option string;
  p_displayName : option string;
  p_photo_value : option string
}.

(** ** The browser *)

Record Request : Type := {
  url : string;
  method : string;
  headers : list (string * string);
  body : string
}.

Record Response : Type := {
  ok : bool;
  status : Z;
  statusText : string;
  text : string
}.

(** What a [fetch] call comes back with, and how long it took. *)
Inductive FetchOutcome : Type :=
| NetworkFailure (message : string) (elapsed : N)
| Answered (r : Response) (elapsed : N).

Record Env : Type := {
  origin : string;                               (* window.location.origin *)
  REACT_APP_GOOGLE_CLIENT_ID : option string;    (* process.env *)
  REACT_APP_MICROSOFT_CLIENT_ID : option string
}.

Record World : Type := {
  localStorage : gmap string string;
  clock : Z;                     (* Date.now(), milliseconds *)
  entropy : nat -> N;            (* the values Math.random() will return *)
  draws : nat;                   (* how many have been taken *)
  network : list FetchOutcome;   (* outcomes of the coming fetch calls *)
  requests : list Request        (* the fetch calls made, oldest first *)
}.

Definition with_localStorage (f : gmap string string -> gmap string string)
    (w : World) : World :=
  {| localStorage := f (localStorage w); clock := clock w;
     entropy := entropy w; draws := draws w;
     network := network w; requests := requests w |}.

Definition with_draws (n : nat) (w : World) : World :=
  {| localStorage := localStorage w; clock := clock w;
     entropy := entropy w; draws := n;
     network := network w; requests := requests w |}.

Definition with_network (clk : Z) (net : list FetchOutcome)
    (reqs : list Request) (w : World) : World :=
  {| localStorage := localStorage w; clock := clk;
     entropy := entropy w; draws := draws w;
     network := net; requests := reqs |}.

(** ** State and exception monad *)

Definition M (S A : Type) : Type := S -> Completion A * S.

Definition ret {S A} (a : A) : M S A := fun s => (Normal a, s).

Definition throw {S A} (e : JsError) : M S A := fun s => (Throw e, s).

Definition bind {S A B} (c : M S A) (k : A -> M S B) : M S B :=
  fun s =>
    match c s with
    | (Normal a, s') => k a s'
    | (Throw e, s') => (Throw e, s')
    end.

(** [try { c } catch (e) { h e }] *)
Definition try_catch {S A} (c : M S A) (h : JsError -> M S A) : M S A :=
  fun s =>
    match c s with
    | (Normal a, s') => (Normal a, s')
    | (Throw e, s') => h e s'
    end.

Definition gets {S A} (f : S -> A) : M S A := fun s => (Normal (f s), s).

Definition modify {S} (f : S -> S) : M S unit := fun s => (Normal tt, f s).

(** Run a function of the module from inside a method of the manager. *)
Definition in_world {T A} (c : M World A) : M (T * World) A :=
  fun s =>
    match c (snd s) with
    | (r, w') => (r, (fst s, w'))
    end.

Notation "'let*' x ':=' c1 'in' c2" := (bind c1 (fun x => c2))
  (at level 10, x name, c1 at level 100, c2 at level 200).
Notation "c1 ';;' c2" := (bind c1 (fun _ => c2))
  (at level 100, c2 at level 200, right associativity).

(** [Date.now()] *)
Definition Date_now : M World Z := gets clock.

(** [Math.random()]: the next value of the source, a 53-bit numerator [d]
    standing for the number [d / 2^53] in [0, 1). *)
Definition two53 : N := 9007199254740992%N.

Definition Math_random : M World N :=
  fun w => (Normal (entropy w (draws w) mod two53)%N, with_draws (S (draws w)) w).

(** [Math.floor(r * n)] for [r = d / 2^53], computed exactly. (In double
    precision the product is rounded, which can move the result by one at
    an integer boundary; for [n = 66] the rounded product of the largest
    [r] is still below 66, so the index stays in range there too.) *)
Definition floor_scaled (d : N) (n : nat) : nat :=
  N.to_nat ((d * N.of_nat n) / two53)%N.

Definition elapsed_of (o : FetchOutcome) : N :=
  match o with NetworkFailure _ e | Answered _ e => e end.

(** [fetch(url, init)] in two halves, so that the popup flow can let other
    events run between them: the call is recorded when it is made; when it
    completes the clock has moved on and the outcome is a response or a
    [TypeError]. Run back to back, the outcome is the next scripted one; with
    none scripted the network is down. *)
Definition send_request (req : Request) : M World unit :=
  modify (fun w => with_network (clock w) (network w) (requests w ++ [req]) w).

Definition deliver (o : FetchOutcome) : M World Response :=
  fun w =>
    let w' := with_network (clock w + Z.of_N (elapsed_of o)) (network w)
                (requests w) w in
    match o with
    | NetworkFailure m _ => (Throw (TypeError m), w')
    | Answered r _ => (Normal r, w')
    end.

Definition next_outcome : M World FetchOutcome :=
  fun w =>
    match network w with
    | [] => (Normal (NetworkFailure "Failed to fetch" 0), w)
    | o :: rest => (Normal o, with_network (clock w) rest (requests w) w)
    end.

Definition fetch (req : Request) : M World Response :=
  send_request req ;;
  let* o := next_outcome in
  deliver o.

(** [localStorage.getItem], [setItem], [removeItem] *)
Definition getItem (key : string) : M World (option string) :=
  gets (fun w => localStorage w !! key).

Definition setItem (key value : string) : M World unit :=
  modify (with_localStorage (fun m => <[key := value]> m)).

Definition removeItem (key : string) : M World unit :=
  modify (with_localStorage (fun m => delete key m)).

(** ** Built-ins of the platform *)

Class Builtins : Type := {
  (** [JSON.stringify] and [JSON.parse] at the types the module stores;
      [None] is a thrown [SyntaxError], [Some None] is the JSON [null]. *)
  JSON_stringify_tokens : AuthTokens -> string;
  JSON_parse_tokens : string -> option (option AuthTokens);
  JSON_stringify_userinfo : UserInfo -> string;
  JSON_parse_userinfo : string -> option (option UserInfo);
  (** [response.json()] at the two endpoints; [None] is a rejection. *)
  JSON_parse_token_response : string -> option TokenResponse;
  JSON_parse_profile : string -> option Profile;
  (** [crypto.subtle.digest('SHA-256', bytes)] *)
  sha256 : string -> string;
  (** [new URLSearchParams(params).toString()] *)
  URLSearchParams_toString : list (string * string) -> string;
  (** Printing of an integer in a template literal. *)
  Number_toString : Z -> string;
  (** [r.toString(36)] for a value [r] of [Math.random()]. *)
  random_toString36 : N -> string
}.

Section OAuth.
Context `{Builtins}.

(** [JSON.parse(stored)] inside [try { } catch { return null }]. *)
Definition JSON_parse_tokens_M {S} (s : string) : M S (option AuthTokens) :=
  match JSON_parse_tokens s with
  | Some v => ret v
  | None => throw (SyntaxError "Unexpected token")
  end.

Definition JSON_parse_userinfo_M {S} (s : string) : M S (option UserInfo) :=
  match JSON_parse_userinfo s with
  | Some v => ret v
  | None => throw (SyntaxError "Unexpected token")
  end.

(** ** Provider registry *)

Definition getRedirectUri (env : Env) : string :=
  origin env +:+ "/auth/callback".

(** [process.env.X || ''] *)
Definition env_or_empty (v : option string) : string :=
  match v with Some s => s | None => "" end.

Definition OAUTH_PROVIDERS (env : Env) (p : Provider) : OAuthProvider :=
  match p with
  | google =>
      {| name := "Google";
         authUrl := "https://accounts.google.com/o/oauth2/v2/auth";
         tokenUrl := "https://oauth2.googleapis.com/token";
         userInfoUrl := "https://www.googleapis.com/oauth2/v2/userinfo";
         config :=
           {| clientId := env_or_empty (REACT_APP_GOOGLE_CLIENT_ID env);
              scopes := [ "https://www.googleapis.com/auth/gmail.send";
                          "https://www.googleapis.com/auth/userinfo.email";
                          "https://www.googleapis.com/auth/userinfo.profile" ];
              redirectUri := getRedirectUri env |} |}
  | microsoft =>
      {| name := "Microsoft";
         authUrl := "https://login.microsoftonline.com/common/oauth2/v2.0/authorize";
         tokenUrl := "https://login.microsoftonline.com/common/oauth2/v2.0/token";
         userInfoUrl := "https://graph.microsoft.com/v1.0/me";
         config :=
           {| clientId := env_or_empty (REACT_APP_MICROSOFT_CLIENT_ID env);
              scopes := [ "https://graph.microsoft.com/Mail.Send";
                          "https://graph.microsoft.com/User.Read";
                          "offline_access" ];
              redirectUri := getRedirectUri env |} |}
  end.

(** ** PKCE utilities *)

Definition charset : string :=
  "ABCDEFGHIJKLMNOPQRSTUVWXYZabcdefghijklmnopqrstuvwxyz0123456789-._~".

(** The loop of [generateRandomString], with [n] iterations left. *)
Fixpoint generateRandomString_loop (n : nat) (result : string)
    : M World string :=
  match n with
  | O => ret result
  | S n' =>
      let* r := Math_random in
      generateRandomString_loop n'
        (result +:+ charAt charset (floor_scaled r (String.length charset)))
  end.

Definition generateRandomString (length : nat) : M World string :=
  generateRandomString_loop length "".

Definition generatePKCEChallenge : M World PKCEChallenge :=
  let* codeVerifier := generateRandomString 128 in
  let digest := sha256 codeVerifier in
  let binaryString := digest in
  let base64String := btoa binaryString in
  let codeChallenge := base64url_strip_all base64String in
  ret {| codeVerifier := codeVerifier; codeChallenge := codeChallenge |}.

(** ** SimplifiedOAuthManager *)

Record Manager : Type := {
  provider : Provider;
  mconfig : OAuthProvider;
  pkceChallenge : option PKCEChallenge
}.

Definition constructor (env : Env) (p : Provider) : Manager :=
  {| provider := p; mconfig := OAUTH_PROVIDERS env p; pkceChallenge := None |}.

Definition createOAuthManager (env : Env) (p : Provider) : Manager :=
  constructor env p.

Definition this_ {A} (f : Manager -> A) : M (Manager * World) A :=
  gets (fun s => f (fst s)).

(** [this.pkceChallenge = ch] *)
Definition holding (this : Manager) (ch : PKCEChallenge) : Manager :=
  {| provider := provider this; mconfig := mconfig this;
     pkceChallenge := Some ch |}.

Definition set_pkceChallenge (ch : PKCEChallenge) : M (Manager * World) unit :=
  modify (fun s => (holding (fst s) ch, snd s)).

Definition getAuthUrl (state : option string) : M (Manager * World) string :=
  let* cfg := this_ mconfig in
  let* prov := this_ provider in
  let cid := clientId (config cfg) in
  if negb (truthy cid) || includes cid "your-" || String.eqb cid ""
  then
    throw (Error (provider_key prov +:+
      " OAuth client ID is not properly configured. Please check your environment variables."))
  else
    let* state_param :=
      if truthy_opt state then ret (default "" state)
      else
        let* now := in_world Date_now in
        ret (provider_key prov +:+ "_" +:+ Number_toString now) in
    let params :=
      [ ("client_id", cid);
        ("response_type", "code");
        ("scope", join " " (scopes (config cfg)));
        ("redirect_uri", redirectUri (config cfg));
        ("state", state_param) ] in
    let* params :=
      if bool_decide (prov = microsoft) || bool_decide (prov = google)
      then
        let* ch := in_world generatePKCEChallenge in
        set_pkceChallenge ch ;;
        ret (params ++ [ ("code_challenge", codeChallenge ch);
                         ("code_challenge_method", "S256") ])
      else ret params in
    let params :=
      if bool_decide (prov = google)
      then params ++ [ ("access_type", "offline"); ("prompt", "consent") ]
      else params in
    ret (authUrl cfg +:+ "?" +:+ URLSearchParams_toString params).

(** The token request of [exchangeCodeForTokens]. *)
Definition exchange_request (this : Manager) (ch : PKCEChallenge)
    (code : string) : Request :=
  {| url := tokenUrl (mconfig this);
     method := "POST";
     headers := [ ("Content-Type", "application/x-www-form-urlencoded");
                  ("Accept", "application/json") ];
     body := URLSearchParams_toString
       [ ("client_id", clientId (config (mconfig this)));
         ("code", code);
         ("grant_type", "authorization_code");
         ("redirect_uri", redirectUri (config (mconfig this)));
         ("code_verifier", codeVerifier ch) ] |}.

(** What [exchangeCodeForTokens] does with the response, inside [try]. *)
Definition exchange_continue (response : Response) : M World AuthTokens :=
  if negb (ok response) then
    let errorText := text response in
    if status response =? 400 then
      if includes errorText "invalid_grant" then
        throw (Error "Invalid authorization code or code expired. Please try authenticating again.")
      else if includes errorText "redirect_uri_mismatch" then
        throw (Error "Redirect URI mismatch. Please check your OAuth application configuration.")
      else
        throw (Error ("Token exchange failed: " +:+ Number_toString (status response)
                      +:+ " " +:+ statusText response +:+ " - " +:+ errorText))
    else if status response =? 401 then
      throw (Error "Authentication failed. Please check your OAuth client configuration.")
    else
      throw (Error ("Token exchange failed: " +:+ Number_toString (status response)
                    +:+ " " +:+ statusText response +:+ " - " +:+ errorText))
  else
    match JSON_parse_token_response (text response) with
    | None => throw (SyntaxError "Unexpected token")
    | Some data =>
        let* now := Date_now in
        let expiresAt := now + (expires_in data * 1000) in
        ret {| accessToken := access_token data;
               refreshToken := refresh_token data;
               expiresIn := expires_in data;
               expiresAt := expiresAt |}
    end.

(** The [catch] clause of [exchangeCodeForTokens]. *)
Definition exchange_catch (error : JsError) : M World AuthTokens :=
  match error with
  | TypeError m =>
      if includes m "Failed to fetch" then
        throw (Error "Network error during authentication. Please check your internet connection and try again.")
      else throw error
  | _ => throw error
  end.

Definition missing_challenge : JsError :=
  Error "PKCE challenge not found. Make sure to call getAuthUrl first.".

Definition exchangeCodeForTokens (code : string)
    : M (Manager * World) AuthTokens :=
  let* ch := this_ pkceChallenge in
  match ch with
  | None => throw missing_challenge
  | Some ch =>
      let* this := gets fst in
      in_world
        (try_catch
           (let* response := fetch (exchange_request this ch code) in
            exchange_continue response)
           exchange_catch)
  end.

(** The profile request of [getUserInfo] and the treatment of its response. *)
Definition userinfo_request (this : Manager) (accessToken : string) : Request :=
  {| url := userInfoUrl (mconfig this);
     method := "GET";
     headers := [ ("Authorization", "Bearer " +:+ accessToken) ];
     body := "" |}.

Definition userinfo_continue (prov : Provider) (response : Response)
    : M World UserInfo :=
  if negb (ok response) then
    throw (Error ("Failed to get user info: " +:+ Number_toString (status response)
                  +:+ " " +:+ statusText response +:+ " - " +:+ text response))
  else
    match JSON_parse_profile (text response) with
    | None => throw (SyntaxError "Unexpected token")
    | Some data =>
        if bool_decide (prov = google) then
          ret {| id := p_id data; email := p_email data;
                 uname := p_name data; picture := p_picture data |}
        else
          ret {| id := p_id data;
                 email := or_else (p_mail data) (p_userPrincipalName data);
                 uname := p_displayName data;
                 picture := p_photo_value data |}
    end.

Definition getUserInfo (accessToken : string) : M (Manager * World) UserInfo :=
  let* this := gets fst in
  in_world
    (let* response := fetch (userinfo_request this accessToken) in
     userinfo_continue (provider this) response).

(** ** Token storage utilities *)

Definition auth_key (country provider : string) : string :=
  "email_auth_" +:+ country +:+ "_" +:+ provider.

Definition userinfo_key (country provider : string) : string :=
  "email_userinfo_" +:+ country +:+ "_" +:+ provider.

Definition storeAuthTokens (country provider : string) (tokens : AuthTokens)
    : M World unit :=
  let key := auth_key country provider in
  setItem key (JSON_stringify_tokens tokens).

Definition storeUserInfo (country provider : string) (userInfo : UserInfo)
    : M World unit :=
  let key := userinfo_key country provider in
  setItem key (JSON_stringify_userinfo userInfo).

Definition getStoredUserInfo (country provider : string)
    : M World (option UserInfo) :=
  let key := userinfo_key country provider in
  let* stored := getItem key in
  match stored with
  | None => ret None
  | Some s =>
      if negb (truthy s) then ret None
      else try_catch (JSON_parse_userinfo_M s) (fun _ => ret None)
  end.

Definition clearUserInfo (country provider : string) : M World unit :=
  let key := userinfo_key country provider in
  removeItem key.

Definition getStoredAuthTokens (country provider : string)
    : M World (option AuthTokens) :=
  let key := auth_key country provider in
  let* stored := getItem key in
  match stored with
  | None => ret None
  | Some s =>
      if negb (truthy s) then ret None
      else try_catch (JSON_parse_tokens_M s) (fun _ => ret None)
  end.

Definition clearAuthTokens (country provider : string) : M World unit :=
  let key := auth_key country provider in
  removeItem key ;;
  clearUserInfo country provider.

(** [isTokenExpired] and [isTokenExpiringSoon] at the instant [now]. *)
Definition isTokenExpired_at (now : Z) (tokens : AuthTokens) : bool :=
  now >=? expiresAt tokens.

Definition isTokenExpiringSoon_at (now : Z) (tokens : AuthTokens) : bool :=
  let fiveMinutesFromNow := now + (5 * 60 * 1000) in
  fiveMinutesFromNow >=? expiresAt tokens.

Definition isTokenExpired (tokens : AuthTokens) : M World bool :=
  let* now := Date_now in ret (isTokenExpired_at now tokens).

Definition isTokenExpiringSoon (tokens : AuthTokens) : M World bool :=
  let* now := Date_now in ret (isTokenExpiringSoon_at now tokens).

(** ** Token lifecycle *)

Definition refreshMicrosoftToken (env : Env) (country refreshToken : string)
    : M World (option AuthTokens) :=
  try_catch
    (let clientId := REACT_APP_MICROSOFT_CLIENT_ID env in
     if negb (truthy_opt clientId) then
       throw (Error "Microsoft client ID not configured")
     else
       let* response := fetch
         {| url := tokenUrl (OAUTH_PROVIDERS env microsoft);
            method := "POST";
            headers := [ ("Content-Type", "application/x-www-form-urlencoded") ];
            body := URLSearchParams_toString
              [ ("client_id", default "" clientId);
                ("grant_type", "refresh_token");
                ("refresh_token", refreshToken);
                ("scope", join " " (scopes (config (OAUTH_PROVIDERS env microsoft)))) ] |} in
       if negb (ok response) then ret None
       else
         match JSON_parse_token_response (text response) with
         | None => throw (SyntaxError "Unexpected token")
         | Some data =>
             let* now := Date_now in
             let expiresAt := now + (expires_in data * 1000) in
             let newTokens :=
               {| accessToken := access_token data;
                  refreshToken := or_else (refresh_token data) (Some refreshToken);
                  expiresIn := expires_in data;
                  expiresAt := expiresAt |} in
             storeAuthTokens country "microsoft" newTokens ;;
             ret (Some newTokens)
         end)
    (fun _ => ret None).

Definition getValidAccessToken (env : Env) (country : string) (provider : Provider)
    : M World (option string) :=
  let* tokens := getStoredAuthTokens country (provider_key provider) in
  match tokens with
  | None => ret None
  | Some tokens =>
      let* expired := isTokenExpired tokens in
      if negb expired then ret (Some (accessToken tokens))
      else if bool_decide (provider = microsoft) && truthy_opt (refreshToken tokens)
      then
        let* newTokens :=
          refreshMicrosoftToken env country (default "" (refreshToken tokens)) in
        match newTokens with
        | Some newTokens => ret (Some (accessToken newTokens))
        | None =>
            clearAuthTokens country (provider_key provider) ;;
            ret None
        end
      else
        clearAuthTokens country (provider_key provider) ;;
        ret None
  end.

(** The request that [refreshMicrosoftToken] posts. *)
Definition refresh_request (env : Env) (refreshToken : string) : Request :=
  {| url := tokenUrl (OAUTH_PROVIDERS env microsoft);
     method := "POST";
     headers := [ ("Content-Type", "application/x-www-form-urlencoded") ];
     body := URLSearchParams_toString
       [ ("client_id", default "" (REACT_APP_MICROSOFT_CLIENT_ID env));
         ("grant_type", "refresh_token");
         ("refresh_token", refreshToken);
         ("scope", join " " (scopes (config (OAUTH_PROVIDERS env microsoft)))) ] |}.

(** When a refresh attempted in world [w] succeeds: the client id is
    configured and the token endpoint answers with a success status and a
    body that parses. The result is the parsed body and the time taken. *)
Definition refresh_reply (env : Env) (w : World) : option (TokenResponse * N) :=
  if truthy_opt (REACT_APP_MICROSOFT_CLIENT_ID env) then
    match network w with
    | Answered r e :: _ =>
        if ok r then
          match JSON_parse_token_response (text r) with
          | Some data => Some (data, e)
          | None => None
          end
        else None
    | _ => None
    end
  else None.

(** ** Gmail dispatch *)

Record Attachment : Type := {
  filename : string;
  content : string;
  contentType : string
}.

Record EmailData : Type := {
  to : list string;
  subject : string;
  ebody : string;
  from : option string;
  attachments : option (list Attachment)
}.

(** The text appended for one attachment by the [forEach] of
    [sendGmailEmail]. *)
Definition attachment_part (boundary : string) (attachment : Attachment) : string :=
  join LF
    [ "--" +:+ boundary;
      "Content-Type: " +:+ contentType attachment;
      "Content-Disposition: attachment; filename=" +:+ dquote +:+
        filename attachment +:+ dquote;
      "Content-Transfer-Encoding: base64";
      "";
      content attachment;
      "" ].

Definition multipart_head (boundary : string) (emailData : EmailData) : string :=
  join LF
    [ "To: " +:+ join ", " (to emailData);
      "Subject: " +:+ subject emailData;
      "MIME-Version: 1.0";
      "Content-Type: multipart/mixed; boundary=" +:+ dquote +:+ boundary +:+ dquote;
      "";
      "--" +:+ boundary;
      "Content-Type: text/html; charset=utf-8";
      "";
      ebody emailData;
      "" ].

Definition multipart_message (boundary : string) (emailData : EmailData)
    (atts : list Attachment) : string :=
  let message := multipart_head boundary emailData in
  let message :=
    fold_left (fun message attachment =>
                 message +:+ attachment_part boundary attachment)
              atts message in
  message +:+ "--" +:+ boundary +:+ "--".

Definition simple_message (emailData : EmailData) : string :=
  join LF
    [ "To: " +:+ join ", " (to emailData);
      "Subject: " +:+ subject emailData;
      "Content-Type: text/html; charset=utf-8";
      "";
      ebody emailData ].

(** ['boundary_' + Math.random().toString(36).substr(2, 9)] *)
Definition boundary_of (r : N) : string :=
  "boundary_" +:+ substr (random_toString36 r) 2 9.

(** The message text of [sendGmailEmail]; a random number is drawn only
    when there are attachments. *)
Definition gmail_message (emailData : EmailData) : M World string :=
  match attachments emailData with
  | Some (a :: rest) =>
      let* r := Math_random in
      ret (multipart_message (boundary_of r) emailData (a :: rest))
  | _ => ret (simple_message emailData)
  end.

(** [btoa(unescape(encodeURIComponent(message)))] followed by the three
    replacements; [message] is already the sequence of its UTF-8 bytes. *)
Definition gmail_encode (message : string) : string :=
  base64url_strip_trailing (btoa message).

Definition gmail_request (accessToken encodedMessage : string) : Request :=
  {| url := "https://gmail.googleapis.com/gmail/v1/users/me/messages/send";
     method := "POST";
     headers := [ ("Authorization", "Bearer " +:+ accessToken);
                  ("Content-Type", "application/json") ];
     body := "{" +:+ dquote +:+ "raw" +:+ dquote +:+ ":" +:+ dquote +:+
             encodedMessage +:+ dquote +:+ "}" |}.

Definition sendGmailEmail (accessToken : string) (emailData : EmailData)
    : M World bool :=
  let* message := gmail_message emailData in
  let encodedMessage := gmail_encode message in
  let* response := fetch (gmail_request accessToken encodedMessage) in
  ret (ok response).

(** ** Popup flow

    [authenticateWithPopup] registers three callbacks that the event loop
    runs one at a time: the message handler, the [checkClosed] interval and
    the two minute timeout. The message handler is asynchronous: it stops at
    each [await] of a [fetch] and is resumed by a later turn of the loop, so
    several invocations can be under way at once. *)

Record MessageData : Type := {
  mtype : option string;
  code : option string;
  merror : option string
}.

Record MessageEvent : Type := {
  ev_origin : string;
  data : option MessageData     (* [None]: the payload is null or undefined *)
}.

Inductive Settled : Type :=
| Pending
| Resolved (tokens : AuthTokens) (userInfo : UserInfo)
| Rejected (reason : JsError).

(** Where one invocation of the message handler stands. *)
Inductive Handler : Type :=
| AwaitExchange
| AwaitUserInfo (tokens : AuthTokens)
| Finished.

Record Flow : Type := {
  world : World;
  oauth : Manager;
  listening : bool;          (* the message listener is registered *)
  polling : bool;            (* the [checkClosed] interval is active *)
  timer : bool;              (* the timeout has not fired yet *)
  popup_closed : bool;       (* [popup.closed] *)
  promise : Settled;
  handlers : list Handler    (* invocations of the handler, oldest first *)
}.

Inductive Event : Type :=
| Message (event : MessageEvent)
| FetchDone (h : nat) (o : FetchOutcome)   (* the fetch awaited by handler [h] completes *)
| Tick                                     (* the interval fires *)
| Timeout                                  (* the timeout fires *)
| PopupClosedByUser.

(** [resolve] and [reject] act on a pending promise only. *)
Definition settle (outcome : Settled) (current : Settled) : Settled :=
  match current with Pending => outcome | _ => current end.

Definition with_world (w : World) (st : Flow) : Flow :=
  {| world := w; oauth := oauth st; listening := listening st;
     polling := polling st; timer := timer st;
     popup_closed := popup_closed st; promise := promise st;
     handlers := handlers st |}.

Definition with_handlers (hs : list Handler) (st : Flow) : Flow :=
  {| world := world st; oauth := oauth st; listening := listening st;
     polling := polling st; timer := timer st;
     popup_closed := popup_closed st; promise := promise st;
     handlers := hs |}.

(** [window.removeEventListener('message', messageHandler); popup.close();]
    followed by [resolve] or [reject]. *)
Definition finish_handler (outcome : Settled) (st : Flow) : Flow :=
  {| world := world st; oauth := oauth st; listening := false;
     polling := polling st; timer := timer st;
     popup_closed := true; promise := settle outcome (promise st);
     handlers := handlers st |}.

Definition is_success_type (t : option string) : bool :=
  match t with
  | Some t => String.eqb t "oauth_success" || String.eqb t "sso_auth_success"
  | None => false
  end.

Definition is_error_type (t : option string) : bool :=
  match t with
  | Some t => String.eqb t "oauth_error" || String.eqb t "sso_auth_error"
  | None => false
  end.

(** The message handler up to its first [await]. *)
Definition messageHandler (env : Env) (event : MessageEvent) (st : Flow) : Flow :=
  if negb (String.eqb (ev_origin event) (origin env)) then st
  else
    match data event with
    | None => st      (* reading [event.data.type] throws; the flow is untouched *)
    | Some d =>
        if is_success_type (mtype d) && truthy_opt (code d) then
          match pkceChallenge (oauth st) with
          | None => finish_handler (Rejected missing_challenge) st
          | Some ch =>
              let req := exchange_request (oauth st) ch (default "" (code d)) in
              match send_request req (world st) with
              | (_, w') =>
                  with_handlers (handlers st ++ [AwaitExchange]) (with_world w' st)
              end
          end
        else if is_error_type (mtype d) then
          finish_handler (Rejected (Error (default "" (merror d)))) st
        else st
    end.

(** The message handler from the completion of an awaited [fetch]. *)
Definition resume (country : string) (h : nat) (o : FetchOutcome) (st : Flow) : Flow :=
  match handlers st !! h with
  | Some AwaitExchange =>
      match try_catch (let* response := deliver o in exchange_continue response)
                      exchange_catch (world st) with
      | (Normal tokens, w') =>
          match send_request (userinfo_request (oauth st) (accessToken tokens)) w' with
          | (_, w'') =>
              with_handlers (<[h := AwaitUserInfo tokens]> (handlers st))
                (with_world w'' st)
          end
      | (Throw error, w') =>
          finish_handler (Rejected error)
            (with_handlers (<[h := Finished]> (handlers st)) (with_world w' st))
      end
  | Some (AwaitUserInfo tokens) =>
      match (let* response := deliver o in
             userinfo_continue (provider (oauth st)) response) (world st) with
      | (Normal userInfo, w') =>
          match (storeAuthTokens country (provider_key (provider (oauth st))) tokens ;;
                 storeUserInfo country (provider_key (provider (oauth st))) userInfo) w' with
          | (_, w'') =>
              finish_handler (Resolved tokens userInfo)
                (with_handlers (<[h := Finished]> (handlers st)) (with_world w'' st))
          end
      | (Throw error, w') =>
          finish_handler (Rejected error)
            (with_handlers (<[h := Finished]> (handlers st)) (with_world w' st))
      end
  | _ => st
  end.

(** The messages on which the handler acts: they come from the opener's
    own origin and either announce success with a code or announce an
    error. Every other message is passed over. *)
Definition terminal_message (env : Env) (event : MessageEvent) : bool :=
  String.eqb (ev_origin event) (origin env) &&
  match data event with
  | Some d =>
      is_success_type (mtype d) && truthy_opt (code d) || is_error_type (mtype d)
  | None => false
  end.

(** Events that are not the arrival of a terminal message. *)
Definition quiet (env : Env) (ev : Event) : bool :=
  match ev with
  | Message event => negb (terminal_message env event)
  | _ => true
  end.

Definition is_timeout (ev : Event) : bool :=
  match ev with Timeout => true | _ => false end.

Definition cancelled : JsError := Error "Authentication cancelled".
Definition timed_out : JsError := Error "Authentication timeout - please try again".

Definition checkClosed (st : Flow) : Flow :=
  if popup_closed st then
    {| world := world st; oauth := oauth st; listening := false;
       polling := false; timer := timer st;
       popup_closed := popup_closed st;
       promise := settle (Rejected cancelled) (promise st);
       handlers := handlers st |}
  else st.

Definition on_timeout (st : Flow) : Flow :=
  if negb (popup_closed st) then
    {| world := world st; oauth := oauth st; listening := false;
       polling := false; timer := false;
       popup_closed := true;
       promise := settle (Rejected timed_out) (promise st);
       handlers := handlers st |}
  else
    {| world := world st; oauth := oauth st; listening := listening st;
       polling := polling st; timer := false;
       popup_closed := popup_closed st; promise := promise st;
       handlers := handlers st |}.

(** Two situations of the flow in which no handler has ever started and
    the store still has the content [L]: the flow is waiting for a message,
    or it has been cancelled. *)
Definition waiting (L : gmap string string) (st : Flow) : Prop :=
  handlers st = [] /\ localStorage (world st) = L /\
  ((promise st = Pending /\ listening st = true /\ polling st = true) \/
   (promise st = Rejected cancelled /\ listening st = false)).

Definition was_cancelled (L : gmap string string) (st : Flow) : Prop :=
  handlers st = [] /\ localStorage (world st) = L /\
  promise st = Rejected cancelled /\ listening st = false.

(** One turn of the event loop. *)
Definition step (env : Env) (country : string) (ev : Event) (st : Flow) : Flow :=
  match ev with
  | Message event => if listening st then messageHandler env event st else st
  | FetchDone h o => resume country h o st
  | Tick => if polling st then checkClosed st else st
  | Timeout => if timer st then on_timeout st else st
  | PopupClosedByUser =>
      {| world := world st; oauth := oauth st; listening := listening st;
         polling := polling st; timer := timer st;
         popup_closed := true; promise := promise st;
         handlers := handlers st |}
  end.

Definition run (env : Env) (country : string) (evs : list Event) (st : Flow) : Flow :=
  fold_left (fun st ev => step env country ev st) evs st.

(** [authenticateWithPopup] up to the return of its promise; [popup_opens]
    tells whether [window.open] returns a handle. *)
Definition authenticateWithPopup (env : Env) (provider : Provider)
    (country : string) (popup_opens : bool) (w : World) : Flow :=
  let oauth := createOAuthManager env provider in
  let state := country +:+ "_" +:+ Number_toString (clock w) in
  match getAuthUrl (Some state) (oauth, w) with
  | (Normal authUrl, (oauth', w')) =>
      if popup_opens then
        {| world := w'; oauth := oauth'; listening := true; polling := true;
           timer := true; popup_closed := false; promise := Pending;
           handlers := [] |}
      else
        {| world := w'; oauth := oauth'; listening := false; polling := false;
           timer := false; popup_closed := false;
           promise := Rejected (Error "Popup blocked. Please allow popups for this site.");
           handlers := [] |}
  | (Throw error, (oauth', w')) =>
      {| world := w'; oauth := oauth'; listening := false; polling := false;
         timer := false; popup_closed := false;
         promise := Rejected (Error ("Failed to generate auth URL: " +:+
                                     error_message error));
         handlers := [] |}
  end.

End OAuth.

Global Arguments generateRandomString : simpl never.
Global Arguments generatePKCEChallenge : simpl never.

(** ** Outlook dispatch and the [sendEmail] method *)

(** The JSON envelope of Microsoft Graph's [sendMail], as
    [sendOutlookEmail] builds it. *)
Record EmailAddress : Type := { address : string }.

Record Recipient : Type := { emailAddress : EmailAddress }.

Record ItemBody : Type := {
  ib_contentType : string;
  ib_content : string
}.

Record FileAttachment : Type := {
  odata_type : string;          (* the property '@odata.type' *)
  fa_name : string;
  fa_contentType : string;
  contentBytes : string
}.

Record GraphMessage : Type := {
  gm_subject : string;
  gm_body : ItemBody;
  toRecipients : list Recipient;
  gm_attachments : option (list FileAttachment)   (* [None]: no such property *)
}.

Record SendMailBody : Type := { sm_message : GraphMessage }.

(** [JSON.stringify] at the type of the Graph envelope. *)
Class GraphBuiltins : Type := {
  JSON_stringify_sendMail : SendMailBody -> string
}.

Section Dispatch.
Context `{Builtins} `{GraphBuiltins}.

Definition outlook_envelope (emailData : EmailData) : SendMailBody :=
  let message :=
    {| gm_subject := subject emailData;
       gm_body := {| ib_contentType := "HTML"; ib_content := ebody emailData |};
       toRecipients :=
         map (fun email => {| emailAddress := {| address := email |} |})
             (to emailData);
       gm_attachments := None |} in
  match attachments emailData with
  | Some (a :: rest) =>
      {| sm_message :=
           {| gm_subject := gm_subject message;
              gm_body := gm_body message;
              toRecipients := toRecipients message;
              gm_attachments :=
                Some (map (fun attachment =>
                             {| odata_type := "#microsoft.graph.fileAttachment";
                                fa_name := filename attachment;
                                fa_contentType := contentType attachment;
                                contentBytes := content attachment |})
                          (a :: rest)) |} |}
  | _ => {| sm_message := message |}
  end.

Definition outlook_request (accessToken : string) (emailData : EmailData) : Request :=
  {| url := "https://graph.microsoft.com/v1.0/me/sendMail";
     method := "POST";
     headers := [ ("Authorization", "Bearer " +:+ accessToken);
                  ("Content-Type", "application/json") ];
     body := JSON_stringify_sendMail (outlook_envelope emailData) |}.

Definition sendOutlookEmail (accessToken : string) (emailData : EmailData)
    : M World bool :=
  let* response := fetch (outlook_request accessToken emailData) in
  ret (ok response).

Definition sendEmail (accessToken : string) (emailData : EmailData)
    : M (Manager * World) bool :=
  let* prov := this_ provider in
  if bool_decide (prov = google)
  then in_world (sendGmailEmail accessToken emailData)
  else in_world (sendOutlookEmail accessToken emailData).

End Dispatch.

(** ** A stand-in platform for running the module on examples

    The examples below only need some platform to run on. This one
    computes SHA-256 and prints integers in decimal; it prints and reads
    records in a fixed, simplified notation in place of JSON, and joins
    URL parameters without escaping. *)

(** SHA-256 (FIPS 180-4) on byte strings, for the stand-in platform. *)
Module SHA256.
Local Open Scope N_scope.

Definition mask : N := 4294967295.
Definition add32 (x y : N) : N := (x + y) mod 4294967296.
Definition rotr (n x : N) : N :=
  N.lor (N.shiftr x n) (N.land (N.shiftl x (32 - n)) mask).
Definition Ch (x y z : N) : N :=
  N.lxor (N.land x y) (N.land (N.lxor x mask) z).
Definition Maj (x y z : N) : N :=
  N.lxor (N.lxor (N.land x y) (N.land x z)) (N.land y z).
Definition Sigma0 (x : N) : N := N.lxor (N.lxor (rotr 2 x) (rotr 13 x)) (rotr 22 x).
Definition Sigma1 (x : N) : N := N.lxor (N.lxor (rotr 6 x) (rotr 11 x)) (rotr 25 x).
Definition sigma0 (x : N) : N := N.lxor (N.lxor (rotr 7 x) (rotr 18 x)) (N.shiftr x 3).
Definition sigma1 (x : N) : N := N.lxor (N.lxor (rotr 17 x) (rotr 19 x)) (N.shiftr x 10).

(** The round constants and the initial hash value are the first 32 bits of
    the fractional parts of the cube roots, respectively square roots, of
    the first primes; they are computed here rather than tabulated. *)
Definition primes : list N :=
  [ 2; 3; 5; 7; 11; 13; 17; 19; 23; 29; 31; 37; 41; 43; 47; 53; 59; 61; 67;
    71; 73; 79; 83; 89; 97; 101; 103; 107; 109; 113; 127; 131; 137; 139; 149;
    151; 157; 163; 167; 173; 179; 181; 191; 193; 197; 199; 211; 223; 227; 229;
    233; 239; 241; 251; 257; 263; 269; 271; 277; 281; 283; 293; 307; 311 ].

(** The largest [r] below [2^bits] above [acc] with [r^3 <= n]. *)
Fixpoint cube_root (bits : nat) (n acc : N) : N :=
  match bits with
  | O => acc
  | S b =>
      let candidate := acc + 2 ^ N.of_nat b in
      if candidate * candidate * candidate <=? n
      then cube_root b n candidate
      else cube_root b n acc
  end.

Definition K : list N :=
  Eval vm_compute in
    map (fun p => cube_root 36 (p * 2 ^ 96) 0 mod 4294967296) primes.

Definition H0 : list N :=
  Eval vm_compute in
    map (fun p => N.sqrt (p * 2 ^ 64) mod 4294967296) (firstn 8 primes).

(** The message schedule, newest word first. *)
Fixpoint schedule (n : nat) (w : list N) : list N :=
  match n with
  | O => w
  | S n' =>
      let new := add32 (add32 (sigma1 (nth 1 w 0)) (nth 6 w 0))
                       (add32 (sigma0 (nth 14 w 0)) (nth 15 w 0)) in
      schedule n' (new :: w)
  end.

Definition round (s : list N) (kw : N * N) : list N :=
  match s with
  | [a; b; c; d; e; f; g; h] =>
      let T1 := add32 (add32 (add32 h (Sigma1 e)) (add32 (Ch e f g) (fst kw)))
                      (snd kw) in
      let T2 := add32 (Sigma0 a) (Maj a b c) in
      [add32 T1 T2; a; b; c; add32 d T1; e; f; g]
  | _ => s
  end.

Definition compress (h : list N) (block : list N) : list N :=
  let w := rev (schedule 48 (rev block)) in
  map (fun p => add32 (fst p) (snd p))
      (combine h (fold_left round (combine K w) h)).

Fixpoint words (fuel : nat) (bytes : list N) : list N :=
  match fuel, bytes with
  | S fuel', b0 :: b1 :: b2 :: b3 :: rest =>
      (((b0 * 256 + b1) * 256 + b2) * 256 + b3) :: words fuel' rest
  | _, _ => []
  end.

Fixpoint blocks (fuel : nat) (ws : list N) : list (list N) :=
  match fuel, ws with
  | S fuel', _ :: _ => firstn 16 ws :: blocks fuel' (skipn 16 ws)
  | _, _ => []
  end.

Definition pad (bytes : list N) : list N :=
  let len := N.of_nat (length bytes) in
  let zeros := N.to_nat ((119 - len mod 64) mod 64) in
  let bits := len * 8 in
  bytes ++ [128] ++ repeat 0 zeros ++
  map (fun i => (bits / 2 ^ (8 * (7 - N.of_nat i))) mod 256) (seq 0 8).

Definition word_bytes (w : N) : list N :=
  [w / 16777216; (w / 65536) mod 256; (w / 256) mod 256; w mod 256].

Definition digest (s : string) : string :=
  let bytes := pad (map N_of_ascii (list_ascii_of_string s)) in
  let ws := words (length bytes) bytes in
  let h := fold_left compress (blocks (length ws) ws) H0 in
  string_of_list_ascii (map ascii_of_N (flat_map word_bytes h)).

Definition hex_digit (n : N) : ascii :=
  match String.get (N.to_nat n) "0123456789abcdef" with
  | Some c => c
  | None => "?"%char
  end.

Fixpoint hex (s : string) : string :=
  match s with
  | EmptyString => EmptyString
  | String c s' =>
      String (hex_digit (N_of_ascii c / 16))
        (String (hex_digit (N_of_ascii c mod 16)) (hex s'))
  end.

End SHA256.

Definition example_tokens (access : string) : AuthTokens :=
  {| accessToken := access; refreshToken := Some "R0";
     expiresIn := 3600; expiresAt := 3600000 |}.

(** The first digits of [d / 2^53] in base 36. *)
Definition digit36 (n : N) : ascii :=
  match String.get (N.to_nat n) "0123456789abcdefghijklmnopqrstuvwxyz" with
  | Some c => c
  | None => "?"%char
  end.

Fixpoint base36_digits (fuel : nat) (d : N) : string :=
  match fuel with
  | O => ""
  | S fuel' =>
      if (d =? 0)%N then ""
      else String (digit36 (d * 36 / two53)%N)
                  (base36_digits fuel' ((d * 36) mod two53)%N)
  end.

Definition example_platform : Builtins :=
  {| JSON_stringify_tokens := fun t => "tokens:" +:+ accessToken t;
     JSON_parse_tokens := fun s =>
       if String.eqb s "null" then Some None
       else if String.prefix "tokens:" s
            then Some (Some (example_tokens (drop_chars 7 s)))
            else None;
     JSON_stringify_userinfo := fun u => "user:" +:+ default "" (email u);
     JSON_parse_userinfo := fun s =>
       if String.eqb s "null" then Some None
       else if String.prefix "user:" s
            then Some (Some {| id := None; email := Some (drop_chars 5 s);
                               uname := None; picture := None |})
            else None;
     JSON_parse_token_response := fun s =>
       if String.prefix "access:" s
       then Some {| access_token := drop_chars 7 s; refresh_token := None;
                    expires_in := 3600 |}
       else None;
     JSON_parse_profile := fun s =>
       if String.prefix "mail:" s
       then Some {| p_id := Some "1"; p_email := Some (drop_chars 5 s);
                    p_name := None; p_picture := None;
                    p_mail := Some (drop_chars 5 s);
                    p_userPrincipalName := None; p_displayName := None;
                    p_photo_value := None |}
       else None;
     sha256 := SHA256.digest;
     URLSearchParams_toString := fun ps =>
       join "&" (map (fun kv => fst kv +:+ "=" +:+ snd kv) ps);
     Number_toString := fun z => NilZero.string_of_int (Z.to_int z);
     random_toString36 := fun r =>
       if (r =? 0)%N then "0" else "0." +:+ base36_digits 11 r |}.

Definition example_graph : GraphBuiltins :=
  {| JSON_stringify_sendMail := fun b =>
       "mail to " +:+
       join "," (map (fun r => address (emailAddress r))
                     (toRecipients (sm_message b))) +:+
       ": " +:+ gm_subject (sm_message b) |}.

Definition example_env : Env :=
  {| origin := "https://app.example";
     REACT_APP_GOOGLE_CLIENT_ID := Some "g-client";
     REACT_APP_MICROSOFT_CLIENT_ID := Some "ms-client" |}.

(** A world with the given store, clock and scripted network; its random
    source is a fixed linear congruence. *)
Definition example_world (store : gmap string string) (now : Z)
    (net : list FetchOutcome) : World :=
  {| localStorage := store; clock := now;
     entropy := fun n => (N.of_nat n * 6364136223846793005 + 1442695040888963407)%N;
     draws := 0; network := net; requests := [] |}.

Definition answer (success : bool) (code : Z) (payload : string) : FetchOutcome :=
  Answered {| ok := success; status := code; statusText := "";
              text := payload |} 250.

Definition sg_ms_valid : World :=
  example_world {[ auth_key "SG" "microsoft" := "tokens:A" ]} 1000 [].

Definition sg_ms_expired (net : list FetchOutcome) : World :=
  example_world {[ auth_key "SG" "microsoft" := "tokens:A";
                   userinfo_key "SG" "microsoft" := "user:a@example.com" ]}
                4000000 net.

Definition sg_google_expired : World :=
  example_world {[ auth_key "SG" "google" := "tokens:G" ]} 4000000 [].

Definition unconfigured_env : Env :=
  {| origin := "https://app.example";
     REACT_APP_GOOGLE_CLIENT_ID := Some "your-google-client-id";
     REACT_APP_MICROSOFT_CLIENT_ID := None |}.

Definition fresh_world : World := example_world ∅ 0 [].

Definition success_message (c : string) : Event :=
  Message {| ev_origin := "https://app.example";
             data := Some {| mtype := Some "oauth_success"; code := Some c;
                             merror := None |} |}.

Definition foreign_message : Event :=
  Message {| ev_origin := "https://evil.example";
             data := Some {| mtype := Some "oauth_success"; code := Some "x";
                             merror := None |} |}.

Definition two_attachments : list Attachment :=
  [ {| filename := "a.pdf"; content := "JVBERi0x"; contentType := "application/pdf" |};
    {| filename := "b.txt"; content := "aGVsbG8="; contentType := "text/plain" |} ].

Definition example_mail : EmailData :=
  {| to := ["ops@example.com"; "sales@example.com"];
     subject := "Case booked";
     ebody := "<p>Case 42 has been booked.</p>";
     from := None;
     attachments := Some two_attachments |}.

(** A second notation for tokens, which keeps every field: the expiry, the
    lifetime, the refresh token (empty when absent) and the access token,
    separated by ";". The other built-ins are those of [example_platform]. *)
Fixpoint split_on (sep : ascii) (s : string) : string * string :=
  match s with
  | EmptyString => ("", "")
  | String c s' =>
      if Ascii.eqb c sep then ("", s')
      else let (a, b) := split_on sep s' in (String c a, b)
  end.

Definition print_Z (z : Z) : string := NilZero.string_of_int (Z.to_int z).

Definition read_Z (s : string) : option Z :=
  option_map Z.of_int (NilZero.int_of_string s).

Definition print_tokens (t : AuthTokens) : string :=
  print_Z (expiresAt t) +:+ ";" +:+ print_Z (expiresIn t) +:+ ";" +:+
  default "" (refreshToken t) +:+ ";" +:+ accessToken t.

Definition read_tokens (s : string) : option AuthTokens :=
  let (at_, s1) := split_on ";" s in
  let (in_, s2) := split_on ";" s1 in
  let (rt, access) := split_on ";" s2 in
  match read_Z at_, read_Z in_ with
  | Some a, Some i =>
      Some {| accessToken := access;
              refreshToken := if truthy rt then Some rt else None;
              expiresIn := i; expiresAt := a |}
  | _, _ => None
  end.

Definition keeping_platform : Builtins :=
  {| JSON_stringify_tokens := print_tokens;
     JSON_parse_tokens := fun s =>
       if String.eqb s "null" then Some None
       else option_map Some (read_tokens s);
     JSON_stringify_userinfo := @JSON_stringify_userinfo example_platform;
     JSON_parse_userinfo := @JSON_parse_userinfo example_platform;
     JSON_parse_token_response := @JSON_parse_token_response example_platform;
     JSON_parse_profile := @JSON_parse_profile example_platform;
     sha256 := @sha256 example_platform;
     URLSearchParams_toString := @URLSearchParams_toString example_platform;
     Number_toString := @Number_toString example_platform;
     random_toString36 := @random_toString36 example_platform |}.

Definition plain_mail : EmailData :=
  {| to := ["ops@example.com"];
     subject := "Case closed";
     ebody := "<p>Case 42 has been closed.</p>";
     from := None;
     attachments := None |}.

Definition error_message_event (reason : string) : MessageEvent :=
  {| ev_origin := "https://app.example";
     data := Some {| mtype := Some "oauth_error"; code := None;
                     merror := Some reason |} |}.

(** * Properties *)

(** ** Facts about strings *)

Lemma list_ascii_app (a b : string) :
  list_ascii_of_string (a +:+ b) =
  (list_ascii_of_string a ++ list_ascii_of_string b)%list.
Proof. induction a as [|x a IH]; simpl; [done|]. by rewrite <- IH. Qed.

Lemma string_of_list_inj (a b : string) :
  list_ascii_of_string a = list_ascii_of_string b -> a = b.
Proof.
  intros E. rewrite <- (string_of_list_ascii_of_string a),
    <- (string_of_list_ascii_of_string b). by rewrite E.
Qed.

Lemma string_app_inv_tail (a b t : string) : a +:+ t = b +:+ t -> a = b.
Proof.
  intros E. apply string_of_list_inj.
  apply (f_equal list_ascii_of_string) in E.
  rewrite !list_ascii_app in E. by apply app_inv_tail in E.
Qed.

Lemma string_last_differs (a b : string) (x y : ascii) (p q : string) :
  x <> y ->
  a +:+ p +:+ String x "" <> b +:+ q +:+ String y "".
Proof.
  intros Hxy E. apply (f_equal list_ascii_of_string) in E.
  rewrite !list_ascii_app in E. simpl in E.
  rewrite !app_assoc in E.
  apply (f_equal last) in E. rewrite !last_snoc in E. congruence.
Qed.

Lemma string_app_cons (x : ascii) (a b : string) :
  String x a +:+ b = String x (a +:+ b).
Proof. reflexivity. Qed.

Lemma string_app_nil_l (a : string) : "" +:+ a = a.
Proof. reflexivity. Qed.

Lemma string_app_assoc (a b c : string) : (a +:+ b) +:+ c = a +:+ b +:+ c.
Proof.
  induction a as [|x a IH]; [done|].
  rewrite !string_app_cons. by rewrite IH.
Qed.

Lemma string_app_nil_r (a : string) : a +:+ "" = a.
Proof.
  induction a as [|x a IH]; [done|].
  rewrite string_app_cons. by rewrite IH.
Qed.

(** ** Facts about Base64 *)

(** Induction on a string three characters at a time, the way [btoa]
    consumes it. *)
Lemma string_triples_ind (P : string -> Prop) :
  P "" ->
  (forall a, P (String a "")) ->
  (forall a b, P (String a (String b ""))) ->
  (forall a b c rest, P rest -> P (String a (String b (String c rest)))) ->
  forall s, P s.
Proof.
  intros H0 H1 H2 H3 s.
  assert (G : P s /\ (forall a, P (String a s)) /\
              (forall a b, P (String a (String b s)))).
  { induction s as [|x s (IH0 & IH1 & IH2)].
    - auto.
    - repeat split; auto. }
  apply G.
Qed.

Lemma sextets_checked :
  forallb (fun n =>
             match b64url_value (url_char (b64_char n)) with
             | Some m => N.eqb m n
             | None => false
             end
             && negb (Ascii.eqb (b64_char n) "=")
             && in_charset b64url_alphabet (url_char (b64_char n)))
          (map N.of_nat (seq 0 64)) = true.
Proof. vm_compute. reflexivity. Qed.

Lemma sextet_char (n : N) :
  is_sextet n ->
  b64url_value (url_char (b64_char n)) = Some n /\
  Ascii.eqb (b64_char n) "=" = false /\
  in_charset b64url_alphabet (url_char (b64_char n)) = true.
Proof.
  intros Hn. pose proof sextets_checked as Hall.
  rewrite forallb_forall in Hall.
  specialize (Hall n).
  assert (Hin : In n (map N.of_nat (seq 0 64))).
  { apply in_map_iff. exists (N.to_nat n). split; [lia|].
    apply in_seq. unfold is_sextet in Hn. lia. }
  specialize (Hall Hin).
  apply andb_prop in Hall as [Hall Hc]. apply andb_prop in Hall as [Ha Hb].
  destruct (b64url_value (url_char (b64_char n))) as [m|]; [|done].
  apply N.eqb_eq in Ha. subst m.
  apply negb_true_iff in Hb. done.
Qed.

Lemma url_char_not_equals (c : ascii) :
  Ascii.eqb c "=" = false -> Ascii.eqb (url_char c) "=" = false.
Proof.
  intros Hc. unfold url_char.
  destruct (Ascii.eqb c "+"); [done|].
  by destruct (Ascii.eqb c "/").
Qed.

Lemma replace_plus_slash_cons (c : ascii) (r : string) :
  replace_char "/" "_" (replace_char "+" "-" (String c r)) =
  String (url_char c) (replace_char "/" "_" (replace_char "+" "-" r)).
Proof.
  unfold url_char. simpl.
  destruct (Ascii.eqb c "+") eqn:Hplus.
  - reflexivity.
  - simpl. destruct (Ascii.eqb c "/"); reflexivity.
Qed.

Lemma strip_all_cons (c : ascii) (r : string) :
  Ascii.eqb c "=" = false ->
  base64url_strip_all (String c r) =
  String (url_char c) (base64url_strip_all r).
Proof.
  intros Hc. unfold base64url_strip_all.
  rewrite replace_plus_slash_cons. simpl.
  by rewrite (url_char_not_equals c Hc).
Qed.

Lemma strip_trailing_cons (c : ascii) (r : string) :
  Ascii.eqb c "=" = false ->
  base64url_strip_trailing (String c r) =
  String (url_char c) (base64url_strip_trailing r).
Proof.
  intros Hc. unfold base64url_strip_trailing.
  rewrite replace_plus_slash_cons. simpl.
  by rewrite (url_char_not_equals c Hc).
Qed.

Lemma byte_bounded (a : ascii) : (N_of_ascii a < 256)%N.
Proof. apply N_ascii_bounded. Qed.

Ltac div_lia := zify; Z.to_euclidean_division_equations; lia.

Ltac sextet_facts n :=
  let Hs := fresh "Hs" in
  assert (Hs : is_sextet n) by (unfold is_sextet; div_lia);
  destruct (sextet_char n Hs) as (? & ? & ?).

(** The two replacement chains of the module agree on the output of
    [btoa]; the result reads back as the input and is made of characters of
    the URL-safe alphabet only. *)
Lemma btoa_url_forms (s : string) :
  base64url_strip_trailing (btoa s) = base64url_strip_all (btoa s) /\
  base64url_decode (base64url_strip_all (btoa s)) = Some s /\
  all_chars (in_charset b64url_alphabet) (base64url_strip_all (btoa s)) = true.
Proof.
  induction s as [| a | a b | a b c rest (IH1 & IH2 & IH3)]
    using string_triples_ind.
  - done.
  - pose proof (byte_bounded a) as Ha.
    change (btoa (String a "")) with
      (String (b64_char (N_of_ascii a / 4))
         (String (b64_char ((N_of_ascii a mod 4) * 16)) "==")).
    sextet_facts (N_of_ascii a / 4)%N.
    sextet_facts ((N_of_ascii a mod 4) * 16)%N.
    rewrite !strip_trailing_cons, !strip_all_cons by done.
    change (base64url_strip_trailing "==") with "".
    change (base64url_strip_all "==") with "".
    repeat split.
    + simpl. rewrite H, H2.
      replace (N_of_ascii a / 4 * 4 + N_of_ascii a mod 4 * 16 / 16)%N
        with (N_of_ascii a) by div_lia.
      by rewrite ascii_N_embedding.
    + simpl. by rewrite H1, H4.
  - pose proof (byte_bounded a) as Ha. pose proof (byte_bounded b) as Hb.
    change (btoa (String a (String b ""))) with
      (String (b64_char (N_of_ascii a / 4))
         (String (b64_char ((N_of_ascii a mod 4) * 16 + N_of_ascii b / 16))
            (String (b64_char ((N_of_ascii b mod 16) * 4)) "="))).
    sextet_facts (N_of_ascii a / 4)%N.
    sextet_facts ((N_of_ascii a mod 4) * 16 + N_of_ascii b / 16)%N.
    sextet_facts ((N_of_ascii b mod 16) * 4)%N.
    rewrite !strip_trailing_cons, !strip_all_cons by done.
    change (base64url_strip_trailing "=") with "".
    change (base64url_strip_all "=") with "".
    repeat split.
    + simpl. rewrite H, H2, H5.
      replace (N_of_ascii a / 4 * 4 +
               (N_of_ascii a mod 4 * 16 + N_of_ascii b / 16) / 16)%N
        with (N_of_ascii a) by div_lia.
      replace ((N_of_ascii a mod 4 * 16 + N_of_ascii b / 16) mod 16 * 16 +
               N_of_ascii b mod 16 * 4 / 4)%N
        with (N_of_ascii b) by div_lia.
      by rewrite !ascii_N_embedding.
    + simpl. by rewrite H1, H4, H7.
  - pose proof (byte_bounded a) as Ha. pose proof (byte_bounded b) as Hb.
    pose proof (byte_bounded c) as Hc.
    change (btoa (String a (String b (String c rest)))) with
      (String (b64_char (N_of_ascii a / 4))
         (String (b64_char ((N_of_ascii a mod 4) * 16 + N_of_ascii b / 16))
            (String (b64_char ((N_of_ascii b mod 16) * 4 + N_of_ascii c / 64))
               (String (b64_char (N_of_ascii c mod 64)) (btoa rest))))).
    sextet_facts (N_of_ascii a / 4)%N.
    sextet_facts ((N_of_ascii a mod 4) * 16 + N_of_ascii b / 16)%N.
    sextet_facts ((N_of_ascii b mod 16) * 4 + N_of_ascii c / 64)%N.
    sextet_facts (N_of_ascii c mod 64)%N.
    rewrite !strip_trailing_cons, !strip_all_cons by done.
    repeat split.
    + by rewrite IH1.
    + simpl. rewrite H, H2, H5, H8, IH2.
      replace (N_of_ascii a / 4 * 4 +
               (N_of_ascii a mod 4 * 16 + N_of_ascii b / 16) / 16)%N
        with (N_of_ascii a) by div_lia.
      replace ((N_of_ascii a mod 4 * 16 + N_of_ascii b / 16) mod 16 * 16 +
               (N_of_ascii b mod 16 * 4 + N_of_ascii c / 64) / 4)%N
        with (N_of_ascii b) by div_lia.
      replace ((N_of_ascii b mod 16 * 4 + N_of_ascii c / 64) mod 4 * 64 +
               N_of_ascii c mod 64)%N
        with (N_of_ascii c) by div_lia.
      by rewrite !ascii_N_embedding.
    + simpl. by rewrite H1, H4, H7, H10, IH3.
Qed.

Lemma all_chars_app (P : ascii -> bool) (a b : string) :
  all_chars P (a +:+ b) = all_chars P a && all_chars P b.
Proof.
  induction a as [|x a IH]; [done|].
  rewrite string_app_cons. simpl. by rewrite IH, andb_assoc.
Qed.

Lemma all_chars_impl (P Q : ascii -> bool) (s : string) :
  (forall c, P c = true -> Q c = true) ->
  all_chars P s = true -> all_chars Q s = true.
Proof.
  intros HPQ. induction s as [|x s IH]; [done|]. simpl.
  intros [Hx Hs]%andb_prop. by rewrite (HPQ x Hx), (IH Hs).
Qed.

Lemma length_string_app (a b : string) :
  String.length (a +:+ b) = (String.length a + String.length b)%nat.
Proof.
  induction a as [|x a IH]; [done|].
  rewrite string_app_cons. simpl. by rewrite IH.
Qed.

(** No character of the URL-safe alphabet is [+], [/] or [=]. *)
Lemma url_alphabet_excludes (c : ascii) :
  in_charset b64url_alphabet c = true -> not_plus_slash_equals c = true.
Proof.
  destruct c as [[] [] [] [] [] [] [] []]; vm_compute; congruence.
Qed.

(** ** Facts about the random source *)

Lemma floor_scaled_lt (d : N) (n : nat) :
  (d < two53)%N -> (0 < n)%nat -> (floor_scaled d n < n)%nat.
Proof.
  intros Hd Hn. unfold floor_scaled.
  assert ((d * N.of_nat n / two53 < N.of_nat n)%N); [|lia].
  apply N.Div0.div_lt_upper_bound. unfold two53 in *. nia.
Qed.

Lemma charset_checked :
  forallb (fun i =>
             match String.get i charset with
             | Some c => unreserved c
             | None => false
             end)
          (seq 0 66) = true.
Proof. vm_compute. reflexivity. Qed.

Lemma charAt_charset (i : nat) :
  (i < 66)%nat ->
  exists c, charAt charset i = String c "" /\ unreserved c = true.
Proof.
  intros Hi. pose proof charset_checked as Hall.
  rewrite forallb_forall in Hall.
  assert (Hin : In i (seq 0 66)) by (apply in_seq; lia).
  specialize (Hall i Hin). unfold charAt.
  destruct (String.get i charset) as [c|]; [|done].
  by exists c.
Qed.

Lemma with_draws_with_draws (n m : nat) (w : World) :
  with_draws n (with_draws m w) = with_draws n w.
Proof. reflexivity. Qed.

Lemma generateRandomString_loop_step (n : nat) (result : string) (w : World) :
  generateRandomString_loop (S n) result w =
  generateRandomString_loop n
    (result +:+ charAt charset
       (floor_scaled (entropy w (draws w) mod two53) (String.length charset)))
    (with_draws (S (draws w)) w).
Proof. reflexivity. Qed.

Lemma generateRandomString_loop_spec (n : nat) :
  forall (result : string) (w : World),
    exists s,
      generateRandomString_loop n result w =
        (Normal (result +:+ s), with_draws (draws w + n) w) /\
      String.length s = n /\
      all_chars unreserved s = true.
Proof.
  induction n as [|n IH]; intros result w.
  - exists "". simpl. unfold ret.
    rewrite string_app_nil_r, Nat.add_0_r. by destruct w.
  - rewrite generateRandomString_loop_step.
    destruct (charAt_charset
                (floor_scaled (entropy w (draws w) mod two53)
                   (String.length charset))) as (c & Hc & Hu).
    { apply floor_scaled_lt; [|vm_compute; lia].
      apply N.mod_lt. done. }
    destruct (IH (result +:+ charAt charset
                    (floor_scaled (entropy w (draws w) mod two53)
                       (String.length charset)))
                 (with_draws (S (draws w)) w)) as (s & Hrun & Hlen & Hall).
    rewrite Hrun. exists (String c s). rewrite Hc.
    rewrite string_app_assoc.
    change (draws (with_draws (S (draws w)) w)) with (S (draws w)).
    rewrite with_draws_with_draws.
    replace (S (draws w) + n)%nat with (draws w + S n)%nat by lia.
    repeat split.
    + simpl. by rewrite Hlen.
    + simpl. by rewrite Hu, Hall.
Qed.

Ltac run_monad :=
  unfold bind, ret, throw, gets, modify, try_catch, in_world in *; simpl in *.

Section Properties.
Context `{Builtins}.

(** ** Token expiry *)

(** C10: whenever [isTokenExpired] holds, [isTokenExpiringSoon] holds too;
    both only compare [expiresAt] with the clock (which they leave as it
    is), and the instant [now = expiresAt] counts as expired. *)
Theorem expired_implies_expiring_soon (t : AuthTokens) (w : World) :
  exists b1 b2 : bool,
    isTokenExpired t w = (Normal b1, w) /\
    isTokenExpiringSoon t w = (Normal b2, w) /\
    (b1 = true <-> expiresAt t <= clock w) /\
    (b2 = true <-> expiresAt t <= clock w + 300000) /\
    (b1 = true -> b2 = true) /\
    (clock w = expiresAt t -> b1 = true).
Proof.
  exists (isTokenExpired_at (clock w) t), (isTokenExpiringSoon_at (clock w) t).
  unfold isTokenExpired, isTokenExpiringSoon, Date_now,
    isTokenExpired_at, isTokenExpiringSoon_at.
  run_monad.
  repeat split; rewrite ?Z.geb_le in *; try lia.
Qed.

(** ** Token store *)

Lemma getStoredAuthTokens_total (country provider : string) (w : World) :
  getStoredAuthTokens country provider w =
    (Normal (match localStorage w !! auth_key country provider with
             | Some s => if truthy s then
                           match JSON_parse_tokens s with
                           | Some v => v
                           | None => None
                           end
                         else None
             | None => None
             end), w).
Proof.
  unfold getStoredAuthTokens, getItem, JSON_parse_tokens_M. run_monad.
  destruct (localStorage w !! auth_key country provider) as [s|]; [|done].
  destruct (truthy s); simpl; [|done].
  by destruct (JSON_parse_tokens s).
Qed.

Lemma getStoredUserInfo_total (country provider : string) (w : World) :
  getStoredUserInfo country provider w =
    (Normal (match localStorage w !! userinfo_key country provider with
             | Some s => if truthy s then
                           match JSON_parse_userinfo s with
                           | Some v => v
                           | None => None
                           end
                         else None
             | None => None
             end), w).
Proof.
  unfold getStoredUserInfo, getItem, JSON_parse_userinfo_M. run_monad.
  destruct (localStorage w !! userinfo_key country provider) as [s|]; [|done].
  destruct (truthy s); simpl; [|done].
  by destruct (JSON_parse_userinfo s).
Qed.

(** C8: the two reads of the token store never throw, whatever is stored:
    they return normally and leave the world as it is; with no record they
    return null, and with a record that [JSON.parse] rejects they return
    null as well. *)
Theorem stored_reads_never_throw (country provider : string) (w : World) :
  (exists v : option AuthTokens,
      getStoredAuthTokens country provider w = (Normal v, w) /\
      (localStorage w !! auth_key country provider = None -> v = None) /\
      (forall s, localStorage w !! auth_key country provider = Some s ->
                 JSON_parse_tokens s = None -> v = None)) /\
  (exists u : option UserInfo,
      getStoredUserInfo country provider w = (Normal u, w) /\
      (localStorage w !! userinfo_key country provider = None -> u = None) /\
      (forall s, localStorage w !! userinfo_key country provider = Some s ->
                 JSON_parse_userinfo s = None -> u = None)).
Proof.
  split.
  - eexists. split; [apply getStoredAuthTokens_total|].
    split.
    + by intros ->.
    + intros s -> ->. by destruct (truthy s).
  - eexists. split; [apply getStoredUserInfo_total|].
    split.
    + by intros ->.
    + intros s -> ->. by destruct (truthy s).
Qed.

Lemma provider_suffix_distinct (c c' : string) :
  c +:+ "_" +:+ "google" <> c' +:+ "_" +:+ "microsoft".
Proof.
  change ("_" +:+ "google") with ("_googl" +:+ String "e"%char "").
  change ("_" +:+ "microsoft") with ("_microsof" +:+ String "t"%char "").
  by apply string_last_differs.
Qed.

Lemma provider_suffix_inj (c c' : string) (p p' : Provider) :
  c +:+ "_" +:+ provider_key p = c' +:+ "_" +:+ provider_key p' ->
  c = c' /\ p = p'.
Proof.
  destruct p, p'; simpl; intros E.
  - split; [|done]. by apply string_app_inv_tail in E.
  - by apply provider_suffix_distinct in E.
  - symmetry in E. by apply provider_suffix_distinct in E.
  - split; [|done]. by apply string_app_inv_tail in E.
Qed.

Lemma auth_key_inj (c c' : string) (p p' : Provider) :
  auth_key c (provider_key p) = auth_key c' (provider_key p') ->
  c = c' /\ p = p'.
Proof.
  unfold auth_key. intros E. apply (inj (String.app _)) in E.
  by apply provider_suffix_inj.
Qed.

Lemma userinfo_key_inj (c c' : string) (p p' : Provider) :
  userinfo_key c (provider_key p) = userinfo_key c' (provider_key p') ->
  c = c' /\ p = p'.
Proof.
  unfold userinfo_key. intros E. apply (inj (String.app _)) in E.
  by apply provider_suffix_inj.
Qed.

Lemma auth_key_not_userinfo_key (c c' p p' : string) :
  auth_key c p <> userinfo_key c' p'.
Proof. unfold auth_key, userinfo_key. cbv [String.append]. discriminate. Qed.

(** C9: for two distinct identities with providers among google and
    microsoft, storing or clearing tokens or user info under the first
    leaves the token record and the user-info record of the second as they
    were; and [clearAuthTokens] removes both the token record and the
    user-info record of its own identity. *)
Theorem identity_keys_independent
    (c c' : string) (p p' : Provider)
    (tokens : AuthTokens) (userInfo : UserInfo) (w : World) :
  (c, p) <> (c', p') ->
  let untouched (w' : World) :=
    localStorage w' !! auth_key c' (provider_key p') =
      localStorage w !! auth_key c' (provider_key p') /\
    localStorage w' !! userinfo_key c' (provider_key p') =
      localStorage w !! userinfo_key c' (provider_key p') in
  untouched (snd (storeAuthTokens c (provider_key p) tokens w)) /\
  untouched (snd (storeUserInfo c (provider_key p) userInfo w)) /\
  untouched (snd (clearAuthTokens c (provider_key p) w)) /\
  untouched (snd (clearUserInfo c (provider_key p) w)) /\
  localStorage (snd (clearAuthTokens c (provider_key p) w))
    !! auth_key c (provider_key p) = None /\
  localStorage (snd (clearAuthTokens c (provider_key p) w))
    !! userinfo_key c (provider_key p) = None.
Proof.
  intros Hne untouched.
  assert (Ha : auth_key c (provider_key p) <> auth_key c' (provider_key p')).
  { intros E. apply auth_key_inj in E as [-> ->]. by apply Hne. }
  assert (Hu : userinfo_key c (provider_key p) <> userinfo_key c' (provider_key p')).
  { intros E. apply userinfo_key_inj in E as [-> ->]. by apply Hne. }
  pose proof (auth_key_not_userinfo_key c c' (provider_key p) (provider_key p')) as Hau.
  pose proof (auth_key_not_userinfo_key c' c (provider_key p') (provider_key p)) as Hua.
  pose proof (auth_key_not_userinfo_key c c (provider_key p) (provider_key p)) as Hsame.
  unfold untouched, storeAuthTokens, storeUserInfo, clearAuthTokens,
    clearUserInfo, setItem, removeItem.
  run_monad.
  repeat split;
    rewrite ?lookup_insert_ne, ?lookup_delete_ne, ?lookup_delete_eq by congruence;
    try done.
Qed.

(** ** Authorization URL *)

Lemma getAuthUrl_unconfigured (this : Manager) (w : World) (state : option string) :
  clientId (config (mconfig this)) = "" \/
  includes (clientId (config (mconfig this))) "your-" = true ->
  getAuthUrl state (this, w) =
    (Throw (Error (provider_key (provider this) +:+
       " OAuth client ID is not properly configured. Please check your environment variables.")),
     (this, w)).
Proof.
  intros Hcid. unfold getAuthUrl, this_.
  unfold bind at 1. unfold gets at 1. cbv beta iota.
  unfold bind at 1. unfold gets at 1. cbv beta iota.
  cbn [fst snd].
  destruct Hcid as [-> | ->].
  - reflexivity.
  - rewrite orb_true_r. reflexivity.
Qed.

(** C3: with a client id that is empty or contains the placeholder "your-",
    [getAuthUrl] throws the configuration error and changes nothing: the
    world is the one it was called in, so no random number has been drawn,
    and the manager holds no new PKCE challenge. *)
Theorem getAuthUrl_unconfigured_fails_early
    (this : Manager) (w : World) (state : option string) :
  clientId (config (mconfig this)) = "" \/
  includes (clientId (config (mconfig this))) "your-" = true ->
  getAuthUrl state (this, w) =
    (Throw (Error (provider_key (provider this) +:+
       " OAuth client ID is not properly configured. Please check your environment variables.")),
     (this, w)) /\
  draws (snd (snd (getAuthUrl state (this, w)))) = draws w /\
  pkceChallenge (fst (snd (getAuthUrl state (this, w)))) = pkceChallenge this.
Proof.
  intros Hcid. by rewrite (getAuthUrl_unconfigured this w state Hcid).
Qed.

(** ** Popup flow: messages from other origins *)

(** C6: a message whose origin is not the opener's own origin leaves the
    flow exactly as it was, whatever it carries: the promise, the listener,
    the interval, the timeout, the popup and the store are all unchanged. *)
Theorem foreign_origin_ignored
    (env : Env) (country : string) (event : MessageEvent) (st : Flow) :
  ev_origin event <> origin env ->
  step env country (Message event) st = st.
Proof.
  intros Hne. unfold step, messageHandler.
  destruct (listening st); [|done].
  apply String.eqb_neq in Hne. by rewrite Hne.
Qed.

(** ** PKCE *)

Lemma generatePKCEChallenge_run (w : World) :
  exists verifier,
    generatePKCEChallenge w =
      (Normal {| codeVerifier := verifier;
                 codeChallenge := base64url_strip_all (btoa (sha256 verifier)) |},
       with_draws (draws w + 128) w) /\
    String.length verifier = 128%nat /\
    all_chars unreserved verifier = true.
Proof.
  destruct (generateRandomString_loop_spec 128 "" w) as (s & Hrun & Hlen & Hall).
  exists s. unfold generatePKCEChallenge, generateRandomString.
  unfold bind. rewrite Hrun. rewrite string_app_nil_l.
  split; [reflexivity|]. split; assumption.
Qed.

(** C4: [generatePKCEChallenge] always returns; the verifier has 128
    characters (so between 43 and 128), all of them unreserved; the
    challenge contains none of [+], [/], [=], and decoding it as base64url
    gives back exactly the SHA-256 digest of the verifier. *)
Theorem pkce_challenge_wellformed (w : World) :
  exists (ch : PKCEChallenge) (w' : World),
    generatePKCEChallenge w = (Normal ch, w') /\
    String.length (codeVerifier ch) = 128%nat /\
    (43 <= String.length (codeVerifier ch) <= 128)%nat /\
    all_chars unreserved (codeVerifier ch) = true /\
    all_chars not_plus_slash_equals (codeChallenge ch) = true /\
    base64url_decode (codeChallenge ch) = Some (sha256 (codeVerifier ch)).
Proof.
  destruct (generatePKCEChallenge_run w) as (v & Hrun & Hlen & Hall).
  destruct (btoa_url_forms (sha256 v)) as (_ & Hdec & Hurl).
  eexists _, _. split; [exact Hrun|]. clear Hrun.
  cbn [codeVerifier codeChallenge]. rewrite Hlen.
  split; [reflexivity|]. split; [lia|]. split; [exact Hall|].
  split; [|exact Hdec].
  eapply all_chars_impl; [apply url_alphabet_excludes | exact Hurl].
Qed.

(** ** Gmail dispatch *)

Lemma fold_left_append {A} (f : A -> string) (l : list A) (init : string) :
  fold_left (fun message a => message +:+ f a) l init =
  init +:+ flatten (map f l).
Proof.
  revert init. induction l as [|a l IH]; intros init; simpl.
  - by rewrite string_app_nil_r.
  - rewrite IH. by rewrite string_app_assoc.
Qed.

Lemma fetch_requests (req : Request) (w : World) :
  requests (snd (fetch req w)) = requests w ++ [req] /\
  draws (snd (fetch req w)) = draws w /\
  localStorage (snd (fetch req w)) = localStorage w.
Proof.
  unfold fetch, send_request, next_outcome, deliver. run_monad.
  destruct (network w) as [|[m e|r e] rest]; simpl; done.
Qed.

Lemma multipart_message_shape (boundary : string) (emailData : EmailData)
    (atts : list Attachment) :
  multipart_message boundary emailData atts =
    ("To: " +:+ join ", " (to emailData) +:+ LF +:+
     "Subject: " +:+ subject emailData +:+ LF +:+
     "MIME-Version: 1.0" +:+ LF +:+
     "Content-Type: multipart/mixed; boundary=" +:+ dquote +:+ boundary +:+
       dquote +:+ LF +:+ LF) +:+
    ("--" +:+ boundary) +:+ LF +:+
    "Content-Type: text/html; charset=utf-8" +:+ LF +:+ LF +:+
    ebody emailData +:+ LF +:+
    flatten (map (attachment_part boundary) atts) +:+
    ("--" +:+ boundary) +:+ "--".
Proof.
  unfold multipart_message. rewrite fold_left_append.
  unfold multipart_head. cbn [join].
  rewrite !string_app_assoc, !string_app_nil_l, ?string_app_nil_r.
  reflexivity.
Qed.

Lemma attachment_part_shape (boundary : string) (a : Attachment) :
  attachment_part boundary a =
    ("--" +:+ boundary) +:+ LF +:+
    "Content-Type: " +:+ contentType a +:+ LF +:+
    "Content-Disposition: attachment; filename=" +:+ dquote +:+ filename a +:+
      dquote +:+ LF +:+
    "Content-Transfer-Encoding: base64" +:+ LF +:+ LF +:+
    content a +:+ LF.
Proof.
  unfold attachment_part. cbn [join].
  rewrite !string_app_assoc, !string_app_nil_l, ?string_app_nil_r.
  reflexivity.
Qed.

(** C7: with a non-empty attachment list, the Gmail message is built
    around one boundary string: the delimiter line made from it opens the
    body part and opens each attachment part, one part per attachment in
    order, and the message ends with the closing delimiter; the encoded
    message consists of characters of the URL-safe Base64 alphabet only, so
    it contains no [+], no [/] and no [=], and it decodes to the message.
    The one request sent is a POST to the Gmail send endpoint with the
    bearer token and the JSON content type, whose body is the JSON object
    with the single field "raw" holding exactly that encoded message. *)
Theorem gmail_multipart_payload
    (token : string) (emailData : EmailData)
    (atts : list Attachment) (w : World) :
  attachments emailData = Some atts ->
  atts <> [] ->
  let boundary := boundary_of (entropy w (draws w) mod two53)%N in
  let delimiter := "--" +:+ boundary in
  exists message : string,
    gmail_message emailData w = (Normal message, with_draws (S (draws w)) w) /\
    (exists preamble,
        message =
          preamble +:+ delimiter +:+ LF +:+
          "Content-Type: text/html; charset=utf-8" +:+ LF +:+ LF +:+
          ebody emailData +:+ LF +:+
          flatten (map (attachment_part boundary) atts) +:+
          delimiter +:+ "--") /\
    Forall (fun a => exists rest,
                attachment_part boundary a =
                  delimiter +:+ LF +:+ "Content-Type: " +:+ contentType a +:+
                  LF +:+ rest) atts /\
    all_chars (in_charset b64url_alphabet) (gmail_encode message) = true /\
    all_chars not_plus_slash_equals (gmail_encode message) = true /\
    base64url_decode (gmail_encode message) = Some message /\
    requests (snd (sendGmailEmail token emailData w)) =
      requests w ++
      [ {| url := "https://gmail.googleapis.com/gmail/v1/users/me/messages/send";
           method := "POST";
           headers := [ ("Authorization", "Bearer " +:+ token);
                        ("Content-Type", "application/json") ];
           body := "{" +:+ dquote +:+ "raw" +:+ dquote +:+ ":" +:+ dquote +:+
                   gmail_encode message +:+ dquote +:+ "}" |} ].
Proof.
  intros Hatts Hne boundary delimiter.
  exists (multipart_message boundary emailData atts).
  assert (Hmsg : gmail_message emailData w =
                 (Normal (multipart_message boundary emailData atts),
                  with_draws (S (draws w)) w)).
  { unfold gmail_message. rewrite Hatts.
    destruct atts as [|a rest]; [done|]. reflexivity. }
  destruct (btoa_url_forms (multipart_message boundary emailData atts))
    as (Hsame & Hdec & Hurl).
  unfold gmail_encode. rewrite Hsame.
  repeat split.
  - exact Hmsg.
  - eexists. apply multipart_message_shape.
  - apply Forall_forall. intros a _. eexists. apply attachment_part_shape.
  - exact Hurl.
  - eapply all_chars_impl; [apply url_alphabet_excludes | exact Hurl].
  - exact Hdec.
  - unfold sendGmailEmail. unfold bind at 1. rewrite Hmsg.
    unfold gmail_encode. rewrite Hsame.
    pose proof (fetch_requests
      (gmail_request token
         (base64url_strip_all (btoa (multipart_message boundary emailData atts))))
      (with_draws (S (draws w)) w)) as (Hreq & _ & _).
    unfold bind.
    destruct (fetch _ (with_draws (S (draws w)) w)) as [[r|e] w'];
      simpl in *; exact Hreq.
Qed.

(** ** Token lifecycle *)

Lemma refreshMicrosoftToken_success (env : Env) (country rt : string)
    (w : World) (data : TokenResponse) (e : N) :
  refresh_reply env w = Some (data, e) ->
  let newTokens :=
    {| accessToken := access_token data;
       refreshToken := or_else (refresh_token data) (Some rt);
       expiresIn := expires_in data;
       expiresAt := clock w + Z.of_N e + expires_in data * 1000 |} in
  exists w',
    refreshMicrosoftToken env country rt w = (Normal (Some newTokens), w') /\
    localStorage w' =
      <[auth_key country "microsoft" := JSON_stringify_tokens newTokens]>
        (localStorage w) /\
    requests w' = requests w ++ [refresh_request env rt].
Proof.
  intros Hreply newTokens. unfold refresh_reply in Hreply.
  destruct (truthy_opt (REACT_APP_MICROSOFT_CLIENT_ID env)) eqn:Hcid; [|done].
  destruct (network w) as [|[m e'|r e'] rest] eqn:Hnet; try done.
  destruct (ok r) eqn:Hok; [|done].
  destruct (JSON_parse_token_response (text r)) as [d|] eqn:Hparse; [|done].
  injection Hreply as -> ->.
  eexists. unfold refreshMicrosoftToken. rewrite Hcid. simpl negb. cbv iota.
  unfold fetch, send_request, next_outcome, deliver, storeAuthTokens, setItem,
    Date_now.
  unfold bind, ret, throw, gets, modify, try_catch.
  cbn [network with_network elapsed_of clock requests].
  rewrite Hnet. cbn [network with_network elapsed_of clock requests ok text].
  rewrite Hok. cbn [negb]. rewrite Hparse.
  split; [reflexivity|]. split; reflexivity.
Qed.

Lemma refreshMicrosoftToken_failure (env : Env) (country rt : string) (w : World) :
  refresh_reply env w = None ->
  exists w',
    refreshMicrosoftToken env country rt w = (Normal None, w') /\
    localStorage w' = localStorage w.
Proof.
  unfold refresh_reply. intros Hreply.
  unfold refreshMicrosoftToken.
  destruct (truthy_opt (REACT_APP_MICROSOFT_CLIENT_ID env)) eqn:Hcid.
  - simpl negb. cbv iota.
    unfold fetch, send_request, next_outcome, deliver, storeAuthTokens, setItem,
      Date_now.
    unfold bind, ret, throw, gets, modify, try_catch.
    cbn [network with_network elapsed_of clock requests].
    destruct (network w) as [|[m e'|r e'] rest] eqn:Hnet;
      cbn [network with_network elapsed_of clock requests ok text];
      try (eexists; split; reflexivity).
    destruct (ok r) eqn:Hok; cbn [negb];
      try (eexists; split; reflexivity).
    destruct (JSON_parse_token_response (text r)) as [d|] eqn:Hparse;
      [discriminate Hreply|].
    eexists; split; reflexivity.
  - simpl negb. cbv iota. unfold try_catch, throw, ret.
    eexists; split; reflexivity.
Qed.

(** C1: the algorithm of [getValidAccessToken], for every identity.
    - No stored tokens: null, nothing changes.
    - Stored tokens not expired: their access token, nothing changes.
    - Expired, Microsoft, refresh token present, refresh succeeds: one
      refresh request is posted, the new tokens are stored under the
      identity (with the old refresh token when the reply carries none)
      and the new access token is returned.
    - Expired, Microsoft, refresh token present, refresh fails: the token
      and user-info records of the identity are removed, null is returned.
    - Expired otherwise (Google, or no refresh token): no request is made,
      both records of the identity are removed, null is returned. *)
Theorem getValidAccessToken_algorithm
    (env : Env) (country : string) (provider : Provider) (w : World) :
  let pk := provider_key provider in
  let stored := getStoredAuthTokens country pk w in
  let cleared :=
    delete (userinfo_key country pk) (delete (auth_key country pk) (localStorage w)) in
  (stored = (Normal None, w) ->
     getValidAccessToken env country provider w = (Normal None, w)) /\
  (forall t, stored = (Normal (Some t), w) -> clock w < expiresAt t ->
     getValidAccessToken env country provider w =
       (Normal (Some (accessToken t)), w)) /\
  (forall t rt data e,
     stored = (Normal (Some t), w) -> expiresAt t <= clock w ->
     provider = microsoft -> refreshToken t = Some rt -> rt <> "" ->
     refresh_reply env w = Some (data, e) ->
     let newTokens :=
       {| accessToken := access_token data;
          refreshToken := if truthy_opt (refresh_token data)
                          then refresh_token data else Some rt;
          expiresIn := expires_in data;
          expiresAt := clock w + Z.of_N e + expires_in data * 1000 |} in
     exists w',
       getValidAccessToken env country provider w =
         (Normal (Some (access_token data)), w') /\
       localStorage w' =
         <[auth_key country pk := JSON_stringify_tokens newTokens]> (localStorage w) /\
       requests w' = requests w ++ [refresh_request env rt]) /\
  (forall t rt,
     stored = (Normal (Some t), w) -> expiresAt t <= clock w ->
     provider = microsoft -> refreshToken t = Some rt -> rt <> "" ->
     refresh_reply env w = None ->
     exists w',
       getValidAccessToken env country provider w = (Normal None, w') /\
       localStorage w' = cleared) /\
  (forall t,
     stored = (Normal (Some t), w) -> expiresAt t <= clock w ->
     provider = google \/ refreshToken t = None \/ refreshToken t = Some "" ->
     exists w',
       getValidAccessToken env country provider w = (Normal None, w') /\
       localStorage w' = cleared /\
       requests w' = requests w).
Proof.
  intros pk stored cleared. subst stored cleared.
  assert (Hexp : forall t, expiresAt t <= clock w ->
                 isTokenExpired t w = (Normal true, w)).
  { intros t Ht. unfold isTokenExpired, Date_now, isTokenExpired_at. run_monad.
    by rewrite (proj2 (Z.geb_le _ _) Ht). }
  repeat split.
  - intros Hst. unfold getValidAccessToken. fold pk. unfold bind at 1.
    by rewrite Hst.
  - intros t Hst Hlt. unfold getValidAccessToken. fold pk. unfold bind at 1.
    rewrite Hst. unfold isTokenExpired, Date_now, isTokenExpired_at. run_monad.
    destruct (clock w >=? expiresAt t) eqn:E; [|done].
    apply Z.geb_le in E. lia.
  - intros t rt data e Hst Hle -> Hrt Hne Hreply newTokens.
    destruct (refreshMicrosoftToken_success env country rt w data e Hreply)
      as (w' & Hrun & Hls & Hreq).
    exists w'. unfold getValidAccessToken. fold pk. unfold bind at 1.
    rewrite Hst. unfold bind at 1. rewrite (Hexp t Hle). simpl negb. cbv iota.
    rewrite Hrt. simpl default.
    assert (Htr : truthy rt = true) by (by destruct rt).
    simpl. rewrite Htr. simpl. unfold bind at 1. rewrite Hrun.
    repeat split; done.
  - intros t rt Hst Hle -> Hrt Hne Hreply.
    destruct (refreshMicrosoftToken_failure env country rt w Hreply)
      as (w' & Hrun & Hls).
    unfold getValidAccessToken. fold pk. unfold bind at 1.
    rewrite Hst. unfold bind at 1. rewrite (Hexp t Hle). simpl negb. cbv iota.
    rewrite Hrt. simpl default.
    assert (Htr : truthy rt = true) by (by destruct rt).
    simpl. rewrite Htr. simpl. unfold bind at 1. rewrite Hrun.
    unfold clearAuthTokens, clearUserInfo, removeItem. run_monad.
    eexists. split; [reflexivity|]. simpl. by rewrite Hls.
  - intros t Hst Hle Hcase.
    unfold getValidAccessToken. fold pk. unfold bind at 1.
    rewrite Hst. unfold bind at 1. rewrite (Hexp t Hle). simpl negb. cbv iota.
    assert (Hno : bool_decide (provider = microsoft) &&
                  truthy_opt (refreshToken t) = false).
    { destruct Hcase as [-> | [-> | ->]]; [done| |];
        by rewrite andb_false_r. }
    rewrite Hno.
    unfold clearAuthTokens, clearUserInfo, removeItem. run_monad.
    eexists. repeat split.
Qed.

(** ** Code exchange *)

Lemma getAuthUrl_configured (this : Manager) (w : World) (state : option string) :
  clientId (config (mconfig this)) <> "" ->
  includes (clientId (config (mconfig this))) "your-" = false ->
  exists url ch w',
    getAuthUrl state (this, w) = (Normal url, (holding this ch, w')) /\
    generatePKCEChallenge w = (Normal ch, w').
Proof.
  intros Hne Hinc.
  assert (Htr : truthy (clientId (config (mconfig this))) = true).
  { by destruct (clientId (config (mconfig this))). }
  assert (Heq : String.eqb (clientId (config (mconfig this))) "" = false).
  { by apply String.eqb_neq. }
  assert (Hany : bool_decide (provider this = microsoft) ||
                 bool_decide (provider this = google) = true).
  { by destruct (provider this). }
  unfold getAuthUrl, this_.
  unfold bind at 1. unfold gets at 1. cbv beta iota.
  unfold bind at 1. unfold gets at 1. cbv beta iota.
  cbn [fst snd].
  rewrite Htr, Hinc, Heq, Hany. cbn [negb orb].
  clear Hne Hinc Htr Heq Hany.
  destruct (generatePKCEChallenge_run w) as (v & Hrun & _ & _).
  assert (Hstate : exists sp,
    (if truthy_opt state then ret (default "" state)
     else let* now := in_world Date_now in
          ret (provider_key (provider this) +:+ "_" +:+ Number_toString now))
      (this, w) = (Normal sp, (this, w))).
  { destruct (truthy_opt state); eexists; reflexivity. }
  destruct Hstate as (sp & Hstate).
  unfold bind at 1. rewrite Hstate.
  unfold bind at 1. unfold bind at 1. unfold in_world at 1. cbn [fst snd].
  rewrite Hrun. unfold bind at 1. unfold set_pkceChallenge, modify. cbn [fst snd].
  eexists _, _, _. split; reflexivity.
Qed.

Lemma exchange_without_challenge (this : Manager) (w : World) (code : string) :
  pkceChallenge this = None ->
  exchangeCodeForTokens code (this, w) = (Throw missing_challenge, (this, w)).
Proof.
  intros Hnone. unfold exchangeCodeForTokens, this_.
  unfold bind at 1. unfold gets at 1. cbn [fst snd].
  by rewrite Hnone.
Qed.

Ltac split_branches :=
  repeat match goal with
         | |- context [if ?b then _ else _] => destruct b
         | |- context [match JSON_parse_token_response ?s with _ => _ end] =>
             destruct (JSON_parse_token_response s)
         | |- context [match JSON_parse_profile ?s with _ => _ end] =>
             destruct (JSON_parse_profile s)
         end.

Lemma exchange_continue_world (response : Response) (w : World) :
  snd (exchange_continue response w) = w.
Proof.
  unfold exchange_continue, Date_now, bind, gets, ret, throw.
  split_branches; reflexivity.
Qed.

Lemma exchange_catch_world (error : JsError) (w : World) :
  snd (exchange_catch error w) = w.
Proof.
  unfold exchange_catch, throw. destruct error; split_branches; reflexivity.
Qed.

Lemma userinfo_continue_world (prov : Provider) (response : Response) (w : World) :
  snd (userinfo_continue prov response w) = w.
Proof.
  unfold userinfo_continue, ret, throw. split_branches; reflexivity.
Qed.

Lemma deliver_storage (o : FetchOutcome) (w : World) :
  localStorage (snd (deliver o w)) = localStorage w /\
  requests (snd (deliver o w)) = requests w.
Proof. unfold deliver. destruct o; split; reflexivity. Qed.

(** The part of [exchangeCodeForTokens] inside [try ... catch], run after
    some first step [c] that yields the response. *)
Lemma exchange_tail_world (c : M World Response) (w : World) :
  snd (try_catch (let* response := c in exchange_continue response)
                 exchange_catch w) = snd (c w).
Proof.
  unfold try_catch, bind.
  destruct (c w) as [[resp|err] w1]; cbn [snd].
  - pose proof (exchange_continue_world resp w1) as Hw.
    destruct (exchange_continue resp w1) as [[t|e] w2]; cbn [snd] in *.
    + exact Hw.
    + rewrite exchange_catch_world. exact Hw.
  - apply exchange_catch_world.
Qed.

Lemma userinfo_tail_world (prov : Provider) (c : M World Response) (w : World) :
  snd ((let* response := c in userinfo_continue prov response) w) = snd (c w).
Proof.
  unfold bind.
  destruct (c w) as [[resp|err] w1]; cbn [snd]; [|reflexivity].
  apply userinfo_continue_world.
Qed.

Lemma exchange_with_challenge (this : Manager) (w : World) (code : string)
    (ch : PKCEChallenge) :
  pkceChallenge this = Some ch ->
  exists r w',
    exchangeCodeForTokens code (this, w) = (r, (this, w')) /\
    requests w' = requests w ++ [exchange_request this ch code] /\
    localStorage w' = localStorage w.
Proof.
  intros Hsome. unfold exchangeCodeForTokens, this_.
  unfold bind at 1. unfold gets at 1. cbn [fst snd].
  rewrite Hsome.
  unfold bind at 1. unfold gets at 1. cbn [fst snd].
  unfold in_world. cbn [fst snd].
  pose proof (exchange_tail_world (fetch (exchange_request this ch code)) w) as Hw.
  pose proof (fetch_requests (exchange_request this ch code) w) as (Hreq & _ & Hls).
  destruct (try_catch _ exchange_catch w) as [r w'].
  cbn [snd] in Hw. subst w'.
  eexists _, _. split; [reflexivity|]. split; assumption.
Qed.

(** C2, as the code has it: the PKCE challenge is created by [getAuthUrl]
    and kept on the manager; [exchangeCodeForTokens] on a manager without a
    challenge throws the missing-challenge error and sends nothing; on a
    manager with a challenge it sends a token request carrying that
    challenge's verifier and leaves the challenge in place, so a second
    exchange sends a second request with the same verifier. *)
Theorem pkce_challenge_kept_by_exchange
    (this : Manager) (w : World) (code : string) :
  (forall state,
     clientId (config (mconfig this)) <> "" ->
     includes (clientId (config (mconfig this))) "your-" = false ->
     exists url ch w',
       getAuthUrl state (this, w) = (Normal url, (holding this ch, w')) /\
       generatePKCEChallenge w = (Normal ch, w')) /\
  (pkceChallenge this = None ->
     exchangeCodeForTokens code (this, w) = (Throw missing_challenge, (this, w))) /\
  (forall ch,
     pkceChallenge this = Some ch ->
     exists r1 w1 r2 w2,
       exchangeCodeForTokens code (this, w) = (r1, (this, w1)) /\
       exchangeCodeForTokens code (this, w1) = (r2, (this, w2)) /\
       requests w2 =
         requests w ++ [exchange_request this ch code;
                        exchange_request this ch code]).
Proof.
  repeat split.
  - intros state Hne Hinc. by apply getAuthUrl_configured.
  - apply exchange_without_challenge.
  - intros ch Hch.
    destruct (exchange_with_challenge this w code ch Hch)
      as (r1 & w1 & Hrun1 & Hreq1 & _).
    destruct (exchange_with_challenge this w1 code ch Hch)
      as (r2 & w2 & Hrun2 & Hreq2 & _).
    exists r1, w1, r2, w2. repeat split; [done..|].
    rewrite Hreq2, Hreq1. by rewrite <- app_assoc.
Qed.

(** ** Popup flow: what touches the store *)

Lemma resume_exchange_storage (o : FetchOutcome) (w : World) :
  localStorage
    (snd (try_catch (let* response := deliver o in exchange_continue response)
                    exchange_catch w)) = localStorage w.
Proof. rewrite exchange_tail_world. apply deliver_storage. Qed.

Lemma resume_userinfo_storage (prov : Provider) (o : FetchOutcome) (w : World) :
  localStorage
    (snd ((let* response := deliver o in userinfo_continue prov response) w))
  = localStorage w.
Proof. rewrite userinfo_tail_world. apply deliver_storage. Qed.

Lemma messageHandler_storage (env : Env) (event : MessageEvent) (st : Flow) :
  localStorage (world (messageHandler env event st)) = localStorage (world st).
Proof.
  unfold messageHandler.
  repeat match goal with
         | |- context [if ?b then _ else _] => destruct b
         | |- context [match data ?e with _ => _ end] => destruct (data e)
         | |- context [match pkceChallenge ?m with _ => _ end] =>
             destruct (pkceChallenge m)
         end; reflexivity.
Qed.

Lemma storage_written_only_on_success
    (env : Env) (country : string) (ev : Event) (st : Flow) :
  localStorage (world (step env country ev st)) <> localStorage (world st) ->
  exists h o tokens userInfo w',
    ev = FetchDone h o /\
    handlers st !! h = Some (AwaitUserInfo tokens) /\
    (let* response := deliver o in
     userinfo_continue (provider (oauth st)) response) (world st)
      = (Normal userInfo, w') /\
    localStorage (world (step env country ev st)) =
      <[userinfo_key country (provider_key (provider (oauth st))) :=
          JSON_stringify_userinfo userInfo]>
        (<[auth_key country (provider_key (provider (oauth st))) :=
             JSON_stringify_tokens tokens]> (localStorage (world st))).
Proof.
  destruct ev as [event|h o| | |]; cbn [step].
  - destruct (listening st); [|done].
    by rewrite messageHandler_storage.
  - unfold resume.
    destruct (handlers st !! h) as [[|tokens|]|] eqn:Hh; try done.
    + pose proof (resume_exchange_storage o (world st)) as Hls.
      destruct (try_catch _ exchange_catch (world st)) as [[tk|err] w'];
        cbn [snd] in Hls; unfold send_request, modify;
        cbn [world with_world with_handlers finish_handler localStorage
             with_network]; congruence.
    + pose proof (resume_userinfo_storage (provider (oauth st)) o (world st)) as Hls.
      destruct ((let* response := deliver o in
                 userinfo_continue (provider (oauth st)) response) (world st))
        as [[ui|err] w'] eqn:Hrun; cbn [snd] in Hls.
      * intros _. exists h, o, tokens, ui, w'.
        split; [reflexivity|]. split; [exact Hh|]. split; [exact Hrun|].
        unfold storeAuthTokens, storeUserInfo, setItem, bind, modify.
        cbn [world with_world with_handlers finish_handler localStorage
             with_localStorage oauth].
        by rewrite Hls.
      * cbn [world with_world with_handlers finish_handler]. congruence.
  - destruct (polling st); [|done]. unfold checkClosed.
    by destruct (popup_closed st).
  - destruct (timer st); [|done]. unfold on_timeout.
    by destruct (popup_closed st).
  - done.
Qed.

(** ** Popup flow: cancellation *)

Lemma run_app (env : Env) (country : string) (evs1 evs2 : list Event) (st : Flow) :
  run env country (evs1 ++ evs2) st = run env country evs2 (run env country evs1 st).
Proof. unfold run. apply fold_left_app. Qed.

Lemma messageHandler_passes_over (env : Env) (event : MessageEvent) (st : Flow) :
  terminal_message env event = false ->
  messageHandler env event st = st.
Proof.
  unfold terminal_message, messageHandler.
  destruct (String.eqb (ev_origin event) (origin env)); simpl; [|done].
  destruct (data event) as [d|]; [|done].
  intros [Hs He]%orb_false_elim. by rewrite Hs, He.
Qed.

Lemma waiting_step (env : Env) (country : string) (L : gmap string string)
    (ev : Event) (st : Flow) :
  waiting L st ->
  quiet env ev = true ->
  ev <> Timeout \/ popup_closed st = true ->
  waiting L (step env country ev st) /\
  (popup_closed st = true -> popup_closed (step env country ev st) = true).
Proof.
  intros (Hh & Hl & Hp) Hq Ht.
  assert (Hst : waiting L st) by (by repeat split).
  destruct ev as [event|h o| | |]; cbn [step quiet] in *.
  - apply negb_true_iff in Hq.
    destruct (listening st) eqn:Hli;
      rewrite ?messageHandler_passes_over by done; by split.
  - unfold resume. rewrite Hh. cbn. by split.
  - destruct (polling st) eqn:Hpo; [|by split].
    unfold checkClosed. destruct (popup_closed st) eqn:Hc; [|by split].
    split; [|done]. unfold waiting. cbn.
    split; [done|]. split; [done|]. right.
    destruct Hp as [(-> & _ & _) | (-> & _)]; by split.
  - destruct Ht as [Ht | Hc]; [done|].
    destruct (timer st); [|by split].
    unfold on_timeout. rewrite Hc. cbn. split; [|done].
    unfold waiting. cbn. done.
  - split; [|done]. unfold waiting. cbn. done.
Qed.

Lemma waiting_run (env : Env) (country : string) (L : gmap string string)
    (evs : list Event) :
  forall st,
    waiting L st ->
    Forall (fun ev => quiet env ev = true /\
                      (ev <> Timeout \/ popup_closed st = true)) evs ->
    waiting L (run env country evs st) /\
    (popup_closed st = true -> popup_closed (run env country evs st) = true).
Proof.
  induction evs as [|ev evs IH]; intros st Hw Hall; [done|].
  apply Forall_cons in Hall as [[Hq Ht] Hall].
  destruct (waiting_step env country L ev st Hw Hq Ht) as [Hw' Hc'].
  change (run env country (ev :: evs) st)
    with (run env country evs (step env country ev st)).
  destruct (IH (step env country ev st) Hw') as [Hw'' Hc''].
  - eapply Forall_impl; [exact Hall|]. simpl.
    intros ev' [Hq' [Hne | Hc]]; split; try done; [by left|].
    right. by apply Hc'.
  - split; [done|]. intros Hc. apply Hc''. by apply Hc'.
Qed.

Lemma was_cancelled_step (env : Env) (country : string) (L : gmap string string)
    (ev : Event) (st : Flow) :
  was_cancelled L st -> was_cancelled L (step env country ev st).
Proof.
  intros (Hh & Hl & Hp & Hli).
  destruct ev as [event|h o| | |]; simpl.
  - by rewrite Hli.
  - unfold resume. by rewrite Hh.
  - destruct (polling st); [|done]. unfold checkClosed.
    destruct (popup_closed st); [|done]. unfold was_cancelled. simpl.
    by rewrite Hp.
  - destruct (timer st); [|done]. unfold on_timeout, was_cancelled.
    destruct (popup_closed st); simpl; by rewrite ?Hp.
  - done.
Qed.

Lemma was_cancelled_run (env : Env) (country : string) (L : gmap string string)
    (evs : list Event) :
  forall st, was_cancelled L st -> was_cancelled L (run env country evs st).
Proof.
  induction evs as [|ev evs IH]; intros st Hc; [done|].
  apply (IH (step env country ev st)). by apply was_cancelled_step.
Qed.

Lemma tick_cancels (env : Env) (country : string) (L : gmap string string)
    (st : Flow) :
  waiting L st -> popup_closed st = true ->
  was_cancelled L (step env country Tick st).
Proof.
  intros (Hh & Hl & Hp) Hc. simpl.
  destruct Hp as [(Hp & Hli & Hpo) | (Hp & Hli)].
  - rewrite Hpo. unfold checkClosed. rewrite Hc.
    unfold was_cancelled. simpl. by rewrite Hp.
  - destruct (polling st); [|done]. unfold checkClosed. rewrite Hc.
    unfold was_cancelled. simpl. by rewrite Hp.
Qed.

Lemma getAuthUrl_storage (this : Manager) (w : World) (state : option string) :
  localStorage (snd (snd (getAuthUrl state (this, w)))) = localStorage w.
Proof.
  destruct (decide (clientId (config (mconfig this)) = "")) as [He|Hne].
  - by rewrite (getAuthUrl_unconfigured this w state (or_introl He)).
  - destruct (includes (clientId (config (mconfig this))) "your-") eqn:Hinc.
    + by rewrite (getAuthUrl_unconfigured this w state (or_intror Hinc)).
    + destruct (getAuthUrl_configured this w state Hne Hinc)
        as (u & ch & w' & -> & Hgen).
      destruct (generatePKCEChallenge_run w) as (v & Hrun & _ & _).
      rewrite Hrun in Hgen. by injection Hgen as _ <-.
Qed.

Lemma await_userinfo_origin (env : Env) (country : string) (ev : Event)
    (st : Flow) (h : nat) (tokens : AuthTokens) :
  handlers (step env country ev st) !! h = Some (AwaitUserInfo tokens) ->
  handlers st !! h = Some (AwaitUserInfo tokens) \/
  exists o w',
    ev = FetchDone h o /\
    handlers st !! h = Some AwaitExchange /\
    try_catch (let* response := deliver o in exchange_continue response)
              exchange_catch (world st) = (Normal tokens, w').
Proof.
  destruct ev as [event|h0 o| | |]; simpl.
  - destruct (listening st); [|by left]. unfold messageHandler.
    destruct (negb _); [by left|].
    destruct (data event) as [d|]; [|by left].
    destruct (_ && _).
    + destruct (pkceChallenge (oauth st)); [|by left]. simpl.
      intros [Hin | [_ Hin]]%lookup_app_Some; [by left|].
      by apply list_lookup_singleton_Some in Hin as [_ ?].
    + destruct (is_error_type _); by left.
  - unfold resume.
    destruct (handlers st !! h0) as [[|tk|]|] eqn:Hh0; try by left.
    + destruct (try_catch _ exchange_catch (world st)) as [[tk|err] w'] eqn:Hrun;
        simpl.
      * intros [(-> & [= ->] & _) | (_ & Hin)]%list_lookup_insert_Some;
          [|by left].
        right. by exists o, w'.
      * intros [(_ & ? & _) | (_ & Hin)]%list_lookup_insert_Some;
          [done | by left].
    + destruct ((let* response := deliver o in _) (world st)) as [[ui|err] w'];
        simpl;
        intros [(_ & ? & _) | (_ & Hin)]%list_lookup_insert_Some;
        (done || by left).
  - destruct (polling st); [|by left]. unfold checkClosed.
    destruct (popup_closed st); by left.
  - destruct (timer st); [|by left]. unfold on_timeout.
    destruct (popup_closed st); by left.
  - by left.
Qed.

Lemma popup_opened_waiting (env : Env) (provider : Provider) (country : string)
    (w : World) :
  promise (authenticateWithPopup env provider country true w) = Pending ->
  waiting (localStorage w) (authenticateWithPopup env provider country true w) /\
  popup_closed (authenticateWithPopup env provider country true w) = false.
Proof.
  unfold authenticateWithPopup.
  pose proof (getAuthUrl_storage (createOAuthManager env provider) w
                (Some (country +:+ "_" +:+ Number_toString (clock w)))) as Hls.
  destruct (getAuthUrl _ (createOAuthManager env provider, w))
    as [[u|err] [m w']]; simpl in *; [|done].
  intros _. unfold waiting. simpl. repeat split; try done. by left.
Qed.

(** C5: when the popup is closed while the flow is still waiting (no
    terminal message has arrived, the timeout has not fired), and the
    [checkClosed] interval then fires before any terminal message, the
    promise is rejected with "Authentication cancelled" and the message
    listener is removed; from then on no event changes that, messages have
    no effect, and the store is the one the flow started with, so with no
    token record for the identity [getValidAccessToken] returns null.
    In general a turn of the event loop writes the store only when it
    resumes a handler whose profile request succeeded, and a handler waits
    for a profile only after its token exchange succeeded. *)
Theorem popup_cancellation_stores_nothing
    (env : Env) (prov : Provider) (country : string) (w : World)
    (pre mid post : list Event) :
  let st0 := authenticateWithPopup env prov country true w in
  let st1 := run env country (pre ++ PopupClosedByUser :: mid ++ [Tick]) st0 in
  let st2 := run env country post st1 in
  promise st0 = Pending ->
  Forall (fun ev => quiet env ev = true /\ ev <> Timeout) pre ->
  Forall (fun ev => quiet env ev = true) mid ->
  (promise st1 = Rejected (Error "Authentication cancelled") /\
   listening st1 = false /\
   promise st2 = Rejected (Error "Authentication cancelled") /\
   listening st2 = false /\
   localStorage (world st2) = localStorage w /\
   (forall event, step env country (Message event) st2 = st2) /\
   (localStorage w !! auth_key country (provider_key prov) = None ->
    getValidAccessToken env country prov (world st2) =
      (Normal None, world st2))) /\
  (forall ev st,
     localStorage (world (step env country ev st)) <> localStorage (world st) ->
     exists h o tokens userInfo w',
       ev = FetchDone h o /\
       handlers st !! h = Some (AwaitUserInfo tokens) /\
       (let* response := deliver o in
        userinfo_continue (provider (oauth st)) response) (world st)
         = (Normal userInfo, w') /\
       localStorage (world (step env country ev st)) =
         <[userinfo_key country (provider_key (provider (oauth st))) :=
             JSON_stringify_userinfo userInfo]>
           (<[auth_key country (provider_key (provider (oauth st))) :=
                JSON_stringify_tokens tokens]> (localStorage (world st)))) /\
  (forall ev st h tokens,
     handlers (step env country ev st) !! h = Some (AwaitUserInfo tokens) ->
     handlers st !! h = Some (AwaitUserInfo tokens) \/
     exists o w',
       ev = FetchDone h o /\
       handlers st !! h = Some AwaitExchange /\
       try_catch (let* response := deliver o in exchange_continue response)
                 exchange_catch (world st) = (Normal tokens, w')).
Proof.
  intros st0 st1 st2 Hpending Hpre Hmid.
  split; [|split].
  - destruct (popup_opened_waiting env prov country w Hpending) as [Hw0 _].
    fold st0 in Hw0.
    assert (Hc1 : was_cancelled (localStorage w) st1).
    { subst st1. rewrite run_app.
      destruct (waiting_run env country (localStorage w) pre st0 Hw0) as [Hwa _].
      { eapply Forall_impl; [exact Hpre|]. simpl. intros ev [? ?]. by split; [|left]. }
      set (sa := run env country pre st0) in *.
      change (run env country (PopupClosedByUser :: mid ++ [Tick]) sa)
        with (run env country (mid ++ [Tick])
                (step env country PopupClosedByUser sa)).
      destruct (waiting_step env country (localStorage w) PopupClosedByUser sa Hwa)
        as [Hwb _]; [done | by left |].
      set (sb := step env country PopupClosedByUser sa) in *.
      assert (Hcb : popup_closed sb = true) by done.
      rewrite run_app.
      destruct (waiting_run env country (localStorage w) mid sb Hwb) as [Hwc Hcc].
      { eapply Forall_impl; [exact Hmid|]. simpl. intros ev ?. by split; [|right]. }
      apply tick_cancels; [done|]. by apply Hcc. }
    assert (Hc2 : was_cancelled (localStorage w) st2).
    { subst st2. by apply was_cancelled_run. }
    destruct Hc1 as (_ & _ & Hp1 & Hl1).
    destruct Hc2 as (_ & Hs2 & Hp2 & Hl2).
    repeat split; try done.
    + intros event. simpl. by rewrite Hl2.
    + intros Hnone. unfold getValidAccessToken. unfold bind at 1.
      rewrite getStoredAuthTokens_total. by rewrite Hs2, Hnone.
  - apply storage_written_only_on_success.
  - apply await_userinfo_origin.
Qed.


End Properties.

(** * Further properties of the module *)

Section Coverage.
Context `{Builtins} `{GraphBuiltins}.

(** ** Random strings and the length of the challenge *)

Lemma charset_members_checked :
  forallb (fun i =>
             match String.get i charset with
             | Some c => in_charset charset c
             | None => false
             end)
          (seq 0 66) = true.
Proof. vm_compute. reflexivity. Qed.

Lemma charAt_charset_member (i : nat) :
  (i < 66)%nat ->
  exists c, charAt charset i = String c "" /\
            in_charset charset c = true /\ unreserved c = true.
Proof.
  intros Hi. pose proof charset_members_checked as Hall.
  rewrite forallb_forall in Hall.
  assert (Hin : In i (seq 0 66)) by (apply in_seq; lia).
  specialize (Hall i Hin).
  destruct (charAt_charset i Hi) as (c & Hc & Hu).
  exists c. split; [exact Hc|]. split; [|exact Hu].
  unfold charAt in Hc.
  destruct (String.get i charset) as [c'|]; [|discriminate Hc].
  injection Hc as ->. exact Hall.
Qed.

Lemma generateRandomString_loop_members (n : nat) :
  forall (result : string) (w : World),
    exists s,
      generateRandomString_loop n result w =
        (Normal (result +:+ s), with_draws (draws w + n) w) /\
      String.length s = n /\
      all_chars (in_charset charset) s = true /\
      all_chars unreserved s = true.
Proof.
  induction n as [|n IH]; intros result w.
  - exists "". cbn [generateRandomString_loop]. unfold ret.
    rewrite string_app_nil_r, Nat.add_0_r.
    split; [by destruct w|]. repeat split.
  - rewrite generateRandomString_loop_step.
    destruct (charAt_charset_member
                (floor_scaled (entropy w (draws w) mod two53)
                   (String.length charset))) as (c & Hc & Hm & Hu).
    { apply floor_scaled_lt; [|vm_compute; lia].
      apply N.mod_lt. discriminate. }
    destruct (IH (result +:+ charAt charset
                    (floor_scaled (entropy w (draws w) mod two53)
                       (String.length charset)))
                 (with_draws (S (draws w)) w)) as (s & Hrun & Hlen & Hmem & Hunr).
    rewrite Hrun. exists (String c s). rewrite Hc.
    rewrite string_app_assoc.
    change (draws (with_draws (S (draws w)) w)) with (S (draws w)).
    rewrite with_draws_with_draws.
    replace (S (draws w) + n)%nat with (draws w + S n)%nat by lia.
    split; [reflexivity|]. cbn [String.length all_chars].
    rewrite Hlen, Hm, Hmem, Hu, Hunr. repeat split.
Qed.

(** X1: [generateRandomString(length)] returns, for every length, a string of
    exactly that many characters, each taken from the 66-character charset
    (all of them unreserved), and takes exactly [length] values from
    [Math.random()], one per character, changing nothing else; for length 0
    the result is the empty string and no value is taken. *)
Theorem generateRandomString_length_and_charset (length : nat) (w : World) :
  (exists s,
     generateRandomString length w =
       (Normal s, with_draws (draws w + length) w) /\
     String.length s = length /\
     all_chars (in_charset charset) s = true /\
     all_chars unreserved s = true) /\
  generateRandomString 0 w = (Normal "", w).
Proof.
  split.
  - destruct (generateRandomString_loop_members length "" w)
      as (s & Hrun & Hlen & Hmem & Hunr).
    exists s. unfold generateRandomString. rewrite Hrun, string_app_nil_l.
    repeat split; assumption.
  - reflexivity.
Qed.

Lemma base64url_length (s : string) :
  String.length (base64url_strip_all (btoa s)) =
  ((4 * String.length s + 2) / 3)%nat.
Proof.
  induction s as [| a | a b | a b c rest IH] using string_triples_ind.
  - reflexivity.
  - pose proof (byte_bounded a) as Ha.
    change (btoa (String a "")) with
      (String (b64_char (N_of_ascii a / 4))
         (String (b64_char ((N_of_ascii a mod 4) * 16)) "==")).
    sextet_facts (N_of_ascii a / 4)%N.
    sextet_facts ((N_of_ascii a mod 4) * 16)%N.
    rewrite !strip_all_cons by assumption. reflexivity.
  - pose proof (byte_bounded a) as Ha. pose proof (byte_bounded b) as Hb.
    change (btoa (String a (String b ""))) with
      (String (b64_char (N_of_ascii a / 4))
         (String (b64_char ((N_of_ascii a mod 4) * 16 + N_of_ascii b / 16))
            (String (b64_char ((N_of_ascii b mod 16) * 4)) "="))).
    sextet_facts (N_of_ascii a / 4)%N.
    sextet_facts ((N_of_ascii a mod 4) * 16 + N_of_ascii b / 16)%N.
    sextet_facts ((N_of_ascii b mod 16) * 4)%N.
    rewrite !strip_all_cons by assumption. reflexivity.
  - pose proof (byte_bounded a) as Ha. pose proof (byte_bounded b) as Hb.
    pose proof (byte_bounded c) as Hc.
    change (btoa (String a (String b (String c rest)))) with
      (String (b64_char (N_of_ascii a / 4))
         (String (b64_char ((N_of_ascii a mod 4) * 16 + N_of_ascii b / 16))
            (String (b64_char ((N_of_ascii b mod 16) * 4 + N_of_ascii c / 64))
               (String (b64_char (N_of_ascii c mod 64)) (btoa rest))))).
    sextet_facts (N_of_ascii a / 4)%N.
    sextet_facts ((N_of_ascii a mod 4) * 16 + N_of_ascii b / 16)%N.
    sextet_facts ((N_of_ascii b mod 16) * 4 + N_of_ascii c / 64)%N.
    sextet_facts (N_of_ascii c mod 64)%N.
    rewrite !strip_all_cons by assumption.
    cbn [String.length]. rewrite IH.
    replace (4 * S (S (S (String.length rest))) + 2)%nat
      with ((4 * String.length rest + 2) + 4 * 3)%nat by lia.
    rewrite Nat.div_add by discriminate. lia.
Qed.

(** X2: the code challenge produced by [generatePKCEChallenge] has
    ceil(4n/3) characters for a digest of n bytes; with a 32-byte digest,
    as SHA-256 gives, it has exactly 43 characters. *)
Theorem pkce_challenge_length (w : World) (ch : PKCEChallenge) (w' : World) :
  generatePKCEChallenge w = (Normal ch, w') ->
  String.length (codeChallenge ch) =
    ((4 * String.length (sha256 (codeVerifier ch)) + 2) / 3)%nat /\
  (String.length (sha256 (codeVerifier ch)) = 32%nat ->
   String.length (codeChallenge ch) = 43%nat).
Proof.
  intros Hrun.
  destruct (generatePKCEChallenge_run w) as (v & Hv & _ & _).
  rewrite Hv in Hrun. injection Hrun as <- _. clear Hv.
  cbn [codeChallenge codeVerifier].
  split.
  - apply base64url_length.
  - intros H32. rewrite base64url_length, H32. reflexivity.
Qed.

(** ** The authorization URL of a configured manager *)

Lemma getAuthUrl_success (this : Manager) (w : World) (state : option string) :
  clientId (config (mconfig this)) <> "" ->
  includes (clientId (config (mconfig this))) "your-" = false ->
  exists v,
    String.length v = 128%nat /\
    let ch := {| codeVerifier := v;
                 codeChallenge := base64url_strip_all (btoa (sha256 v)) |} in
    getAuthUrl state (this, w) =
      (Normal
         (authUrl (mconfig this) +:+ "?" +:+
          URLSearchParams_toString
            ([ ("client_id", clientId (config (mconfig this)));
               ("response_type", "code");
               ("scope", join " " (scopes (config (mconfig this))));
               ("redirect_uri", redirectUri (config (mconfig this)));
               ("state",
                if truthy_opt state then default "" state
                else provider_key (provider this) +:+ "_" +:+
                     Number_toString (clock w));
               ("code_challenge", codeChallenge ch);
               ("code_challenge_method", "S256") ] ++
             (if bool_decide (provider this = google)
              then [ ("access_type", "offline"); ("prompt", "consent") ]
              else []))),
       (holding this ch, with_draws (draws w + 128) w)).
Proof.
  intros Hne Hinc.
  assert (Htr : truthy (clientId (config (mconfig this))) = true).
  { by destruct (clientId (config (mconfig this))). }
  assert (Heq : String.eqb (clientId (config (mconfig this))) "" = false).
  { by apply String.eqb_neq. }
  assert (Hany : bool_decide (provider this = microsoft) ||
                 bool_decide (provider this = google) = true).
  { by destruct (provider this). }
  destruct (generatePKCEChallenge_run w) as (v & Hrun & Hlen & _).
  exists v. split; [exact Hlen|]. clear Hlen. cbv zeta.
  unfold getAuthUrl, this_.
  unfold bind at 1. unfold gets at 1. cbv beta iota.
  unfold bind at 1. unfold gets at 1. cbv beta iota.
  cbn [fst snd].
  rewrite Htr, Hinc, Heq, Hany. cbn [negb orb].
  clear Hne Hinc Htr Heq Hany.
  assert (Hstate :
    (if truthy_opt state then ret (default "" state)
     else let* now := in_world Date_now in
          ret (provider_key (provider this) +:+ "_" +:+ Number_toString now))
      (this, w) =
    (Normal (if truthy_opt state then default "" state
             else provider_key (provider this) +:+ "_" +:+
                  Number_toString (clock w)), (this, w))).
  { destruct (truthy_opt state); reflexivity. }
  unfold bind at 1. rewrite Hstate.
  unfold bind at 1. unfold bind at 1. unfold in_world at 1. cbn [fst snd].
  rewrite Hrun. clear Hrun Hstate.
  unfold bind at 1. unfold set_pkceChallenge, modify. cbn [fst snd].
  unfold ret. cbn [codeChallenge].
  destruct (bool_decide (provider this = google)).
  - rewrite <- app_assoc. reflexivity.
  - rewrite app_nil_r. reflexivity.
Qed.

(** X3: on a manager whose client id is configured, [getAuthUrl] takes
    exactly 128 random values, sends nothing and writes nothing to the
    store, places a new challenge with a 128-character verifier on the
    manager, and returns the authorization endpoint, "?", and the encoded
    parameters client_id, response_type=code, scope (the scopes joined by
    spaces), redirect_uri, state, code_challenge (that of the new challenge)
    and code_challenge_method=S256, followed for Google only by
    access_type=offline and prompt=consent. The state is the caller's when
    it is a non-empty string, otherwise the provider, "_" and the clock. *)
Theorem getAuthUrl_builds_url (this : Manager) (w : World) (state : option string) :
  clientId (config (mconfig this)) <> "" ->
  includes (clientId (config (mconfig this))) "your-" = false ->
  exists ch,
    String.length (codeVerifier ch) = 128%nat /\
    base64url_decode (codeChallenge ch) = Some (sha256 (codeVerifier ch)) /\
    getAuthUrl state (this, w) =
      (Normal
         (authUrl (mconfig this) +:+ "?" +:+
          URLSearchParams_toString
            ([ ("client_id", clientId (config (mconfig this)));
               ("response_type", "code");
               ("scope", join " " (scopes (config (mconfig this))));
               ("redirect_uri", redirectUri (config (mconfig this)));
               ("state",
                if truthy_opt state then default "" state
                else provider_key (provider this) +:+ "_" +:+
                     Number_toString (clock w));
               ("code_challenge", codeChallenge ch);
               ("code_challenge_method", "S256") ] ++
             (if bool_decide (provider this = google)
              then [ ("access_type", "offline"); ("prompt", "consent") ]
              else []))),
       (holding this ch, with_draws (draws w + 128) w)).
Proof.
  intros Hne Hinc.
  destruct (getAuthUrl_success this w state Hne Hinc) as (v & Hlen & Hrun).
  exists {| codeVerifier := v;
            codeChallenge := base64url_strip_all (btoa (sha256 v)) |}.
  split; [exact Hlen|]. split; [|exact Hrun].
  apply btoa_url_forms.
Qed.

(** X4: the exchange is bound to the authorization request. After a
    successful [getAuthUrl], an exchange on that manager (in any later
    world) posts one token request whose parameters are the same client id
    and redirect URI as in the authorization URL, the code, the grant type
    authorization_code, and a verifier whose SHA-256 digest, read back from
    base64url, is the code challenge that the URL carried. *)
Theorem exchange_bound_to_auth_url
    (this : Manager) (w later : World) (state : option string) (code : string) :
  clientId (config (mconfig this)) <> "" ->
  includes (clientId (config (mconfig this))) "your-" = false ->
  exists ch params w1 r w2,
    getAuthUrl state (this, w) =
      (Normal (authUrl (mconfig this) +:+ "?" +:+ URLSearchParams_toString params),
       (holding this ch, w1)) /\
    In ("client_id", clientId (config (mconfig this))) params /\
    In ("redirect_uri", redirectUri (config (mconfig this))) params /\
    In ("code_challenge", codeChallenge ch) params /\
    base64url_decode (codeChallenge ch) = Some (sha256 (codeVerifier ch)) /\
    exchangeCodeForTokens code (holding this ch, later) =
      (r, (holding this ch, w2)) /\
    requests w2 = requests later ++
      [ {| url := tokenUrl (mconfig this);
           method := "POST";
           headers := [ ("Content-Type", "application/x-www-form-urlencoded");
                        ("Accept", "application/json") ];
           body := URLSearchParams_toString
             [ ("client_id", clientId (config (mconfig this)));
               ("code", code);
               ("grant_type", "authorization_code");
               ("redirect_uri", redirectUri (config (mconfig this)));
               ("code_verifier", codeVerifier ch) ] |} ].
Proof.
  intros Hne Hinc.
  destruct (getAuthUrl_success this w state Hne Hinc) as (v & Hlen & Hrun).
  set (ch := {| codeVerifier := v;
                codeChallenge := base64url_strip_all (btoa (sha256 v)) |}) in *.
  destruct (exchange_with_challenge (holding this ch) later code ch eq_refl)
    as (r & w2 & Hex & Hreq & _).
  eexists ch, _, _, r, w2.
  split; [exact Hrun|].
  split; [left; reflexivity|].
  split; [do 3 right; left; reflexivity|].
  split; [do 5 right; left; reflexivity|].
  split; [apply btoa_url_forms|].
  split; [exact Hex|exact Hreq].
Qed.

(** ** Outcomes of the code exchange *)

Lemma exchange_answered (this : Manager) (w : World) (code : string)
    (ch : PKCEChallenge) (r : Response) (e : N) (rest : list FetchOutcome) :
  pkceChallenge this = Some ch ->
  network w = Answered r e :: rest ->
  exchangeCodeForTokens code (this, w) =
    match exchange_continue r
            (with_network (clock w + Z.of_N e) rest
               (requests w ++ [exchange_request this ch code]) w) with
    | (Normal t, w2) => (Normal t, (this, w2))
    | (Throw err, w2) =>
        match exchange_catch err w2 with (c, w3) => (c, (this, w3)) end
    end.
Proof.
  intros Hsome Hnet. unfold exchangeCodeForTokens, this_.
  unfold bind at 1. unfold gets at 1. cbn [fst snd]. rewrite Hsome.
  unfold bind at 1. unfold gets at 1. cbn [fst snd].
  unfold in_world, try_catch. cbn [fst snd].
  unfold bind at 1. unfold fetch, send_request, next_outcome, deliver.
  unfold bind, modify.
  cbn [network with_network elapsed_of clock requests]. rewrite Hnet.
  cbn [network with_network elapsed_of clock requests].
  destruct (exchange_continue r _) as [[t|err] w2]; reflexivity.
Qed.

Lemma exchange_unanswered (this : Manager) (w : World) (code : string)
    (ch : PKCEChallenge) (m : string) (e : N) (rest : list FetchOutcome) :
  pkceChallenge this = Some ch ->
  network w = NetworkFailure m e :: rest ->
  exchangeCodeForTokens code (this, w) =
    match exchange_catch (TypeError m)
            (with_network (clock w + Z.of_N e) rest
               (requests w ++ [exchange_request this ch code]) w) with
    | (c, w3) => (c, (this, w3))
    end.
Proof.
  intros Hsome Hnet. unfold exchangeCodeForTokens, this_.
  unfold bind at 1. unfold gets at 1. cbn [fst snd]. rewrite Hsome.
  unfold bind at 1. unfold gets at 1. cbn [fst snd].
  unfold in_world, try_catch. cbn [fst snd].
  unfold bind at 1. unfold fetch, send_request, next_outcome, deliver.
  unfold bind, modify.
  cbn [network with_network elapsed_of clock requests]. rewrite Hnet.
  cbn [network with_network elapsed_of clock requests].
  reflexivity.
Qed.

(** X5: when the token endpoint answers with a non-success status,
    [exchangeCodeForTokens] throws an [Error] chosen by status and body: 400
    with "invalid_grant" in the body gives the invalid-code message (also
    when the body mentions a redirect mismatch as well); 400 with only
    "redirect_uri_mismatch" gives the redirect message; 401 gives the
    authentication message whatever the body; everything else gives
    "Token exchange failed: status statusText - body". The [catch] clause
    passes these on unchanged; one request has been sent, and the manager
    and the store are as before. *)
Theorem exchange_classifies_http_errors
    (this : Manager) (w : World) (code : string) (ch : PKCEChallenge)
    (r : Response) (e : N) (rest : list FetchOutcome) :
  pkceChallenge this = Some ch ->
  network w = Answered r e :: rest ->
  ok r = false ->
  exists msg,
    exchangeCodeForTokens code (this, w) =
      (Throw (Error msg),
       (this, with_network (clock w + Z.of_N e) rest
                (requests w ++ [exchange_request this ch code]) w)) /\
    (status r = 400 -> includes (text r) "invalid_grant" = true ->
     msg = "Invalid authorization code or code expired. Please try authenticating again.") /\
    (status r = 400 -> includes (text r) "invalid_grant" = false ->
     includes (text r) "redirect_uri_mismatch" = true ->
     msg = "Redirect URI mismatch. Please check your OAuth application configuration.") /\
    (status r = 401 ->
     msg = "Authentication failed. Please check your OAuth client configuration.") /\
    (status r <> 401 ->
     status r <> 400 \/
     (includes (text r) "invalid_grant" = false /\
      includes (text r) "redirect_uri_mismatch" = false) ->
     msg = "Token exchange failed: " +:+ Number_toString (status r) +:+ " " +:+
           statusText r +:+ " - " +:+ text r).
Proof.
  intros Hsome Hnet Hok.
  rewrite (exchange_answered this w code ch r e rest Hsome Hnet).
  unfold exchange_continue. rewrite Hok. cbn [negb].
  destruct (status r =? 400) eqn:H400.
  - apply Z.eqb_eq in H400.
    destruct (includes (text r) "invalid_grant") eqn:Hg;
      [|destruct (includes (text r) "redirect_uri_mismatch") eqn:Hm];
      (eexists; split; [reflexivity|]);
      repeat split; intros; try reflexivity; intuition (congruence || lia).
  - apply Z.eqb_neq in H400.
    destruct (status r =? 401) eqn:H401;
      [apply Z.eqb_eq in H401 | apply Z.eqb_neq in H401];
      (eexists; split; [reflexivity|]);
      repeat split; intros; try reflexivity; intuition (congruence || lia).
Qed.

(** X6: when the token request fails in transport, [exchangeCodeForTokens]
    replaces a [TypeError] whose message contains "Failed to fetch" by the
    network-error [Error], and rethrows a [TypeError] with any other
    message as it is; when the endpoint answers with a success status and a
    body that does not parse, the parse error is thrown. In each case one
    request has been sent and the manager, its challenge included, is
    unchanged. *)
Theorem exchange_transport_failures
    (this : Manager) (w : World) (code : string) (ch : PKCEChallenge)
    (e : N) (rest : list FetchOutcome) :
  pkceChallenge this = Some ch ->
  let sent := with_network (clock w + Z.of_N e) rest
                (requests w ++ [exchange_request this ch code]) w in
  (forall m, network w = NetworkFailure m e :: rest ->
     includes m "Failed to fetch" = true ->
     exchangeCodeForTokens code (this, w) =
       (Throw (Error "Network error during authentication. Please check your internet connection and try again."),
        (this, sent))) /\
  (forall m, network w = NetworkFailure m e :: rest ->
     includes m "Failed to fetch" = false ->
     exchangeCodeForTokens code (this, w) = (Throw (TypeError m), (this, sent))) /\
  (forall r, network w = Answered r e :: rest ->
     ok r = true -> JSON_parse_token_response (text r) = None ->
     exists m, exchangeCodeForTokens code (this, w) =
                 (Throw (SyntaxError m), (this, sent))).
Proof.
  intros Hsome sent. repeat split.
  - intros m Hnet Hinc.
    rewrite (exchange_unanswered this w code ch m e rest Hsome Hnet).
    unfold exchange_catch. rewrite Hinc. reflexivity.
  - intros m Hnet Hinc.
    rewrite (exchange_unanswered this w code ch m e rest Hsome Hnet).
    unfold exchange_catch. rewrite Hinc. reflexivity.
  - intros r Hnet Hok Hparse.
    rewrite (exchange_answered this w code ch r e rest Hsome Hnet).
    unfold exchange_continue. rewrite Hok, Hparse. cbn [negb].
    eexists. reflexivity.
Qed.

(** X7: when the token endpoint answers with a success status and a body
    that parses, [exchangeCodeForTokens] returns the access token, the
    refresh token (if any) and the lifetime of the body, with [expiresAt]
    equal to the clock at completion plus the lifetime in milliseconds. At
    that instant the tokens are expired exactly when the lifetime is zero or
    negative, and expiring soon exactly when it is at most 300 seconds. *)
Theorem exchange_success_and_expiry
    (this : Manager) (w : World) (code : string) (ch : PKCEChallenge)
    (r : Response) (e : N) (rest : list FetchOutcome) (data : TokenResponse) :
  pkceChallenge this = Some ch ->
  network w = Answered r e :: rest ->
  ok r = true ->
  JSON_parse_token_response (text r) = Some data ->
  let w' := with_network (clock w + Z.of_N e) rest
              (requests w ++ [exchange_request this ch code]) w in
  let tokens := {| accessToken := access_token data;
                   refreshToken := refresh_token data;
                   expiresIn := expires_in data;
                   expiresAt := clock w + Z.of_N e + expires_in data * 1000 |} in
  exchangeCodeForTokens code (this, w) = (Normal tokens, (this, w')) /\
  isTokenExpired tokens w' = (Normal (expires_in data <=? 0), w') /\
  isTokenExpiringSoon tokens w' = (Normal (expires_in data <=? 300), w').
Proof.
  intros Hsome Hnet Hok Hparse w' tokens.
  split; [|split].
  - rewrite (exchange_answered this w code ch r e rest Hsome Hnet).
    unfold exchange_continue. rewrite Hok, Hparse. cbn [negb].
    reflexivity.
  - unfold isTokenExpired, Date_now, bind, gets, ret, isTokenExpired_at.
    cbn [clock w' with_network expiresAt tokens]. f_equal. f_equal.
    destruct (expires_in data <=? 0) eqn:E.
    + apply Z.leb_le in E. apply Z.geb_le. lia.
    + apply Z.leb_gt in E. rewrite Z.geb_leb. apply Z.leb_gt. lia.
  - unfold isTokenExpiringSoon, Date_now, bind, gets, ret, isTokenExpiringSoon_at.
    cbn [clock w' with_network expiresAt tokens]. f_equal. f_equal.
    destruct (expires_in data <=? 300) eqn:E.
    + apply Z.leb_le in E. apply Z.geb_le. lia.
    + apply Z.leb_gt in E. rewrite Z.geb_leb. apply Z.leb_gt. lia.
Qed.

(** ** Profile retrieval *)

Lemma fetch_run (req : Request) (w : World) :
  fetch req w =
    match network w with
    | [] =>
        (Throw (TypeError "Failed to fetch"),
         with_network (clock w + 0) [] (requests w ++ [req]) w)
    | NetworkFailure m e :: rest =>
        (Throw (TypeError m),
         with_network (clock w + Z.of_N e) rest (requests w ++ [req]) w)
    | Answered r e :: rest =>
        (Normal r,
         with_network (clock w + Z.of_N e) rest (requests w ++ [req]) w)
    end.
Proof.
  unfold fetch, send_request, next_outcome, deliver, bind, modify.
  cbn [network with_network elapsed_of clock requests].
  destruct (network w) as [|[m e|r e] rest]; reflexivity.
Qed.

Lemma getUserInfo_run (this : Manager) (w : World) (token : string) :
  getUserInfo token (this, w) =
    match fetch (userinfo_request this token) w with
    | (Normal r, w1) =>
        match userinfo_continue (provider this) r w1 with
        | (c, w2) => (c, (this, w2))
        end
    | (Throw err, w1) => (Throw err, (this, w1))
    end.
Proof.
  unfold getUserInfo. unfold bind at 1. unfold gets at 1. cbn [fst snd].
  unfold in_world. cbn [fst snd]. unfold bind.
  destruct (fetch (userinfo_request this token) w) as [[r|err] w1];
    [|reflexivity].
  destruct (userinfo_continue (provider this) r w1) as [c w2]. reflexivity.
Qed.

(** X8: [getUserInfo] sends one GET to the provider's profile endpoint with
    the header "Authorization: Bearer <token>". A non-success answer throws
    "Failed to get user info: status statusText - body"; a transport
    failure is not caught. On success the Google profile is copied field by
    field, while for Microsoft the e-mail is [mail] when that is a
    non-empty string and [userPrincipalName] otherwise, the name is
    [displayName] and the picture is [photo.value]. The manager and the
    store are never changed. *)
Theorem getUserInfo_normalizes_profile
    (this : Manager) (w : World) (token : string)
    (e : N) (rest : list FetchOutcome) :
  let sent := with_network (clock w + Z.of_N e) rest
                (requests w ++
                 [ {| url := userInfoUrl (mconfig this); method := "GET";
                      headers := [ ("Authorization", "Bearer " +:+ token) ];
                      body := "" |} ]) w in
  (forall m, network w = NetworkFailure m e :: rest ->
     getUserInfo token (this, w) = (Throw (TypeError m), (this, sent))) /\
  (forall r, network w = Answered r e :: rest -> ok r = false ->
     getUserInfo token (this, w) =
       (Throw (Error ("Failed to get user info: " +:+ Number_toString (status r)
                      +:+ " " +:+ statusText r +:+ " - " +:+ text r)),
        (this, sent))) /\
  (forall r data, network w = Answered r e :: rest -> ok r = true ->
     JSON_parse_profile (text r) = Some data ->
     provider this = google ->
     getUserInfo token (this, w) =
       (Normal {| id := p_id data; email := p_email data;
                  uname := p_name data; picture := p_picture data |},
        (this, sent))) /\
  (forall r data, network w = Answered r e :: rest -> ok r = true ->
     JSON_parse_profile (text r) = Some data ->
     provider this = microsoft ->
     getUserInfo token (this, w) =
       (Normal {| id := p_id data;
                  email := if truthy_opt (p_mail data) then p_mail data
                           else p_userPrincipalName data;
                  uname := p_displayName data;
                  picture := p_photo_value data |},
        (this, sent))).
Proof.
  intros sent. repeat split.
  - intros m Hnet. rewrite getUserInfo_run, fetch_run, Hnet. reflexivity.
  - intros r Hnet Hok. rewrite getUserInfo_run, fetch_run, Hnet.
    unfold userinfo_continue. rewrite Hok. reflexivity.
  - intros r data Hnet Hok Hparse Hprov.
    rewrite getUserInfo_run, fetch_run, Hnet.
    unfold userinfo_continue. rewrite Hok, Hparse, Hprov. reflexivity.
  - intros r data Hnet Hok Hparse Hprov.
    rewrite getUserInfo_run, fetch_run, Hnet.
    unfold userinfo_continue. rewrite Hok, Hparse, Hprov. reflexivity.
Qed.

(** ** Sending e-mail *)

Lemma gmail_message_run (emailData : EmailData) (w : World) :
  exists message w1,
    gmail_message emailData w = (Normal message, w1) /\
    network w1 = network w /\ requests w1 = requests w /\
    clock w1 = clock w /\ localStorage w1 = localStorage w /\
    (w1 = w \/ w1 = with_draws (S (draws w)) w).
Proof.
  unfold gmail_message.
  destruct (attachments emailData) as [[|a rest]|].
  - eexists _, w. split; [reflexivity|]. repeat split. by left.
  - eexists _, _. split; [reflexivity|]. repeat split. by right.
  - eexists _, w. split; [reflexivity|]. repeat split. by left.
Qed.

(** X9: [sendEmail] posts exactly one request, to the Gmail endpoint for a
    Google manager and to the Graph endpoint otherwise, with the bearer
    token and a JSON content type. Its result is the success flag of the
    answer, whatever the status and the body: a refusal by the provider
    gives false, not an exception; only a transport failure throws, and it
    is not caught. The manager and the store are unchanged. *)
Theorem sendEmail_reports_http_status
    (this : Manager) (w : World) (token : string) (emailData : EmailData) :
  exists c w' req,
    sendEmail token emailData (this, w) = (c, (this, w')) /\
    requests w' = requests w ++ [req] /\
    localStorage w' = localStorage w /\
    url req = (if bool_decide (provider this = google)
               then "https://gmail.googleapis.com/gmail/v1/users/me/messages/send"
               else "https://graph.microsoft.com/v1.0/me/sendMail") /\
    method req = "POST" /\
    headers req = [ ("Authorization", "Bearer " +:+ token);
                    ("Content-Type", "application/json") ] /\
    c = match network w with
        | Answered r _ :: _ => Normal (ok r)
        | NetworkFailure m _ :: _ => Throw (TypeError m)
        | [] => Throw (TypeError "Failed to fetch")
        end.
Proof.
  unfold sendEmail, this_. unfold bind at 1. unfold gets at 1. cbn [fst snd].
  destruct (bool_decide (provider this = google)).
  - unfold in_world. cbn [fst snd]. unfold sendGmailEmail.
    destruct (gmail_message_run emailData w)
      as (message & w1 & Hmsg & Hnet & Hreq & _ & Hls & _).
    unfold bind at 1. rewrite Hmsg. unfold bind at 1. rewrite fetch_run, Hnet.
    destruct (network w) as [|[m e|r e] rest];
      eexists _, _, _; (split; [reflexivity|]);
      cbn [requests localStorage with_network]; rewrite Hreq, Hls;
      repeat split.
  - unfold in_world. cbn [fst snd]. unfold sendOutlookEmail.
    unfold bind at 1. rewrite fetch_run.
    destruct (network w) as [|[m e|r e] rest];
      eexists _, _, _; (split; [reflexivity|]); repeat split.
Qed.

(** X10: without attachments (the property absent, or an empty list)
    [sendGmailEmail] takes no random value and builds the plain message: the
    To line with the recipients joined by ", ", the Subject line, the HTML
    content type, an empty line and the body. The encoded message is made
    of characters of the URL-safe Base64 alphabet and reads back as exactly
    that message, and the one request sent is a POST to the Gmail send
    endpoint with the bearer token and the JSON content type, whose body is
    the JSON object with the single field "raw" holding the encoded
    message. *)
Theorem gmail_plain_message
    (token : string) (emailData : EmailData) (w : World) :
  attachments emailData = None \/ attachments emailData = Some [] ->
  let message :=
    "To: " +:+ join ", " (to emailData) +:+ LF +:+
    "Subject: " +:+ subject emailData +:+ LF +:+
    "Content-Type: text/html; charset=utf-8" +:+ LF +:+ LF +:+
    ebody emailData in
  gmail_message emailData w = (Normal message, w) /\
  base64url_decode (gmail_encode message) = Some message /\
  all_chars (in_charset b64url_alphabet) (gmail_encode message) = true /\
  requests (snd (sendGmailEmail token emailData w)) =
    requests w ++
    [ {| url := "https://gmail.googleapis.com/gmail/v1/users/me/messages/send";
         method := "POST";
         headers := [ ("Authorization", "Bearer " +:+ token);
                      ("Content-Type", "application/json") ];
         body := "{" +:+ dquote +:+ "raw" +:+ dquote +:+ ":" +:+ dquote +:+
                 gmail_encode message +:+ dquote +:+ "}" |} ] /\
  draws (snd (sendGmailEmail token emailData w)) = draws w.
Proof.
  intros Hnone message.
  assert (Hmsg : gmail_message emailData w = (Normal message, w)).
  { unfold gmail_message.
    assert (Hshape : simple_message emailData = message).
    { unfold simple_message, message. cbn [join].
      rewrite !string_app_assoc, !string_app_nil_l. reflexivity. }
    destruct Hnone as [-> | ->]; unfold ret; by rewrite Hshape. }
  destruct (btoa_url_forms message) as (Hsame & Hdec & Hurl).
  split; [exact Hmsg|].
  unfold gmail_encode at 1 2. rewrite Hsame.
  split; [exact Hdec|]. split; [exact Hurl|].
  unfold sendGmailEmail. unfold bind at 1 3. rewrite Hmsg.
  unfold bind. rewrite fetch_run.
  destruct (network w) as [|[m e|r e] rest]; split; reflexivity.
Qed.

(** X11: [sendOutlookEmail] posts the Graph envelope: the subject, an HTML
    body with the message body as content, and one recipient per address
    in the order given. The envelope has an attachments property only when
    the attachment list is present and non-empty, and then it lists one
    file attachment per attachment, in order, with its name, content type
    and content. *)
Theorem outlook_envelope_contents
    (token : string) (emailData : EmailData) (w : World) :
  let m := sm_message (outlook_envelope emailData) in
  requests (snd (sendOutlookEmail token emailData w)) =
    requests w ++
    [ {| url := "https://graph.microsoft.com/v1.0/me/sendMail";
         method := "POST";
         headers := [ ("Authorization", "Bearer " +:+ token);
                      ("Content-Type", "application/json") ];
         body := JSON_stringify_sendMail (outlook_envelope emailData) |} ] /\
  gm_subject m = subject emailData /\
  gm_body m = {| ib_contentType := "HTML"; ib_content := ebody emailData |} /\
  map (fun r => address (emailAddress r)) (toRecipients m) = to emailData /\
  (attachments emailData = None \/ attachments emailData = Some [] ->
   gm_attachments m = None) /\
  (forall atts, attachments emailData = Some atts -> atts <> [] ->
     exists files,
       gm_attachments m = Some files /\
       length files = length atts /\
       map fa_name files = map filename atts /\
       map fa_contentType files = map contentType atts /\
       map contentBytes files = map content atts /\
       Forall (fun f => odata_type f = "#microsoft.graph.fileAttachment") files).
Proof.
  intros m. subst m. split.
  { unfold sendOutlookEmail, bind. rewrite fetch_run.
    destruct (network w) as [|[msg e|r e] rest]; reflexivity. }
  unfold outlook_envelope.
  assert (Hto : forall l : list string,
            map (fun r => address (emailAddress r))
                (map (fun email => {| emailAddress := {| address := email |} |}) l)
            = l).
  { intros l. rewrite map_map. cbn [address emailAddress]. apply map_id. }
  destruct (attachments emailData) as [[|a rest]|] eqn:Hatts;
    cbn [sm_message gm_subject gm_body toRecipients gm_attachments].
  - split; [reflexivity|]. split; [reflexivity|]. split; [apply Hto|].
    split; [reflexivity|]. intros atts [= <-] Hne. by destruct Hne.
  - split; [reflexivity|]. split; [reflexivity|]. split; [apply Hto|].
    split; [intros [?|?]; discriminate|].
    intros atts [= <-] _. eexists. split; [reflexivity|].
    rewrite length_map, !map_map.
    cbn [fa_name fa_contentType contentBytes].
    repeat split.
    apply Forall_map. apply Forall_forall. intros; reflexivity.
  - split; [reflexivity|]. split; [reflexivity|]. split; [apply Hto|].
    split; [reflexivity|]. intros atts Hsome. discriminate Hsome.
Qed.

(** ** The store: round trips and keys *)

Lemma stored_tokens_lookup (country provider : string) (w : World) (s : string)
    (t : AuthTokens) :
  localStorage w !! auth_key country provider = Some s ->
  s <> "" ->
  JSON_parse_tokens s = Some (Some t) ->
  getStoredAuthTokens country provider w = (Normal (Some t), w).
Proof.
  intros Hl Hne Hp. rewrite getStoredAuthTokens_total, Hl.
  destruct s; [by destruct Hne|]. cbn [truthy]. by rewrite Hp.
Qed.

Lemma stored_tokens_absent (country provider : string) (w : World) :
  localStorage w !! auth_key country provider = None ->
  getStoredAuthTokens country provider w = (Normal None, w).
Proof. intros Hl. by rewrite getStoredAuthTokens_total, Hl. Qed.

Lemma stored_userinfo_lookup (country provider : string) (w : World) (s : string)
    (u : UserInfo) :
  localStorage w !! userinfo_key country provider = Some s ->
  s <> "" ->
  JSON_parse_userinfo s = Some (Some u) ->
  getStoredUserInfo country provider w = (Normal (Some u), w).
Proof.
  intros Hl Hne Hp. rewrite getStoredUserInfo_total, Hl.
  destruct s; [by destruct Hne|]. cbn [truthy]. by rewrite Hp.
Qed.

Lemma stored_userinfo_absent (country provider : string) (w : World) :
  localStorage w !! userinfo_key country provider = None ->
  getStoredUserInfo country provider w = (Normal None, w).
Proof. intros Hl. by rewrite getStoredUserInfo_total, Hl. Qed.

(** X12: tokens written by [storeAuthTokens] are read back by
    [getStoredAuthTokens] for the same identity, provided the platform's
    JSON reads back what it printed for them; a second store replaces the
    first; storing or clearing the user info of the identity does not
    disturb them; after [clearAuthTokens] the read gives null. *)
Theorem tokens_round_trip
    (country provider : string) (t t0 : AuthTokens) (u : UserInfo) (w : World) :
  JSON_stringify_tokens t <> "" ->
  JSON_parse_tokens (JSON_stringify_tokens t) = Some (Some t) ->
  let stored := snd (storeAuthTokens country provider t w) in
  getStoredAuthTokens country provider stored = (Normal (Some t), stored) /\
  fst (getStoredAuthTokens country provider
         (snd (storeAuthTokens country provider t
                 (snd (storeAuthTokens country provider t0 w))))) =
    Normal (Some t) /\
  fst (getStoredAuthTokens country provider
         (snd (storeUserInfo country provider u stored))) = Normal (Some t) /\
  fst (getStoredAuthTokens country provider
         (snd (clearUserInfo country provider stored))) = Normal (Some t) /\
  fst (getStoredAuthTokens country provider
         (snd (clearAuthTokens country provider stored))) = Normal None.
Proof.
  intros Hne Hparse stored. subst stored.
  pose proof (auth_key_not_userinfo_key country country provider provider) as Hau.
  repeat split.
  - apply (stored_tokens_lookup _ _ _ (JSON_stringify_tokens t)); try assumption.
    unfold storeAuthTokens, setItem, modify. cbn [snd localStorage with_localStorage].
    apply lookup_insert_eq.
  - rewrite (stored_tokens_lookup _ _ _ (JSON_stringify_tokens t) t);
      try assumption; [reflexivity|].
    unfold storeAuthTokens, setItem, modify. cbn [snd localStorage with_localStorage].
    apply lookup_insert_eq.
  - rewrite (stored_tokens_lookup _ _ _ (JSON_stringify_tokens t) t);
      try assumption; [reflexivity|].
    unfold storeUserInfo, storeAuthTokens, setItem, modify.
    cbn [snd localStorage with_localStorage].
    rewrite lookup_insert_ne by congruence. apply lookup_insert_eq.
  - rewrite (stored_tokens_lookup _ _ _ (JSON_stringify_tokens t) t);
      try assumption; [reflexivity|].
    unfold clearUserInfo, storeAuthTokens, removeItem, setItem, modify.
    cbn [snd localStorage with_localStorage].
    rewrite lookup_delete_ne by congruence. apply lookup_insert_eq.
  - rewrite stored_tokens_absent; [reflexivity|].
    unfold clearAuthTokens, clearUserInfo, storeAuthTokens, removeItem, setItem,
      bind, modify.
    cbn [snd localStorage with_localStorage].
    rewrite lookup_delete_ne by congruence. apply lookup_delete_eq.
Qed.

(** X13: user info written by [storeUserInfo] is read back by
    [getStoredUserInfo] for the same identity, provided the platform's JSON
    reads back what it printed for it; storing tokens for the identity does
    not disturb it; [clearUserInfo] removes it and leaves the tokens, while
    [clearAuthTokens] removes it together with the tokens. *)
Theorem userinfo_round_trip
    (country provider : string) (t : AuthTokens) (u : UserInfo) (w : World) :
  JSON_stringify_userinfo u <> "" ->
  JSON_parse_userinfo (JSON_stringify_userinfo u) = Some (Some u) ->
  let stored := snd (storeUserInfo country provider u w) in
  getStoredUserInfo country provider stored = (Normal (Some u), stored) /\
  fst (getStoredUserInfo country provider
         (snd (storeAuthTokens country provider t stored))) = Normal (Some u) /\
  fst (getStoredUserInfo country provider
         (snd (clearUserInfo country provider stored))) = Normal None /\
  localStorage (snd (clearUserInfo country provider stored))
    !! auth_key country provider = localStorage w !! auth_key country provider /\
  fst (getStoredUserInfo country provider
         (snd (clearAuthTokens country provider stored))) = Normal None.
Proof.
  intros Hne Hparse stored. subst stored.
  pose proof (auth_key_not_userinfo_key country country provider provider) as Hau.
  repeat split.
  - apply (stored_userinfo_lookup _ _ _ (JSON_stringify_userinfo u)); try assumption.
    unfold storeUserInfo, setItem, modify. cbn [snd localStorage with_localStorage].
    apply lookup_insert_eq.
  - rewrite (stored_userinfo_lookup _ _ _ (JSON_stringify_userinfo u) u);
      try assumption; [reflexivity|].
    unfold storeAuthTokens, storeUserInfo, setItem, modify.
    cbn [snd localStorage with_localStorage].
    rewrite lookup_insert_ne by congruence. apply lookup_insert_eq.
  - rewrite stored_userinfo_absent; [reflexivity|].
    unfold clearUserInfo, storeUserInfo, removeItem, setItem, modify.
    cbn [snd localStorage with_localStorage].
    apply lookup_delete_eq.
  - unfold clearUserInfo, removeItem, storeUserInfo, setItem, modify.
    cbn [snd localStorage with_localStorage].
    rewrite lookup_delete_ne, lookup_insert_ne by congruence. reflexivity.
  - rewrite stored_userinfo_absent; [reflexivity|].
    unfold clearAuthTokens, clearUserInfo, storeUserInfo, removeItem, setItem,
      bind, modify.
    cbn [snd localStorage with_localStorage].
    apply lookup_delete_eq.
Qed.

(** X14: the storage keys are plain concatenations with "_" and the
    separator is not escaped: for arbitrary strings the identity
    (c_p, q) has the same token key and the same user-info key as the
    identity (c, p_q), so what is stored under one is read under the other.
    (With the provider restricted to google and microsoft this cannot
    happen.) *)
Theorem storage_keys_concatenate (c p q : string) (t : AuthTokens) (w : World) :
  auth_key (c +:+ "_" +:+ p) q = auth_key c (p +:+ "_" +:+ q) /\
  userinfo_key (c +:+ "_" +:+ p) q = userinfo_key c (p +:+ "_" +:+ q) /\
  getStoredAuthTokens c (p +:+ "_" +:+ q) w =
    getStoredAuthTokens (c +:+ "_" +:+ p) q w /\
  localStorage (snd (storeAuthTokens (c +:+ "_" +:+ p) q t w))
    !! auth_key c (p +:+ "_" +:+ q) = Some (JSON_stringify_tokens t).
Proof.
  assert (Ha : auth_key (c +:+ "_" +:+ p) q = auth_key c (p +:+ "_" +:+ q)).
  { unfold auth_key. by rewrite !string_app_assoc. }
  assert (Hu : userinfo_key (c +:+ "_" +:+ p) q = userinfo_key c (p +:+ "_" +:+ q)).
  { unfold userinfo_key. by rewrite !string_app_assoc. }
  split; [exact Ha|]. split; [exact Hu|]. split.
  - rewrite !getStoredAuthTokens_total. by rewrite Ha.
  - unfold storeAuthTokens, setItem, modify. cbn [snd localStorage with_localStorage].
    rewrite Ha. apply lookup_insert_eq.
Qed.

(** ** Refresh and the lifecycle, as a whole *)

Lemma refreshMicrosoftToken_run (env : Env) (country rt : string) (w : World) :
  refreshMicrosoftToken env country rt w =
    if negb (truthy_opt (REACT_APP_MICROSOFT_CLIENT_ID env)) then (Normal None, w)
    else
      match fetch (refresh_request env rt) w with
      | (Normal r, w1) =>
          if negb (ok r) then (Normal None, w1)
          else
            match JSON_parse_token_response (text r) with
            | None => (Normal None, w1)
            | Some data =>
                let newTokens :=
                  {| accessToken := access_token data;
                     refreshToken := or_else (refresh_token data) (Some rt);
                     expiresIn := expires_in data;
                     expiresAt := clock w1 + expires_in data * 1000 |} in
                (Normal (Some newTokens),
                 with_localStorage
                   (fun m => <[auth_key country "microsoft" :=
                                 JSON_stringify_tokens newTokens]> m) w1)
            end
      | (Throw _, w1) => (Normal None, w1)
      end.
Proof.
  unfold refreshMicrosoftToken.
  destruct (negb (truthy_opt (REACT_APP_MICROSOFT_CLIENT_ID env))).
  - reflexivity.
  - unfold try_catch. unfold bind at 1.
    change (fetch _ w) with (fetch (refresh_request env rt) w).
    destruct (fetch (refresh_request env rt) w) as [[r|err] w1]; [|reflexivity].
    destruct (negb (ok r)); [reflexivity|].
    destruct (JSON_parse_token_response (text r)) as [data|]; reflexivity.
Qed.


(** What a refresh does to the store. *)
Lemma refreshMicrosoftToken_storage (env : Env) (country rt : string) (w : World) :
  exists r w',
    refreshMicrosoftToken env country rt w = (Normal r, w') /\
    (r = None -> localStorage w' = localStorage w) /\
    (forall nt, r = Some nt ->
       localStorage w' =
         <[auth_key country "microsoft" := JSON_stringify_tokens nt]> (localStorage w)).
Proof.
  rewrite refreshMicrosoftToken_run.
  destruct (negb (truthy_opt (REACT_APP_MICROSOFT_CLIENT_ID env))).
  { eexists _, _. split; [reflexivity|]. split; [reflexivity | discriminate]. }
  pose proof (fetch_requests (refresh_request env rt) w) as (_ & _ & Hls).
  destruct (fetch (refresh_request env rt) w) as [[r|err] w1]; cbn [snd] in Hls.
  - destruct (negb (ok r)).
    { eexists _, _. split; [reflexivity|]. split; [by intros _ | discriminate]. }
    destruct (JSON_parse_token_response (text r)) as [data|].
    + eexists _, _. split; [reflexivity|]. split; [discriminate|].
      intros nt [= <-]. cbn [localStorage with_localStorage]. by rewrite Hls.
    + eexists _, _. split; [reflexivity|]. split; [by intros _ | discriminate].
  - eexists _, _. split; [reflexivity|]. split; [by intros _ | discriminate].
Qed.

(** What [clearAuthTokens] leaves of a world. *)
Lemma clearAuthTokens_run (country provider : string) (w : World) :
  clearAuthTokens country provider w =
    (Normal tt,
     with_localStorage
       (fun m => delete (userinfo_key country provider)
                   (delete (auth_key country provider) m)) w).
Proof. reflexivity. Qed.

Lemma getValidAccessToken_run (env : Env) (country : string) (p : Provider)
    (w : World) :
  getValidAccessToken env country p w =
    match fst (getStoredAuthTokens country (provider_key p) w) with
    | Normal None => (Normal None, w)
    | Throw e => (Throw e, w)
    | Normal (Some t) =>
        if negb (clock w >=? expiresAt t) then (Normal (Some (accessToken t)), w)
        else if bool_decide (p = microsoft) && truthy_opt (refreshToken t) then
          match refreshMicrosoftToken env country (default "" (refreshToken t)) w with
          | (Normal (Some nt), w1) => (Normal (Some (accessToken nt)), w1)
          | (Normal None, w1) =>
              (Normal None,
               with_localStorage
                 (fun m => delete (userinfo_key country (provider_key p))
                             (delete (auth_key country (provider_key p)) m)) w1)
          | (Throw e, w1) => (Throw e, w1)
          end
        else
          (Normal None,
           with_localStorage
             (fun m => delete (userinfo_key country (provider_key p))
                         (delete (auth_key country (provider_key p)) m)) w)
    end.
Proof.
  unfold getValidAccessToken. unfold bind at 1.
  pose proof (getStoredAuthTokens_total country (provider_key p) w) as Hst.
  destruct (getStoredAuthTokens country (provider_key p) w) as [c w0].
  injection Hst as Hc Hw0. subst w0. cbn [fst]. clear Hc.
  destruct c as [[t|]|e]; [|reflexivity|reflexivity].
  unfold bind at 1. unfold isTokenExpired, Date_now, isTokenExpired_at.
  unfold bind at 1. unfold gets, ret. cbv beta iota.
  destruct (negb (clock w >=? expiresAt t)); [reflexivity|].
  destruct (bool_decide (p = microsoft) && truthy_opt (refreshToken t)).
  - unfold bind at 1.
    destruct (refreshMicrosoftToken env country (default "" (refreshToken t)) w)
      as [[[nt|]|e] w1]; reflexivity.
  - reflexivity.
Qed.

(** The store after a call of [getValidAccessToken]: unchanged, or with
    both records of the identity removed, or with the token record of the
    identity replaced. *)
Lemma getValidAccessToken_outcomes (env : Env) (country : string) (p : Provider)
    (w : World) :
  exists r w',
    getValidAccessToken env country p w = (Normal r, w') /\
    (r = None ->
       (w' = w /\ getStoredAuthTokens country (provider_key p) w = (Normal None, w)) \/
       localStorage w' =
         delete (userinfo_key country (provider_key p))
           (delete (auth_key country (provider_key p)) (localStorage w))) /\
    (r <> None ->
       localStorage w' = localStorage w \/
       exists v, localStorage w' =
                   <[auth_key country (provider_key p) := v]> (localStorage w)).
Proof.
  rewrite getValidAccessToken_run.
  pose proof (getStoredAuthTokens_total country (provider_key p) w) as Hst.
  destruct (getStoredAuthTokens country (provider_key p) w) as [c w0].
  injection Hst as Hc Hw0. subst w0. cbn [fst].
  destruct c as [[t|]|e].
  - destruct (negb (clock w >=? expiresAt t)).
    { eexists _, _. split; [reflexivity|]. split; [discriminate|]. by left. }
    destruct (bool_decide (p = microsoft) && truthy_opt (refreshToken t)) eqn:Hms.
    + apply andb_prop in Hms as [Hp _]. apply bool_decide_eq_true in Hp. subst p.
      destruct (refreshMicrosoftToken_storage env country
                  (default "" (refreshToken t)) w)
        as (r & w1 & Hrun & Hnone & Hsome).
      rewrite Hrun. destruct r as [nt|].
      * eexists _, _. split; [reflexivity|]. split; [discriminate|].
        intros _. right. eexists. exact (Hsome nt eq_refl).
      * eexists _, _. split; [reflexivity|]. split; [|by intros []].
        intros _. right. cbn [localStorage with_localStorage].
        by rewrite (Hnone eq_refl).
    + eexists _, _. split; [reflexivity|]. split; [|by intros []].
      intros _. by right.
  - eexists _, _. split; [reflexivity|]. split; [|by intros []].
    intros _. left. split; reflexivity.
  - discriminate Hc.
Qed.

(** X16: [getValidAccessToken] never throws, and whatever it does (return
    the stored token, refresh it, or clear the identity) it leaves the
    token record and the user-info record of every other identity as they
    were. *)
Theorem getValidAccessToken_touches_own_identity_only
    (env : Env) (country country' : string) (p p' : Provider) (w : World) :
  (country, p) <> (country', p') ->
  exists r w',
    getValidAccessToken env country p w = (Normal r, w') /\
    localStorage w' !! auth_key country' (provider_key p') =
      localStorage w !! auth_key country' (provider_key p') /\
    localStorage w' !! userinfo_key country' (provider_key p') =
      localStorage w !! userinfo_key country' (provider_key p').
Proof.
  intros Hne.
  assert (Ha : auth_key country (provider_key p) <>
               auth_key country' (provider_key p')).
  { intros E. apply auth_key_inj in E as [-> ->]. by apply Hne. }
  assert (Hu : userinfo_key country (provider_key p) <>
               userinfo_key country' (provider_key p')).
  { intros E. apply userinfo_key_inj in E as [-> ->]. by apply Hne. }
  pose proof (auth_key_not_userinfo_key country country'
                (provider_key p) (provider_key p')) as Hau.
  pose proof (auth_key_not_userinfo_key country' country
                (provider_key p') (provider_key p)) as Hua.
  destruct (getValidAccessToken_outcomes env country p w)
    as (r & w' & Hrun & Hnone & Hsome).
  exists r, w'. split; [exact Hrun|].
  destruct r as [tok|].
  - destruct Hsome as [-> | (v & ->)]; [discriminate|by split|].
    split; rewrite lookup_insert_ne by congruence; reflexivity.
  - destruct (Hnone eq_refl) as [[-> _] | ->]; [by split|].
    split; rewrite !lookup_delete_ne by congruence; reflexivity.
Qed.

(** X17: null is final. Once [getValidAccessToken] has returned null for
    an identity, calling it again returns null again and changes nothing,
    so it sends no request: only a new sign-in brings a token back. *)
Theorem getValidAccessToken_null_is_final
    (env : Env) (country : string) (p : Provider) (w w' : World) :
  getValidAccessToken env country p w = (Normal None, w') ->
  getValidAccessToken env country p w' = (Normal None, w').
Proof.
  intros Hrun.
  destruct (getValidAccessToken_outcomes env country p w)
    as (r & w1 & Hrun1 & Hnone & _).
  rewrite Hrun in Hrun1. injection Hrun1 as <- <-.
  destruct (Hnone eq_refl) as [[-> Hst] | Hls].
  - exact Hrun.
  - rewrite getValidAccessToken_run.
    rewrite stored_tokens_absent; [reflexivity|].
    rewrite Hls.
    rewrite lookup_delete_ne
      by (apply not_eq_sym, auth_key_not_userinfo_key).
    apply lookup_delete_eq.
Qed.

(** X18: after a successful refresh the new tokens are used without
    another request: if the new lifetime is positive and the platform's
    JSON reads back the tokens it printed, a second call of
    [getValidAccessToken] returns the same new access token and changes
    nothing. *)
Theorem refreshed_token_is_reused
    (env : Env) (country : string) (w : World) (t : AuthTokens) (rt : string)
    (data : TokenResponse) (e : N) :
  getStoredAuthTokens country "microsoft" w = (Normal (Some t), w) ->
  expiresAt t <= clock w ->
  refreshToken t = Some rt -> rt <> "" ->
  refresh_reply env w = Some (data, e) ->
  0 < expires_in data ->
  let newTokens :=
    {| accessToken := access_token data;
       refreshToken := or_else (refresh_token data) (Some rt);
       expiresIn := expires_in data;
       expiresAt := clock w + Z.of_N e + expires_in data * 1000 |} in
  JSON_stringify_tokens newTokens <> "" ->
  JSON_parse_tokens (JSON_stringify_tokens newTokens) = Some (Some newTokens) ->
  exists w1,
    getValidAccessToken env country microsoft w =
      (Normal (Some (access_token data)), w1) /\
    requests w1 = requests w ++ [refresh_request env rt] /\
    getValidAccessToken env country microsoft w1 =
      (Normal (Some (access_token data)), w1).
Proof.
  intros Hst Hexp Hrt Hne Hreply Hpos newTokens Hprint Hparse.
  unfold refresh_reply in Hreply.
  destruct (truthy_opt (REACT_APP_MICROSOFT_CLIENT_ID env)) eqn:Hcid; [|discriminate].
  destruct (network w) as [|[m e'|r e'] rest] eqn:Hnet; try discriminate.
  destruct (ok r) eqn:Hok; [|discriminate].
  destruct (JSON_parse_token_response (text r)) as [d|] eqn:Hp; [|discriminate].
  injection Hreply as -> ->.
  assert (Htr : truthy_opt (Some rt) = true) by (by destruct rt).
  assert (Hge : (clock w >=? expiresAt t) = true) by (apply Z.geb_le; lia).
  eexists. split; [|split].
  - rewrite getValidAccessToken_run. cbn [provider_key]. rewrite Hst. cbn [fst].
    rewrite Hge, Hrt, Htr. cbn [negb andb default].
    rewrite bool_decide_eq_true_2 by reflexivity. cbn [andb].
    rewrite refreshMicrosoftToken_run, Hcid. cbn [negb].
    rewrite fetch_run, Hnet, Hok, Hp. cbn [negb]. cbv zeta.
    cbn [clock with_network accessToken]. reflexivity.
  - reflexivity.
  - rewrite getValidAccessToken_run. cbn [provider_key].
    rewrite (stored_tokens_lookup _ _ _ (JSON_stringify_tokens newTokens) newTokens);
      [|apply lookup_insert_eq|exact Hprint|exact Hparse].
    cbn [fst clock with_localStorage with_network expiresAt newTokens].
    assert (Hlt : (clock w + Z.of_N e >=?
                   clock w + Z.of_N e + expires_in data * 1000) = false).
    { rewrite Z.geb_leb. apply Z.leb_gt. lia. }
    rewrite Hlt. reflexivity.
Qed.

(** ** The popup flow: what is settled stays settled *)

Lemma settle_settled (outcome current : Settled) :
  current <> Pending -> settle outcome current = current.
Proof. by destruct current. Qed.

Ltac flow_cases :=
  repeat match goal with
         | |- context [if ?b then _ else _] => destruct b eqn:?
         | |- context [match ?x with _ => _ end] => destruct x eqn:?
         end.

Lemma step_keeps_terminal_flags (env : Env) (country : string) (ev : Event)
    (st : Flow) :
  (promise st <> Pending -> promise (step env country ev st) = promise st) /\
  (listening st = false -> listening (step env country ev st) = false) /\
  (polling st = false -> polling (step env country ev st) = false) /\
  (timer st = false -> timer (step env country ev st) = false) /\
  (popup_closed st = true -> popup_closed (step env country ev st) = true).
Proof.
  destruct ev as [event|h o| | |]; cbn [step].
  - destruct (listening st) eqn:Hl; [|by repeat split].
    unfold messageHandler. flow_cases;
      cbn [promise listening polling timer popup_closed finish_handler
           with_handlers with_world];
      repeat split; intros; try assumption; try reflexivity; try discriminate;
      by apply settle_settled.
  - unfold resume. flow_cases;
      cbn [promise listening polling timer popup_closed finish_handler
           with_handlers with_world];
      repeat split; intros; try assumption; try reflexivity;
      by apply settle_settled.
  - destruct (polling st) eqn:Hp; [|by repeat split].
    unfold checkClosed. destruct (popup_closed st) eqn:Hc; [|by repeat split].
    cbn [promise listening polling timer popup_closed].
    repeat split; intros; try assumption; try reflexivity; try discriminate;
      by apply settle_settled.
  - destruct (timer st) eqn:Ht; [|by repeat split].
    unfold on_timeout. destruct (popup_closed st) eqn:Hc;
      cbn [negb promise listening polling timer popup_closed];
      repeat split; intros; try assumption; try reflexivity; try discriminate;
      by apply settle_settled.
  - cbn [promise listening polling timer popup_closed]. by repeat split.
Qed.

Lemma flow_settles_once_run (env : Env) (country : string) (evs : list Event) :
  forall st : Flow,
    promise st <> Pending -> promise (run env country evs st) = promise st.
Proof.
  induction evs as [|ev evs IH]; intros st Hp; [reflexivity|].
  change (run env country (ev :: evs) st)
    with (run env country evs (step env country ev st)).
  destruct (step_keeps_terminal_flags env country ev st) as (Hstep & _).
  rewrite IH by (rewrite (Hstep Hp); exact Hp). by apply Hstep.
Qed.

(** X19: the promise of [authenticateWithPopup] is settled at most once and
    teardown is never undone: over any sequence of events, a promise that is
    resolved or rejected keeps its value, a removed listener stays removed,
    a cleared interval stays cleared, a fired timeout does not fire again,
    and a closed popup stays closed. *)
Theorem flow_settles_once (env : Env) (country : string) (evs : list Event) :
  forall st : Flow,
    (promise st <> Pending -> promise (run env country evs st) = promise st) /\
    (listening st = false -> listening (run env country evs st) = false) /\
    (polling st = false -> polling (run env country evs st) = false) /\
    (timer st = false -> timer (run env country evs st) = false) /\
    (popup_closed st = true -> popup_closed (run env country evs st) = true).
Proof.
  induction evs as [|ev evs IH]; intros st; [by repeat split|].
  change (run env country (ev :: evs) st)
    with (run env country evs (step env country ev st)).
  destruct (step_keeps_terminal_flags env country ev st)
    as (Hp & Hl & Hpo & Ht & Hc).
  destruct (IH (step env country ev st)) as (Hp' & Hl' & Hpo' & Ht' & Hc').
  repeat split; intros Hyp.
  - rewrite Hp' by (rewrite (Hp Hyp); exact Hyp). by apply Hp.
  - apply Hl'. by apply Hl.
  - apply Hpo'. by apply Hpo.
  - apply Ht'. by apply Ht.
  - apply Hc'. by apply Hc.
Qed.

(** ** The popup flow: single events *)

Lemma error_type_is_not_success (t : option string) :
  is_error_type t = true -> is_success_type t = false.
Proof.
  destruct t as [t|]; [|discriminate]. unfold is_error_type, is_success_type.
  intros [E | E]%orb_prop; apply String.eqb_eq in E; subst t; reflexivity.
Qed.

(** X20: while the listener is registered, a message from the opener's own
    origin whose type is oauth_error or sso_auth_error rejects the promise
    with an [Error] carrying the message's error text (the empty text when
    the property is missing), removes the listener and closes the popup; it
    sends nothing, starts no handler and leaves the store alone. The
    interval and the timeout are not cleared by it. *)
Theorem error_message_rejects
    (env : Env) (country : string) (event : MessageEvent) (d : MessageData)
    (st : Flow) :
  listening st = true ->
  ev_origin event = origin env ->
  data event = Some d ->
  is_error_type (mtype d) = true ->
  let st' := step env country (Message event) st in
  promise st' = settle (Rejected (Error (default "" (merror d)))) (promise st) /\
  listening st' = false /\
  popup_closed st' = true /\
  world st' = world st /\
  handlers st' = handlers st /\
  polling st' = polling st /\
  timer st' = timer st.
Proof.
  intros Hl Ho Hd He st'. subst st'. cbn [step]. rewrite Hl.
  unfold messageHandler. rewrite Ho, String.eqb_refl, Hd. cbn [negb].
  rewrite (error_type_is_not_success _ He), He. cbn [andb].
  repeat split.
Qed.

(** X21: a message from the opener's own origin that is neither a success
    with a non-empty code nor an error is passed over: a null payload, an
    unknown type, and a success type whose code is missing or empty all
    leave the flow exactly as it was, still waiting. *)
Theorem unrecognized_message_ignored
    (env : Env) (country : string) (event : MessageEvent) (st : Flow) :
  ev_origin event = origin env ->
  (data event = None \/
   exists d, data event = Some d /\
             is_error_type (mtype d) = false /\
             (is_success_type (mtype d) = false \/ truthy_opt (code d) = false)) ->
  step env country (Message event) st = st.
Proof.
  intros Ho Hcase. cbn [step].
  destruct (listening st); [|reflexivity].
  unfold messageHandler. rewrite Ho, String.eqb_refl. cbn [negb].
  destruct Hcase as [-> | (d & -> & He & Hs)]; [reflexivity|].
  rewrite He.
  destruct Hs as [-> | ->]; [reflexivity|].
  by rewrite andb_false_r.
Qed.

(** X22: the timeout acts once, and only on an open popup. If the popup is
    open when it fires, the popup is closed, the listener and the interval
    are removed and the promise is rejected with the timeout message
    (unless already settled). If the popup is already closed, nothing but
    the timer changes, so the rejection is left to the interval. Once
    fired, it does nothing. It never touches the world. *)
Theorem timeout_acts_on_open_popup (env : Env) (country : string) (st : Flow) :
  let st' := step env country Timeout st in
  world st' = world st /\ handlers st' = handlers st /\ timer st' = false /\
  (timer st = true -> popup_closed st = false ->
     promise st' = settle (Rejected (Error "Authentication timeout - please try again"))
                          (promise st) /\
     popup_closed st' = true /\ listening st' = false /\ polling st' = false) /\
  (timer st = true -> popup_closed st = true ->
     promise st' = promise st /\ popup_closed st' = true /\
     listening st' = listening st /\ polling st' = polling st) /\
  (timer st = false -> st' = st).
Proof.
  intros st'. subst st'. cbn [step].
  destruct (timer st) eqn:Ht.
  - unfold on_timeout. destruct (popup_closed st) eqn:Hc; cbn [negb];
      cbn [world handlers timer promise popup_closed listening polling];
      repeat split; intros; try reflexivity; discriminate.
  - repeat split; intros; try reflexivity; try assumption; discriminate.
Qed.

(** X23: a handler that has started is never stopped. Whatever the state
    of the promise and of the listener, when the profile request of a
    handler succeeds the tokens and the user info are written to the
    store, the listener is removed and the popup closed; the promise is
    resolved only if it was still pending. So after a cancellation or a
    timeout during the exchange, the sign-in is still stored. *)
Theorem started_handler_completes
    (env : Env) (country : string) (st : Flow) (h : nat) (o : FetchOutcome)
    (tokens : AuthTokens) (userInfo : UserInfo) (w' : World) :
  handlers st !! h = Some (AwaitUserInfo tokens) ->
  (let* response := deliver o in
   userinfo_continue (provider (oauth st)) response) (world st)
    = (Normal userInfo, w') ->
  let st' := step env country (FetchDone h o) st in
  localStorage (world st') =
    <[userinfo_key country (provider_key (provider (oauth st))) :=
        JSON_stringify_userinfo userInfo]>
      (<[auth_key country (provider_key (provider (oauth st))) :=
           JSON_stringify_tokens tokens]> (localStorage (world st))) /\
  promise st' = settle (Resolved tokens userInfo) (promise st) /\
  (promise st <> Pending -> promise st' = promise st) /\
  handlers st' !! h = Some Finished /\
  listening st' = false /\
  popup_closed st' = true.
Proof.
  intros Hh Hrun st'. subst st'. cbn [step]. unfold resume. rewrite Hh, Hrun.
  pose proof (resume_userinfo_storage (provider (oauth st)) o (world st)) as Hls.
  rewrite Hrun in Hls. cbn [snd] in Hls.
  unfold storeAuthTokens, storeUserInfo, setItem, bind, modify.
  cbn [world promise handlers listening popup_closed finish_handler with_handlers
       with_world localStorage with_localStorage].
  rewrite Hls.
  split; [reflexivity|]. split; [reflexivity|].
  split; [apply settle_settled|]. split; [|by split].
  apply list_lookup_insert_eq. by eapply lookup_lt_Some.
Qed.

(** ** The popup flow: a complete sign-in *)

Lemma resume_exchange_answered (r : Response) (e : N) (data : TokenResponse)
    (w : World) :
  ok r = true ->
  JSON_parse_token_response (text r) = Some data ->
  try_catch (let* response := deliver (Answered r e) in exchange_continue response)
            exchange_catch w =
    (Normal {| accessToken := access_token data;
               refreshToken := refresh_token data;
               expiresIn := expires_in data;
               expiresAt := clock w + Z.of_N e + expires_in data * 1000 |},
     with_network (clock w + Z.of_N e) (network w) (requests w) w).
Proof.
  intros Hok Hparse. unfold try_catch, bind, deliver, exchange_continue.
  cbn [elapsed_of]. rewrite Hok, Hparse. reflexivity.
Qed.

Lemma resume_userinfo_answered (prov : Provider) (r : Response) (e : N)
    (prof : Profile) (w : World) :
  ok r = true ->
  JSON_parse_profile (text r) = Some prof ->
  (let* response := deliver (Answered r e) in userinfo_continue prov response) w =
    (Normal (if bool_decide (prov = google)
             then {| id := p_id prof; email := p_email prof;
                     uname := p_name prof; picture := p_picture prof |}
             else {| id := p_id prof;
                     email := or_else (p_mail prof) (p_userPrincipalName prof);
                     uname := p_displayName prof;
                     picture := p_photo_value prof |}),
     with_network (clock w + Z.of_N e) (network w) (requests w) w).
Proof.
  intros Hok Hparse. unfold bind, deliver, userinfo_continue.
  cbn [elapsed_of]. rewrite Hok, Hparse. cbn [negb].
  destruct (bool_decide (prov = google)); reflexivity.
Qed.

(** X24: a complete sign-in. With the listener registered and a challenge
    on the manager, a success message with a non-empty code from the
    opener's own origin, followed by a successful token reply and a
    successful profile reply for the handler it started, sends exactly the
    token request and then the profile request, writes the tokens and the
    normalized user info under the identity, removes the listener, closes
    the popup and resolves a pending promise with those tokens and that
    user info. [expiresAt] is the clock at the token reply plus the
    lifetime in milliseconds. *)
Theorem sign_in_resolves_and_stores
    (env : Env) (country : string) (st : Flow) (ch : PKCEChallenge)
    (event : MessageEvent) (d : MessageData) (c : string)
    (r1 r2 : Response) (e1 e2 : N) (tdata : TokenResponse) (prof : Profile) :
  listening st = true ->
  pkceChallenge (oauth st) = Some ch ->
  ev_origin event = origin env ->
  data event = Some d ->
  is_success_type (mtype d) = true ->
  code d = Some c -> c <> "" ->
  ok r1 = true -> JSON_parse_token_response (text r1) = Some tdata ->
  ok r2 = true -> JSON_parse_profile (text r2) = Some prof ->
  let h := length (handlers st) in
  let tokens :=
    {| accessToken := access_token tdata;
       refreshToken := refresh_token tdata;
       expiresIn := expires_in tdata;
       expiresAt := clock (world st) + Z.of_N e1 + expires_in tdata * 1000 |} in
  let userInfo :=
    if bool_decide (provider (oauth st) = google)
    then {| id := p_id prof; email := p_email prof;
            uname := p_name prof; picture := p_picture prof |}
    else {| id := p_id prof;
            email := or_else (p_mail prof) (p_userPrincipalName prof);
            uname := p_displayName prof;
            picture := p_photo_value prof |} in
  let st' := run env country
               [Message event; FetchDone h (Answered r1 e1);
                FetchDone h (Answered r2 e2)] st in
  promise st' = settle (Resolved tokens userInfo) (promise st) /\
  localStorage (world st') =
    <[userinfo_key country (provider_key (provider (oauth st))) :=
        JSON_stringify_userinfo userInfo]>
      (<[auth_key country (provider_key (provider (oauth st))) :=
           JSON_stringify_tokens tokens]> (localStorage (world st))) /\
  requests (world st') =
    requests (world st) ++
    [exchange_request (oauth st) ch c;
     userinfo_request (oauth st) (access_token tdata)] /\
  listening st' = false /\
  popup_closed st' = true.
Proof.
  intros Hl Hch Ho Hd Hs Hc Hne Hok1 Hp1 Hok2 Hp2 h tokens userInfo st'.
  assert (Htr : truthy_opt (code d) = true) by (rewrite Hc; by destruct c).
  subst st'. unfold run. cbn [fold_left].
  (* the message *)
  assert (E1 : step env country (Message event) st =
               with_handlers (handlers st ++ [AwaitExchange])
                 (with_world
                    (with_network (clock (world st)) (network (world st))
                       (requests (world st) ++ [exchange_request (oauth st) ch c])
                       (world st)) st)).
  { cbn [step]. rewrite Hl. unfold messageHandler.
    rewrite Ho, String.eqb_refl, Hd, Hs, Htr, Hch, Hc. reflexivity. }
  rewrite E1. clear E1.
  (* the token reply *)
  set (st1 := with_handlers _ _).
  assert (Hh1 : handlers st1 !! h = Some AwaitExchange).
  { subst st1 h. cbn [handlers with_handlers].
    rewrite lookup_app_r by lia. by rewrite Nat.sub_diag. }
  assert (E2 : step env country (FetchDone h (Answered r1 e1)) st1 =
               with_handlers (<[h := AwaitUserInfo tokens]> (handlers st1))
                 (with_world
                    (with_network (clock (world st) + Z.of_N e1)
                       (network (world st))
                       (requests (world st) ++
                        [exchange_request (oauth st) ch c;
                         userinfo_request (oauth st) (access_token tdata)])
                       (world st)) st1)).
  { cbn [step]. unfold resume. rewrite Hh1.
    rewrite (resume_exchange_answered r1 e1 tdata _ Hok1 Hp1).
    subst st1. unfold send_request, modify.
    cbn [world with_world with_handlers with_network clock network requests
         oauth accessToken].
    rewrite <- app_assoc. reflexivity. }
  rewrite E2. clear E2.
  (* the profile reply *)
  set (st2 := with_handlers _ _).
  assert (Hh2 : handlers st2 !! h = Some (AwaitUserInfo tokens)).
  { subst st2. cbn [handlers with_handlers].
    apply list_lookup_insert_eq. by eapply lookup_lt_Some. }
  cbn [step]. unfold resume. rewrite Hh2.
  assert (Hprov : provider (oauth st2) = provider (oauth st)) by reflexivity.
  rewrite Hprov.
  rewrite (resume_userinfo_answered _ r2 e2 prof _ Hok2 Hp2).
  fold userInfo.
  unfold storeAuthTokens, storeUserInfo, setItem, bind, modify.
  subst st2 st1.
  cbn [world promise handlers listening popup_closed finish_handler with_handlers
       with_world localStorage with_localStorage with_network requests].
  repeat split.
Qed.

(** ** The popup flow: how it starts *)

Lemma inert_step (env : Env) (country : string) (ev : Event) (st : Flow) :
  handlers st = [] -> listening st = false ->
  handlers (step env country ev st) = [] /\
  listening (step env country ev st) = false /\
  world (step env country ev st) = world st.
Proof.
  intros Hh Hl. destruct ev as [event|h o| | |]; cbn [step].
  - rewrite Hl. by repeat split.
  - unfold resume. rewrite Hh. by repeat split.
  - destruct (polling st); [|by repeat split].
    unfold checkClosed. destruct (popup_closed st); by repeat split.
  - destruct (timer st); [|by repeat split].
    unfold on_timeout. destruct (popup_closed st); by repeat split.
  - by repeat split.
Qed.

Lemma inert_run (env : Env) (country : string) (evs : list Event) :
  forall st,
    handlers st = [] -> listening st = false ->
    world (run env country evs st) = world st.
Proof.
  induction evs as [|ev evs IH]; intros st Hh Hl; [reflexivity|].
  change (run env country (ev :: evs) st)
    with (run env country evs (step env country ev st)).
  destruct (inert_step env country ev st Hh Hl) as (Hh' & Hl' & Hw).
  rewrite (IH _ Hh' Hl'). exact Hw.
Qed.

(** X25: how [authenticateWithPopup] starts. With an unconfigured client id
    the promise is rejected with "Failed to generate auth URL: " followed by
    the configuration message, nothing has been drawn or changed and no
    window is asked for. With a configured client id 128 random values are
    taken and a challenge is on the manager before the popup is opened: if
    the popup is blocked the promise is rejected with the popup-blocked
    message and no listener, interval or timeout is installed; if it opens
    the promise is pending with all three installed and no handler running.
    The store and the network are untouched in every case, and a flow that
    did not start is inert: no later event changes its promise or the
    world. *)
Theorem authenticateWithPopup_start
    (env : Env) (p : Provider) (country : string) (opens : bool) (w : World) :
  let cid := clientId (config (OAUTH_PROVIDERS env p)) in
  let st0 := authenticateWithPopup env p country opens w in
  (cid = "" \/ includes cid "your-" = true ->
     promise st0 =
       Rejected (Error ("Failed to generate auth URL: " +:+ provider_key p +:+
         " OAuth client ID is not properly configured. Please check your environment variables.")) /\
     world st0 = w /\
     listening st0 = false /\ polling st0 = false /\ timer st0 = false) /\
  (cid <> "" -> includes cid "your-" = false ->
     world st0 = with_draws (draws w + 128) w /\
     is_Some (pkceChallenge (oauth st0)) /\
     handlers st0 = [] /\ popup_closed st0 = false /\
     (opens = true ->
        promise st0 = Pending /\
        listening st0 = true /\ polling st0 = true /\ timer st0 = true) /\
     (opens = false ->
        promise st0 = Rejected (Error "Popup blocked. Please allow popups for this site.") /\
        listening st0 = false /\ polling st0 = false /\ timer st0 = false)) /\
  (promise st0 <> Pending ->
     forall evs,
       promise (run env country evs st0) = promise st0 /\
       world (run env country evs st0) = world st0).
Proof.
  intros cid st0. subst cid st0.
  split; [|split].
  - intros Hcid. unfold authenticateWithPopup.
    rewrite (getAuthUrl_unconfigured (createOAuthManager env p) w _ Hcid).
    cbn [error_message promise world listening polling timer provider
         createOAuthManager constructor].
    repeat split.
  - intros Hne Hinc. unfold authenticateWithPopup.
    destruct (getAuthUrl_success (createOAuthManager env p) w
                (Some (country +:+ "_" +:+ Number_toString (clock w))) Hne Hinc)
      as (v & _ & Hrun).
    cbv zeta in Hrun. rewrite Hrun. clear Hrun.
    destruct opens;
      cbn [world oauth handlers popup_closed promise listening polling timer
           holding pkceChallenge];
      (split; [reflexivity|]); (split; [eexists; reflexivity|]);
      (split; [reflexivity|]); (split; [reflexivity|]);
      split; intros; try discriminate; repeat split.
  - intros Hsettled evs.
    split; [by apply flow_settles_once_run|].
    apply inert_run.
    + unfold authenticateWithPopup.
      destruct (getAuthUrl _ (createOAuthManager env p, w)) as [[u|err] [m w1]];
        [destruct opens|]; reflexivity.
    + revert Hsettled. unfold authenticateWithPopup.
      destruct (getAuthUrl _ (createOAuthManager env p, w)) as [[u|err] [m w1]];
        [destruct opens|]; cbn [promise listening]; intros Hs;
        [by destruct Hs | reflexivity | reflexivity].
Qed.
End Coverage.

(** * The module at work on examples *)

Section Examples.
Local Existing Instance example_platform.

(** The digest of the stand-in platform on the test vectors of FIPS 180-4. *)
Example sha256_test_vectors :
  SHA256.hex (SHA256.digest "abc") =
    "ba7816bf8f01cfea414140de5dae2223b00361a396177a9cb410ff61f20015ad" /\
  SHA256.hex (SHA256.digest "") =
    "e3b0c44298fc1c149afbf4c8996fb92427ae41e4649b934ca495991b7852b855".
Proof. vm_compute. split; reflexivity. Qed.

(** A complete sign-in: the success message starts the exchange, the token
    reply starts the profile request, the profile reply stores both records
    and resolves the promise. *)
Example popup_sign_in_succeeds :
  let st := run example_env "SG"
              [success_message "c0de";
               FetchDone 0 (answer true 200 "access:AT");
               FetchDone 0 (answer true 200 "mail:a@example.com")]
              (authenticateWithPopup example_env microsoft "SG" true fresh_world) in
  promise st =
    Resolved {| accessToken := "AT"; refreshToken := None;
                expiresIn := 3600; expiresAt := 3600250 |}
             {| id := Some "1"; email := Some "a@example.com";
                uname := None; picture := None |} /\
  listening st = false /\
  popup_closed st = true /\
  localStorage (world st) !! auth_key "SG" "microsoft" = Some "tokens:AT" /\
  localStorage (world st) !! userinfo_key "SG" "microsoft" =
    Some "user:a@example.com" /\
  map url (requests (world st)) =
    [ "https://login.microsoftonline.com/common/oauth2/v2.0/token";
      "https://graph.microsoft.com/v1.0/me" ].
Proof. vm_compute. repeat split. Qed.

(** With no message and the popup left open, the timeout closes the popup
    and rejects. *)
Example popup_times_out :
  let st := run example_env "SG" [Tick; Tick; Timeout; Tick]
              (authenticateWithPopup example_env google "SG" true fresh_world) in
  promise st = Rejected (Error "Authentication timeout - please try again") /\
  popup_closed st = true /\ listening st = false /\ polling st = false.
Proof. vm_compute. repeat split. Qed.

(** A blocked popup and an unconfigured client id reject at once. *)
Example popup_blocked_or_unconfigured :
  promise (authenticateWithPopup example_env google "SG" false fresh_world) =
    Rejected (Error "Popup blocked. Please allow popups for this site.") /\
  promise (authenticateWithPopup unconfigured_env google "SG" true fresh_world) =
    Rejected (Error
      "Failed to generate auth URL: google OAuth client ID is not properly configured. Please check your environment variables.").
Proof. vm_compute. split; reflexivity. Qed.

(** C10 at the boundary instant [now = expiresAt]. *)
Lemma expired_implies_expiring_soon_witness :
  let w := example_world ∅ 3600000 [] in
  isTokenExpired (example_tokens "A") w = (Normal true, w) /\
  isTokenExpiringSoon (example_tokens "A") w = (Normal true, w).
Proof.
  intros w.
  destruct (expired_implies_expiring_soon (example_tokens "A") w)
    as (b1 & b2 & H1 & H2 & _ & _ & Himp & Hboundary).
  assert (Hb1 : b1 = true) by (apply Hboundary; reflexivity).
  assert (Hb2 : b2 = true) by (apply Himp; exact Hb1).
  rewrite H1, H2, Hb1, Hb2. split; reflexivity.
Defined.

(** C8 on an empty store and on a store holding text that does not parse. *)
Lemma stored_reads_never_throw_witness :
  getStoredAuthTokens "SG" "google" fresh_world = (Normal None, fresh_world) /\
  let w := example_world {[ auth_key "SG" "google" := "{not json" ]} 0 [] in
  getStoredAuthTokens "SG" "google" w = (Normal None, w).
Proof.
  split.
  - destruct (stored_reads_never_throw "SG" "google" fresh_world)
      as ((v & Hrun & Habsent & _) & _).
    rewrite Hrun. rewrite (Habsent eq_refl). reflexivity.
  - intros w.
    destruct (stored_reads_never_throw "SG" "google" w)
      as ((v & Hrun & _ & Hbad) & _).
    rewrite Hrun. rewrite (Hbad "{not json" eq_refl eq_refl). reflexivity.
Defined.

(** C9 for Singapore and Malaysia under one provider. *)
Lemma identity_keys_independent_witness :
  ("SG", microsoft) <> ("MY", microsoft) /\
  localStorage (snd (clearAuthTokens "SG" "microsoft"
                       (example_world {[ auth_key "MY" "microsoft" := "tokens:M" ]} 0 [])))
    !! auth_key "MY" "microsoft" = Some "tokens:M".
Proof.
  assert (Hne : ("SG", microsoft) <> ("MY", microsoft)) by discriminate.
  split; [exact Hne|].
  destruct (identity_keys_independent "SG" "MY" microsoft microsoft
              (example_tokens "A")
              {| id := None; email := None; uname := None; picture := None |}
              (example_world {[ auth_key "MY" "microsoft" := "tokens:M" ]} 0 [])
              Hne)
    as (_ & _ & (Hkept & _) & _).
  simpl provider_key in Hkept. rewrite Hkept. reflexivity.
Defined.

(** C3 with the placeholder client id. *)
Lemma getAuthUrl_unconfigured_fails_early_witness :
  includes (clientId (config (mconfig (createOAuthManager unconfigured_env google))))
           "your-" = true /\
  draws (snd (snd (getAuthUrl None
                     (createOAuthManager unconfigured_env google, fresh_world)))) = 0%nat.
Proof.
  assert (Hinc : includes (clientId (config (mconfig
                   (createOAuthManager unconfigured_env google)))) "your-" = true)
    by reflexivity.
  split; [exact Hinc|].
  destruct (getAuthUrl_unconfigured_fails_early
              (createOAuthManager unconfigured_env google) fresh_world None
              (or_intror Hinc)) as (_ & Hdraws & _).
  rewrite Hdraws. reflexivity.
Defined.

(** C6 with a success message sent from another origin. *)
Lemma foreign_origin_ignored_witness :
  let st := authenticateWithPopup example_env microsoft "SG" true fresh_world in
  "https://evil.example" <> origin example_env /\
  step example_env "SG" foreign_message st = st.
Proof.
  intros st.
  assert (Hne : "https://evil.example" <> origin example_env) by discriminate.
  split; [exact Hne|].
  apply (foreign_origin_ignored example_env "SG"
           {| ev_origin := "https://evil.example";
              data := Some {| mtype := Some "oauth_success"; code := Some "x";
                              merror := None |} |} st Hne).
Defined.

(** C1 on four stores: valid tokens; expired Microsoft tokens with a
    refresh that succeeds; the same with a refresh that is refused; expired
    Google tokens. *)
Lemma getValidAccessToken_algorithm_witness :
  getValidAccessToken example_env "SG" microsoft sg_ms_valid =
    (Normal (Some "A"), sg_ms_valid) /\
  (exists w',
     getValidAccessToken example_env "SG" microsoft
       (sg_ms_expired [answer true 200 "access:B"]) = (Normal (Some "B"), w') /\
     localStorage w' !! auth_key "SG" "microsoft" = Some "tokens:B" /\
     length (requests w') = 1%nat) /\
  (exists w',
     getValidAccessToken example_env "SG" microsoft
       (sg_ms_expired [answer false 400 "invalid_grant"]) = (Normal None, w') /\
     localStorage w' !! auth_key "SG" "microsoft" = None /\
     localStorage w' !! userinfo_key "SG" "microsoft" = None) /\
  (exists w',
     getValidAccessToken example_env "SG" google sg_google_expired =
       (Normal None, w') /\
     localStorage w' !! auth_key "SG" "google" = None /\
     requests w' = []).
Proof.
  split; [|split; [|split]].
  - destruct (getValidAccessToken_algorithm example_env "SG" microsoft sg_ms_valid)
      as (_ & Hvalid & _).
    apply (Hvalid (example_tokens "A")); [reflexivity | reflexivity].
  - destruct (getValidAccessToken_algorithm example_env "SG" microsoft
                (sg_ms_expired [answer true 200 "access:B"]))
      as (_ & _ & Hrefresh & _).
    destruct (Hrefresh (example_tokens "A") "R0"
                {| access_token := "B"; refresh_token := None; expires_in := 3600 |}
                250%N)
      as (w' & Hrun & Hstore & Hreq);
      [reflexivity | discriminate | reflexivity | reflexivity | discriminate
      | reflexivity |].
    exists w'. split; [exact Hrun|]. split.
    + rewrite Hstore. apply lookup_insert_eq.
    + rewrite Hreq. reflexivity.
  - destruct (getValidAccessToken_algorithm example_env "SG" microsoft
                (sg_ms_expired [answer false 400 "invalid_grant"]))
      as (_ & _ & _ & Hrefused & _).
    destruct (Hrefused (example_tokens "A") "R0")
      as (w' & Hrun & Hstore);
      [reflexivity | discriminate | reflexivity | reflexivity | discriminate
      | reflexivity |].
    exists w'. split; [exact Hrun|]. rewrite Hstore. split.
    + rewrite lookup_delete_ne by discriminate. apply lookup_delete_eq.
    + apply lookup_delete_eq.
  - destruct (getValidAccessToken_algorithm example_env "SG" google sg_google_expired)
      as (_ & _ & _ & _ & Hgoogle).
    destruct (Hgoogle (example_tokens "G"))
      as (w' & Hrun & Hstore & Hreq);
      [reflexivity | discriminate | left; reflexivity |].
    exists w'. split; [exact Hrun|]. rewrite Hstore, Hreq. split.
    + rewrite lookup_delete_ne by discriminate. apply lookup_delete_eq.
    + reflexivity.
Defined.

(** C2, as the code has it, on a new manager: without a challenge the
    exchange is refused and nothing is sent; [getAuthUrl] then puts a
    challenge on the manager. *)
Lemma pkce_challenge_kept_by_exchange_witness :
  let m0 := createOAuthManager example_env microsoft in
  pkceChallenge m0 = None /\
  exchangeCodeForTokens "c0de" (m0, fresh_world) =
    (Throw missing_challenge, (m0, fresh_world)) /\
  exists url ch w',
    getAuthUrl None (m0, fresh_world) = (Normal url, (holding m0 ch, w')).
Proof.
  intros m0.
  destruct (pkce_challenge_kept_by_exchange m0 fresh_world "c0de")
    as (Hcreate & Hmissing & _).
  split; [reflexivity|]. split.
  - apply Hmissing. reflexivity.
  - destruct (Hcreate None) as (url & ch & w' & Hrun & _);
      [discriminate | reflexivity |].
    exists url, ch, w'. exact Hrun.
Defined.

(** C2 as the specification words it fails: after [getAuthUrl], a first
    exchange succeeds and leaves the challenge on the manager; a second
    exchange is not refused but posts a second token request with the same
    verifier and returns tokens. The same happens inside the popup flow
    when two success messages arrive: two token requests leave with the
    one verifier. *)
Lemma pkce_challenge_not_consumed :
  let w0 := example_world ∅ 0 [answer true 200 "access:T1";
                               answer true 200 "access:T2"] in
  let r0 := getAuthUrl None (createOAuthManager example_env microsoft, w0) in
  let m1 := fst (snd r0) in
  let r1 := exchangeCodeForTokens "c0de" (snd r0) in
  let r2 := exchangeCodeForTokens "c0de" (snd r1) in
  let st := run example_env "SG" [success_message "c1"; success_message "c2"]
              (authenticateWithPopup example_env microsoft "SG" true fresh_world) in
  fst r1 = Normal {| accessToken := "T1"; refreshToken := None;
                     expiresIn := 3600; expiresAt := 3600250 |} /\
  fst (snd r1) = m1 /\
  fst r2 = Normal {| accessToken := "T2"; refreshToken := None;
                     expiresIn := 3600; expiresAt := 3600500 |} /\
  fst r2 <> Throw missing_challenge /\
  match pkceChallenge m1 with
  | Some ch =>
      requests (snd (snd r2)) =
        [exchange_request m1 ch "c0de"; exchange_request m1 ch "c0de"]
  | None => False
  end /\
  match pkceChallenge (oauth st) with
  | Some ch =>
      requests (world st) =
        [exchange_request (oauth st) ch "c1"; exchange_request (oauth st) ch "c2"]
  | None => False
  end.
Proof.
  vm_compute. repeat split; discriminate.
Qed.

(** C5, as the code has it, on a run: the interval fires once while the
    popup is open, a foreign message comes in, the user closes the popup,
    the timeout fires on the closed popup, the interval fires again; a
    success message that arrives afterwards finds no listener. *)
Lemma popup_cancellation_stores_nothing_witness :
  let st0 := authenticateWithPopup example_env microsoft "SG" true fresh_world in
  let st1 := run example_env "SG"
               ([Tick; foreign_message] ++ PopupClosedByUser :: [Timeout] ++ [Tick])
               st0 in
  let st2 := run example_env "SG"
               [success_message "c0de"; FetchDone 0 (answer true 200 "access:AT")]
               st1 in
  promise st0 = Pending /\
  promise st2 = Rejected (Error "Authentication cancelled") /\
  listening st2 = false /\
  localStorage (world st2) = ∅ /\
  getValidAccessToken example_env "SG" microsoft (world st2) =
    (Normal None, world st2).
Proof.
  pose proof (popup_cancellation_stores_nothing example_env microsoft "SG"
              fresh_world [Tick; foreign_message] [Timeout]
              [success_message "c0de"; FetchDone 0 (answer true 200 "access:AT")])
    as Hthm.
  cbv zeta in Hthm. cbv zeta.
  assert (Hpending : promise (authenticateWithPopup example_env microsoft "SG" true
                                fresh_world) = Pending)
    by (vm_compute; reflexivity).
  assert (Hpre : Forall (fun ev => quiet example_env ev = true /\ ev <> Timeout)
                   [Tick; foreign_message]).
  { repeat constructor; discriminate. }
  assert (Hmid : Forall (fun ev => quiet example_env ev = true) [Timeout]).
  { repeat constructor. }
  specialize (Hthm Hpending Hpre Hmid).
  destruct Hthm as (Hcancel & _).
  destruct Hcancel as (_ & _ & Hp & Hl & Hs & _ & Hnull).
  split; [exact Hpending|].
  split; [exact Hp|]. split; [exact Hl|]. split; [exact Hs|].
  apply Hnull. reflexivity.
Defined.

(** C5 as the specification words it fails on three runs.
    - The popup is closed, then a success message arrives before the
      interval fires: the promise is rejected with "Authentication
      cancelled" and the listener is removed, but the handler that had
      started goes on and stores the tokens, which [getValidAccessToken]
      then returns.
    - The timeout fires first: it closes the popup itself and the promise
      is rejected with the timeout message.
    - Tokens were stored before the flow started: after the cancellation
      [getValidAccessToken] returns them. *)
Lemma popup_cancellation_counterexamples :
  let st0 := authenticateWithPopup example_env microsoft "SG" true fresh_world in
  let raced := run example_env "SG"
                 [PopupClosedByUser; success_message "c0de"; Tick;
                  FetchDone 0 (answer true 200 "access:AT");
                  FetchDone 0 (answer true 200 "mail:a@example.com")] st0 in
  let late := run example_env "SG" [Timeout] st0 in
  let again := run example_env "SG" [PopupClosedByUser; Tick]
                 (authenticateWithPopup example_env microsoft "SG" true sg_ms_valid) in
  (promise st0 = Pending /\
   promise raced = Rejected (Error "Authentication cancelled") /\
   listening raced = false /\
   localStorage (world raced) !! auth_key "SG" "microsoft" = Some "tokens:AT" /\
   localStorage (world raced) !! userinfo_key "SG" "microsoft" =
     Some "user:a@example.com" /\
   fst (getValidAccessToken example_env "SG" microsoft (world raced)) =
     Normal (Some "AT")) /\
  (popup_closed late = true /\
   promise late = Rejected (Error "Authentication timeout - please try again")) /\
  (promise again = Rejected (Error "Authentication cancelled") /\
   fst (getValidAccessToken example_env "SG" microsoft (world again)) =
     Normal (Some "A")).
Proof.
  vm_compute. repeat split.
Qed.

(** C7 on a message with two attachments. *)
Lemma gmail_multipart_payload_witness :
  attachments example_mail = Some two_attachments /\
  two_attachments <> [] /\
  exists message,
    gmail_message example_mail fresh_world =
      (Normal message, with_draws 1 fresh_world) /\
    all_chars not_plus_slash_equals (gmail_encode message) = true /\
    base64url_decode (gmail_encode message) = Some message /\
    requests (snd (sendGmailEmail "token" example_mail fresh_world)) =
      [ {| url := "https://gmail.googleapis.com/gmail/v1/users/me/messages/send";
           method := "POST";
           headers := [ ("Authorization", "Bearer " +:+ "token");
                        ("Content-Type", "application/json") ];
           body := "{" +:+ dquote +:+ "raw" +:+ dquote +:+ ":" +:+ dquote +:+
                   gmail_encode message +:+ dquote +:+ "}" |} ].
Proof.
  assert (Hne : two_attachments <> []) by discriminate.
  split; [reflexivity|]. split; [exact Hne|].
  destruct (gmail_multipart_payload "token" example_mail two_attachments
              fresh_world eq_refl Hne)
    as (message & Hmsg & _ & _ & _ & Hchars & Hdec & Hreq).
  exists message. split; [exact Hmsg|]. split; [exact Hchars|].
  split; [exact Hdec|]. exact Hreq.
Defined.
End Examples.

(** * Further examples *)

Section CoverageExamples.
Local Existing Instance example_platform.
Local Existing Instance example_graph.


(** X2 on the challenge drawn in the fresh world: 43 characters. *)
Lemma pkce_challenge_length_witness :
  exists ch w',
    generatePKCEChallenge fresh_world = (Normal ch, w') /\
    String.length (codeChallenge ch) = 43%nat.
Proof.
  destruct (generatePKCEChallenge fresh_world) as [[ch|e] w'] eqn:Hrun.
  - exists ch, w'. split; [reflexivity|].
    destruct (pkce_challenge_length fresh_world ch w' Hrun) as (_ & H43).
    apply H43. clear H43.
    vm_compute in Hrun. injection Hrun as <- _. vm_compute. reflexivity.
  - exfalso. vm_compute in Hrun. discriminate Hrun.
Defined.

(** X3 for the Google manager of the example environment. *)
Lemma getAuthUrl_builds_url_witness :
  clientId (config (mconfig (createOAuthManager example_env google))) <> "" /\
  includes (clientId (config (mconfig (createOAuthManager example_env google))))
           "your-" = false /\
  exists ch url,
    String.length (codeVerifier ch) = 128%nat /\
    getAuthUrl (Some "SG_0") (createOAuthManager example_env google, fresh_world) =
      (Normal url,
       (holding (createOAuthManager example_env google) ch,
        with_draws (draws fresh_world + 128) fresh_world)).
Proof.
  assert (Hne : clientId (config (mconfig (createOAuthManager example_env google)))
                <> "") by discriminate.
  assert (Hinc : includes (clientId (config (mconfig
                   (createOAuthManager example_env google)))) "your-" = false)
    by reflexivity.
  split; [exact Hne|]. split; [exact Hinc|].
  destruct (getAuthUrl_builds_url (createOAuthManager example_env google)
              fresh_world (Some "SG_0") Hne Hinc) as (ch & Hlen & _ & Hrun).
  exists ch. eexists. split; [exact Hlen|]. exact Hrun.
Defined.

(** X4 for the Microsoft manager: the URL is built in the fresh world, the
    code is exchanged in a later one. *)
Lemma exchange_bound_to_auth_url_witness :
  clientId (config (mconfig (createOAuthManager example_env microsoft))) <> "" /\
  includes (clientId (config (mconfig (createOAuthManager example_env microsoft))))
           "your-" = false /\
  exists ch url w1 r w2,
    getAuthUrl None (createOAuthManager example_env microsoft, fresh_world) =
      (Normal url, (holding (createOAuthManager example_env microsoft) ch, w1)) /\
    exchangeCodeForTokens "c0de"
      (holding (createOAuthManager example_env microsoft) ch,
       example_world ∅ 5000 [answer true 200 "access:AT"]) =
      (r, (holding (createOAuthManager example_env microsoft) ch, w2)) /\
    length (requests w2) = 1%nat.
Proof.
  assert (Hne : clientId (config (mconfig (createOAuthManager example_env microsoft)))
                <> "") by discriminate.
  assert (Hinc : includes (clientId (config (mconfig
                   (createOAuthManager example_env microsoft)))) "your-" = false)
    by reflexivity.
  split; [exact Hne|]. split; [exact Hinc|].
  destruct (exchange_bound_to_auth_url (createOAuthManager example_env microsoft)
              fresh_world (example_world ∅ 5000 [answer true 200 "access:AT"])
              None "c0de" Hne Hinc)
    as (ch & params & w1 & r & w2 & Hurl & _ & _ & _ & _ & Hex & Hreq).
  exists ch. eexists. exists w1, r, w2.
  split; [exact Hurl|]. split; [exact Hex|].
  rewrite Hreq. reflexivity.
Defined.

(** X5 on a refusal with status 400 and "invalid_grant" in the body. *)
Lemma exchange_classifies_http_errors_witness :
  let ch := {| codeVerifier := "verifier"; codeChallenge := "challenge" |} in
  let this := holding (createOAuthManager example_env microsoft) ch in
  let w := example_world ∅ 0 [answer false 400 "error: invalid_grant"] in
  pkceChallenge this = Some ch /\
  fst (exchangeCodeForTokens "c0de" (this, w)) =
    Throw (Error "Invalid authorization code or code expired. Please try authenticating again.").
Proof.
  intros ch this w. split; [reflexivity|].
  destruct (exchange_classifies_http_errors this w "c0de" ch
              {| ok := false; status := 400; statusText := "";
                 text := "error: invalid_grant" |} 250%N []
              eq_refl eq_refl eq_refl)
    as (msg & Hrun & H400 & _).
  rewrite Hrun. cbn [fst]. rewrite (H400 eq_refl eq_refl). reflexivity.
Defined.

(** X6 on a request that fails with "Failed to fetch". *)
Lemma exchange_transport_failures_witness :
  let ch := {| codeVerifier := "verifier"; codeChallenge := "challenge" |} in
  let this := holding (createOAuthManager example_env microsoft) ch in
  let w := example_world ∅ 0 [NetworkFailure "Failed to fetch" 30] in
  pkceChallenge this = Some ch /\
  fst (exchangeCodeForTokens "c0de" (this, w)) =
    Throw (Error "Network error during authentication. Please check your internet connection and try again.").
Proof.
  intros ch this w. split; [reflexivity|].
  pose proof (exchange_transport_failures this w "c0de" ch 30%N [] eq_refl) as Hthm.
  cbv zeta in Hthm. destruct Hthm as (Hnet & _ & _).
  rewrite (Hnet "Failed to fetch" eq_refl eq_refl). reflexivity.
Defined.

(** X7 on a reply that takes 250 ms and grants one hour. *)
Lemma exchange_success_and_expiry_witness :
  let ch := {| codeVerifier := "verifier"; codeChallenge := "challenge" |} in
  let this := holding (createOAuthManager example_env microsoft) ch in
  let w := example_world ∅ 1000 [answer true 200 "access:AT"] in
  pkceChallenge this = Some ch /\
  fst (exchangeCodeForTokens "c0de" (this, w)) =
    Normal {| accessToken := "AT"; refreshToken := None;
              expiresIn := 3600; expiresAt := 3601250 |}.
Proof.
  intros ch this w. split; [reflexivity|].
  pose proof (exchange_success_and_expiry this w "c0de" ch
                {| ok := true; status := 200; statusText := ""; text := "access:AT" |}
                250%N []
                {| access_token := "AT"; refresh_token := None; expires_in := 3600 |}
                eq_refl eq_refl eq_refl eq_refl) as Hthm.
  cbv zeta in Hthm. destruct Hthm as (Hrun & _).
  rewrite Hrun. reflexivity.
Defined.

(** X8 on a Microsoft profile that has a mail address. *)
Lemma getUserInfo_normalizes_profile_witness :
  let this := createOAuthManager example_env microsoft in
  let w := example_world ∅ 0 [answer true 200 "mail:a@example.com"] in
  fst (getUserInfo "AT" (this, w)) =
    Normal {| id := Some "1"; email := Some "a@example.com";
              uname := None; picture := None |}.
Proof.
  intros this w.
  pose proof (getUserInfo_normalizes_profile this w "AT" 250%N []) as Hthm.
  cbv zeta in Hthm. destruct Hthm as (_ & _ & _ & Hms).
  rewrite (Hms {| ok := true; status := 200; statusText := "";
                  text := "mail:a@example.com" |}
               {| p_id := Some "1"; p_email := Some "a@example.com";
                  p_name := None; p_picture := None;
                  p_mail := Some "a@example.com";
                  p_userPrincipalName := None; p_displayName := None;
                  p_photo_value := None |}
               eq_refl eq_refl eq_refl eq_refl).
  reflexivity.
Defined.

(** X10 on a message without attachments. *)
Lemma gmail_plain_message_witness :
  (attachments plain_mail = None \/ attachments plain_mail = Some []) /\
  exists message,
    gmail_message plain_mail fresh_world = (Normal message, fresh_world) /\
    base64url_decode (gmail_encode message) = Some message /\
    requests (snd (sendGmailEmail "token" plain_mail fresh_world)) =
      [ {| url := "https://gmail.googleapis.com/gmail/v1/users/me/messages/send";
           method := "POST";
           headers := [ ("Authorization", "Bearer " +:+ "token");
                        ("Content-Type", "application/json") ];
           body := "{" +:+ dquote +:+ "raw" +:+ dquote +:+ ":" +:+ dquote +:+
                   gmail_encode message +:+ dquote +:+ "}" |} ] /\
    draws (snd (sendGmailEmail "token" plain_mail fresh_world)) = 0%nat.
Proof.
  assert (Hplain : attachments plain_mail = None \/ attachments plain_mail = Some [])
    by (left; reflexivity).
  split; [exact Hplain|].
  pose proof (gmail_plain_message "token" plain_mail fresh_world Hplain) as Hthm.
  cbv zeta in Hthm. destruct Hthm as (Hmsg & Hdec & _ & Hreq & Hdraws).
  eexists. split; [exact Hmsg|]. split; [exact Hdec|].
  split; [exact Hreq | exact Hdraws].
Defined.

(** X11 on the message with two attachments. *)
Lemma outlook_envelope_contents_witness :
  attachments example_mail = Some two_attachments /\
  two_attachments <> [] /\
  exists files,
    gm_attachments (sm_message (outlook_envelope example_mail)) = Some files /\
    map fa_name files = ["a.pdf"; "b.txt"] /\
    map contentBytes files = ["JVBERi0x"; "aGVsbG8="].
Proof.
  assert (Hne : two_attachments <> []) by discriminate.
  split; [reflexivity|]. split; [exact Hne|].
  pose proof (outlook_envelope_contents "token" example_mail fresh_world) as Hthm.
  cbv zeta in Hthm. destruct Hthm as (_ & _ & _ & _ & _ & Hatts).
  destruct (Hatts two_attachments eq_refl Hne)
    as (files & Hfiles & _ & Hnames & _ & Hbytes & _).
  exists files. split; [exact Hfiles|]. split; [exact Hnames | exact Hbytes].
Defined.

(** X12 on tokens that the stand-in notation prints and reads back. *)
Lemma tokens_round_trip_witness :
  let t := example_tokens "A" in
  let stored := snd (storeAuthTokens "SG" "google" t fresh_world) in
  JSON_stringify_tokens t <> "" /\
  JSON_parse_tokens (JSON_stringify_tokens t) = Some (Some t) /\
  getStoredAuthTokens "SG" "google" stored = (Normal (Some t), stored) /\
  fst (getStoredAuthTokens "SG" "google"
         (snd (clearAuthTokens "SG" "google" stored))) = Normal None.
Proof.
  intros t stored.
  assert (Hne : JSON_stringify_tokens t <> "") by discriminate.
  assert (Hrt : JSON_parse_tokens (JSON_stringify_tokens t) = Some (Some t))
    by reflexivity.
  split; [exact Hne|]. split; [exact Hrt|].
  pose proof (tokens_round_trip "SG" "google" t (example_tokens "old")
                {| id := None; email := None; uname := None; picture := None |}
                fresh_world Hne Hrt) as Hthm.
  cbv zeta in Hthm. destruct Hthm as (Hread & _ & _ & _ & Hcleared).
  split; [exact Hread | exact Hcleared].
Defined.

(** X13 on user info that the stand-in notation prints and reads back. *)
Lemma userinfo_round_trip_witness :
  let u := {| id := None; email := Some "a@example.com";
              uname := None; picture := None |} in
  let stored := snd (storeUserInfo "SG" "google" u fresh_world) in
  JSON_stringify_userinfo u <> "" /\
  JSON_parse_userinfo (JSON_stringify_userinfo u) = Some (Some u) /\
  getStoredUserInfo "SG" "google" stored = (Normal (Some u), stored) /\
  fst (getStoredUserInfo "SG" "google"
         (snd (clearAuthTokens "SG" "google" stored))) = Normal None.
Proof.
  intros u stored.
  assert (Hne : JSON_stringify_userinfo u <> "") by discriminate.
  assert (Hrt : JSON_parse_userinfo (JSON_stringify_userinfo u) = Some (Some u))
    by reflexivity.
  split; [exact Hne|]. split; [exact Hrt|].
  pose proof (userinfo_round_trip "SG" "google" (example_tokens "A") u
                fresh_world Hne Hrt) as Hthm.
  cbv zeta in Hthm. destruct Hthm as (Hread & _ & _ & _ & Hcleared).
  split; [exact Hread | exact Hcleared].
Defined.


(** X16 for Singapore and Malaysia: the expired Singapore tokens are
    cleared, the Malaysian ones stay. *)
Lemma getValidAccessToken_touches_own_identity_only_witness :
  let w := example_world {[ auth_key "SG" "google" := "tokens:G";
                            auth_key "MY" "google" := "tokens:M" ]} 4000000 [] in
  ("SG", google) <> ("MY", google) /\
  localStorage (snd (getValidAccessToken example_env "SG" google w))
    !! auth_key "MY" "google" = Some "tokens:M".
Proof.
  intros w.
  assert (Hne : ("SG", google) <> ("MY", google)) by discriminate.
  split; [exact Hne|].
  destruct (getValidAccessToken_touches_own_identity_only example_env "SG" "MY"
              google google w Hne) as (r & w' & Hrun & Hauth & _).
  rewrite Hrun. cbn [snd]. simpl provider_key in Hauth. rewrite Hauth.
  vm_compute. reflexivity.
Defined.

(** X17 on expired Google tokens. *)
Lemma getValidAccessToken_null_is_final_witness :
  let w' := snd (getValidAccessToken example_env "SG" google sg_google_expired) in
  getValidAccessToken example_env "SG" google sg_google_expired = (Normal None, w') /\
  getValidAccessToken example_env "SG" google w' = (Normal None, w').
Proof.
  intros w'.
  assert (Hfirst : getValidAccessToken example_env "SG" google sg_google_expired
                   = (Normal None, w')) by reflexivity.
  split; [exact Hfirst|].
  exact (getValidAccessToken_null_is_final example_env "SG" google
           sg_google_expired w' Hfirst).
Defined.

(** X19 on a flow whose popup was blocked: later events change nothing. *)
Lemma flow_settles_once_witness :
  let st := authenticateWithPopup example_env google "SG" false fresh_world in
  promise st <> Pending /\
  promise (run example_env "SG" [success_message "c0de"; Tick; Timeout] st) =
    promise st.
Proof.
  intros st.
  assert (Hsettled : promise st <> Pending) by (vm_compute; discriminate).
  split; [exact Hsettled|].
  destruct (flow_settles_once example_env "SG"
              [success_message "c0de"; Tick; Timeout] st) as (Hp & _).
  exact (Hp Hsettled).
Defined.

(** X20 on an error message that reports "access_denied". *)
Lemma error_message_rejects_witness :
  let st := authenticateWithPopup example_env microsoft "SG" true fresh_world in
  let st' := step example_env "SG" (Message (error_message_event "access_denied")) st in
  listening st = true /\
  promise st' = Rejected (Error "access_denied") /\
  listening st' = false /\
  popup_closed st' = true.
Proof.
  pose proof (error_message_rejects example_env "SG"
                (error_message_event "access_denied")
                {| mtype := Some "oauth_error"; code := None;
                   merror := Some "access_denied" |}
                (authenticateWithPopup example_env microsoft "SG" true fresh_world))
    as Hthm.
  cbv zeta in Hthm. cbv zeta.
  assert (Hl : listening (authenticateWithPopup example_env microsoft "SG" true
                            fresh_world) = true)
    by (vm_compute; reflexivity).
  specialize (Hthm Hl eq_refl eq_refl eq_refl).
  destruct Hthm as (Hp & Hl' & Hc & _).
  split; [exact Hl|]. split; [|split; [exact Hl' | exact Hc]].
  rewrite Hp. vm_compute. reflexivity.
Defined.

(** X21 on a message without a payload. *)
Lemma unrecognized_message_ignored_witness :
  let st := authenticateWithPopup example_env microsoft "SG" true fresh_world in
  let event := {| ev_origin := "https://app.example"; data := None |} in
  ev_origin event = origin example_env /\
  step example_env "SG" (Message event) st = st.
Proof.
  intros st event. split; [reflexivity|].
  exact (unrecognized_message_ignored example_env "SG" event st eq_refl
           (or_introl eq_refl)).
Defined.

(** X22 on a popup that is still open when the timeout fires. *)
Lemma timeout_acts_on_open_popup_witness :
  let st := authenticateWithPopup example_env microsoft "SG" true fresh_world in
  let st' := step example_env "SG" Timeout st in
  timer st = true /\ popup_closed st = false /\
  promise st' = Rejected (Error "Authentication timeout - please try again") /\
  popup_closed st' = true /\ listening st' = false /\ polling st' = false.
Proof.
  pose proof (timeout_acts_on_open_popup example_env "SG"
                (authenticateWithPopup example_env microsoft "SG" true fresh_world))
    as Hthm.
  cbv zeta in Hthm. cbv zeta.
  assert (Ht : timer (authenticateWithPopup example_env microsoft "SG" true
                        fresh_world) = true)
    by (vm_compute; reflexivity).
  assert (Hc : popup_closed (authenticateWithPopup example_env microsoft "SG" true
                               fresh_world) = false)
    by (vm_compute; reflexivity).
  destruct Hthm as (_ & _ & _ & Hopen & _).
  destruct (Hopen Ht Hc) as (Hp & Hc' & Hl & Hpoll).
  split; [exact Ht|]. split; [exact Hc|].
  split; [|split; [exact Hc'|split; [exact Hl | exact Hpoll]]].
  rewrite Hp. vm_compute. reflexivity.
Defined.
(** X23 on the handler of a sign-in whose token reply has arrived: the
    profile reply stores both records and resolves. *)
Lemma started_handler_completes_witness :
  let st := run example_env "SG"
              [success_message "c0de"; FetchDone 0 (answer true 200 "access:AT")]
              (authenticateWithPopup example_env microsoft "SG" true fresh_world) in
  let tokens := {| accessToken := "AT"; refreshToken := None;
                   expiresIn := 3600; expiresAt := 3600250 |} in
  let userInfo := {| id := Some "1"; email := Some "a@example.com";
                     uname := None; picture := None |} in
  let st' := step example_env "SG"
               (FetchDone 0 (answer true 200 "mail:a@example.com")) st in
  handlers st !! 0%nat = Some (AwaitUserInfo tokens) /\
  promise st' = Resolved tokens userInfo /\
  localStorage (world st') !! auth_key "SG" "microsoft" = Some "tokens:AT" /\
  handlers st' !! 0%nat = Some Finished.
Proof.
  intros st tokens userInfo.
  pose proof (started_handler_completes example_env "SG" st 0
                (answer true 200 "mail:a@example.com") tokens userInfo
                (snd ((let* response := deliver (answer true 200 "mail:a@example.com") in
                       userinfo_continue (provider (oauth st)) response) (world st))))
    as Hthm.
  cbv zeta in Hthm. cbv zeta.
  assert (Hh : handlers st !! 0%nat = Some (AwaitUserInfo tokens))
    by (vm_compute; reflexivity).
  assert (Hreply :
    (let* response := deliver (answer true 200 "mail:a@example.com") in
     userinfo_continue (provider (oauth st)) response) (world st)
    = (Normal userInfo,
       snd ((let* response := deliver (answer true 200 "mail:a@example.com") in
             userinfo_continue (provider (oauth st)) response) (world st))))
    by (vm_compute; reflexivity).
  specialize (Hthm Hh Hreply).
  destruct Hthm as (Hls & Hp & _ & Hdone & _).
  split; [exact Hh|]. split; [|split; [|exact Hdone]].
  - rewrite Hp. vm_compute. reflexivity.
  - rewrite Hls. vm_compute. reflexivity.
Defined.

(** X24 on a Microsoft sign-in in the fresh world. *)
Lemma sign_in_resolves_and_stores_witness :
  let st := authenticateWithPopup example_env microsoft "SG" true fresh_world in
  let event := {| ev_origin := "https://app.example";
                  data := Some {| mtype := Some "oauth_success";
                                  code := Some "c0de"; merror := None |} |} in
  let st' := run example_env "SG"
               [Message event; FetchDone 0 (answer true 200 "access:AT");
                FetchDone 0 (answer true 200 "mail:a@example.com")] st in
  listening st = true /\
  is_Some (pkceChallenge (oauth st)) /\
  promise st' =
    Resolved {| accessToken := "AT"; refreshToken := None;
                expiresIn := 3600; expiresAt := 3600250 |}
             {| id := Some "1"; email := Some "a@example.com";
                uname := None; picture := None |} /\
  length (requests (world st')) = 2%nat /\
  listening st' = false /\ popup_closed st' = true.
Proof.
  intros st event.
  pose (ch := default {| codeVerifier := ""; codeChallenge := "" |}
                (pkceChallenge (oauth st))).
  pose proof (sign_in_resolves_and_stores example_env "SG" st ch event
                {| mtype := Some "oauth_success"; code := Some "c0de";
                   merror := None |}
                "c0de"
                {| ok := true; status := 200; statusText := ""; text := "access:AT" |}
                {| ok := true; status := 200; statusText := "";
                   text := "mail:a@example.com" |}
                250%N 250%N
                {| access_token := "AT"; refresh_token := None; expires_in := 3600 |}
                {| p_id := Some "1"; p_email := Some "a@example.com";
                   p_name := None; p_picture := None;
                   p_mail := Some "a@example.com";
                   p_userPrincipalName := None; p_displayName := None;
                   p_photo_value := None |})
    as Hthm.
  cbv zeta in Hthm. cbv zeta.
  assert (Hl : listening st = true) by (vm_compute; reflexivity).
  assert (Hch : pkceChallenge (oauth st) = Some ch) by (vm_compute; reflexivity).
  assert (Hcode : "c0de" <> "") by discriminate.
  specialize (Hthm Hl Hch eq_refl eq_refl eq_refl eq_refl Hcode
                eq_refl eq_refl eq_refl eq_refl).
  destruct Hthm as (Hp & _ & Hreq & Hl' & Hc').
  split; [exact Hl|]. split; [exists ch; exact Hch|].
  split; [|split; [|split; [exact Hl' | exact Hc']]].
  - assert (Hlen : length (handlers st) = 0%nat) by (vm_compute; reflexivity).
    rewrite Hlen in Hp. unfold answer. rewrite Hp. vm_compute. reflexivity.
  - assert (Hlen : length (handlers st) = 0%nat) by (vm_compute; reflexivity).
    rewrite Hlen in Hreq. unfold answer. rewrite Hreq.
    rewrite length_app. cbn [length]. 
    assert (Hnone : requests (world st) = []) by (vm_compute; reflexivity).
    rewrite Hnone. reflexivity.
Defined.

(** X25 on the unconfigured environment and on a blocked popup. *)
Lemma authenticateWithPopup_start_witness :
  world (authenticateWithPopup unconfigured_env google "SG" true fresh_world) =
    fresh_world /\
  draws (world (authenticateWithPopup example_env google "SG" false fresh_world)) =
    128%nat /\
  forall evs,
    world (run example_env "SG" evs
             (authenticateWithPopup example_env google "SG" false fresh_world)) =
    world (authenticateWithPopup example_env google "SG" false fresh_world).
Proof.
  split; [|split].
  - pose proof (authenticateWithPopup_start unconfigured_env google "SG" true
                  fresh_world) as Hthm.
    cbv zeta in Hthm. destruct Hthm as (Hun & _).
    destruct (Hun (or_intror eq_refl)) as (_ & Hw & _). exact Hw.
  - pose proof (authenticateWithPopup_start example_env google "SG" false
                  fresh_world) as Hthm.
    cbv zeta in Hthm. destruct Hthm as (_ & Hcfg & _).
    assert (Hne : clientId (config (OAUTH_PROVIDERS example_env google)) <> "")
      by discriminate.
    destruct (Hcfg Hne eq_refl) as (Hw & _). rewrite Hw. reflexivity.
  - intros evs.
    pose proof (authenticateWithPopup_start example_env google "SG" false
                  fresh_world) as Hthm.
    cbv zeta in Hthm. destruct Hthm as (_ & _ & Hinert).
    assert (Hsettled : promise (authenticateWithPopup example_env google "SG" false
                                  fresh_world) <> Pending)
      by (vm_compute; discriminate).
    exact (proj2 (Hinert Hsettled evs)).
Defined.
End CoverageExamples.

Section KeepingExamples.
Local Existing Instance keeping_platform.

(** X18 on expired Microsoft tokens, with a notation for tokens that keeps
    the expiry: the first call refreshes, the second posts nothing. *)
Lemma refreshed_token_is_reused_witness :
  let w := example_world {[ auth_key "SG" "microsoft" := "1000;3600;R0;A" ]}
             4000000 [answer true 200 "access:B"] in
  let t := {| accessToken := "A"; refreshToken := Some "R0";
              expiresIn := 3600; expiresAt := 1000 |} in
  getStoredAuthTokens "SG" "microsoft" w = (Normal (Some t), w) /\
  exists w1,
    getValidAccessToken example_env "SG" microsoft w = (Normal (Some "B"), w1) /\
    length (requests w1) = 1%nat /\
    getValidAccessToken example_env "SG" microsoft w1 = (Normal (Some "B"), w1).
Proof.
  intros w t.
  pose proof (refreshed_token_is_reused example_env "SG" w t "R0"
                {| access_token := "B"; refresh_token := None; expires_in := 3600 |}
                250%N) as Hthm.
  cbv zeta in Hthm.
  assert (Hstored : getStoredAuthTokens "SG" "microsoft" w = (Normal (Some t), w))
    by (vm_compute; reflexivity).
  assert (Hexp : expiresAt t <= clock w) by (vm_compute; discriminate).
  assert (Hrt : "R0" <> "") by discriminate.
  assert (Hpos : 0 < expires_in {| access_token := "B"; refresh_token := None;
                                   expires_in := 3600 |}) by reflexivity.
  specialize (Hthm Hstored Hexp eq_refl Hrt eq_refl Hpos).
  destruct Hthm as (w1 & Hfirst & Hreq & Hsecond).
  - vm_compute. discriminate.
  - vm_compute. reflexivity.
  - split; [exact Hstored|]. exists w1.
    split; [exact Hfirst|]. split; [|exact Hsecond].
    rewrite Hreq. reflexivity.
Defined.
End KeepingExamples.
